(** * Verification of the ABEL spreadsheet validator

    Shallow embedding of [tools/abel/validators/spreadsheet_validator.py]
    (class [SpreadsheetValidator]) and the properties of its validators.

    Modelling choices.
    - A row ([Dict[str, str]]) is a [gmap string string]; a parsed
      spreadsheet ([Dict[str, List[Dict[str, str]]]]) is a
      [gmap string (list Row)].
    - [d[key]] is [subscript d key] and raises [KeyError key] on an absent
      key; [d.get(key)] is the lookup [d !! key] ([None] is [None]);
      [d.get(key, [])] is [default [] (d !! key)].
    - Python sets are [gset]s; iterating a set is [elements] (Python leaves
      the order unspecified, no property below depends on it).
    - [collections.Counter] is an insertion-ordered association list.
    - Validators that only use a local [validation_errors] list are pure
      functions into [Result]; the ones that go through the attribute
      [self.validation_errors] run in the monad [M] over a store of list
      objects, so that rebinding and in-place extension are kept apart.
    - Module [Objects] keeps the spreadsheet itself in memory, as a dict
      object of list objects of row dicts, for the property that [Validate]
      writes to none of them; [Validate_abstraction] relates it to the
      model over [Store]. *)

From stdpp Require Import gmap strings list fin_maps.

(** ** Exceptions and results *)

Inductive Exception : Type :=
| KeyError (key : string)
| TypeError
| AttributeError.

Inductive Result (A : Type) : Type :=
| Ok (a : A)
| Raise (e : Exception).

Arguments Ok {A} a.
Arguments Raise {A} e.

#[global] Instance Result_ret : MRet Result := λ A a, Ok a.
#[global] Instance Result_bind : MBind Result :=
  λ A B f m, match m with Ok a => f a | Raise e => Raise e end.

(** [for x in l: acc = body(acc, x)], in any monad. *)
Fixpoint foldM {M : Type → Type} `{!MBind M, !MRet M} {A S : Type}
    (body : S → A → M S) (acc : S) (l : list A) : M S :=
  match l with
  | [] => mret acc
  | x :: l' => acc' ← body acc x; foldM body acc' l'
  end.

(** [enumerate(l, start)]. *)
Fixpoint enumerate {A : Type} (l : list A) (start : nat) : list (nat * A) :=
  match l with
  | [] => []
  | x :: l' => (start, x) :: enumerate l' (S start)
  end.

(** ** Rows and spreadsheets *)

Abbreviation Row := (gmap string string).
Abbreviation Spreadsheet := (gmap string (list Row)).

(** [d[key]] *)
Definition subscript {V : Type} (d : gmap string V) (key : string) : Result V :=
  match d !! key with
  | Some v => Ok v
  | None => Raise (KeyError key)
  end.

(** Truth value of a string: [not s] holds for the empty string only. *)
Definition not_str (s : string) : bool := bool_decide (s = "").

(** ** Errors (constructor calls of [validators.spreadsheet_error]) *)

Inductive SpreadsheetError : Type :=
| SpreadsheetHeaderError (table header message : string)
| MissingSpreadsheetValueError (table : string) (row : nat)
    (column message : string)
| DuplicateCodeError (code message : string)
| CrossSheetDependencyError (source_table target_table : string) (row : nat)
    (column : string) (cell_value : option string)
| ConnectionDependencyError (row : nat) (missing_code present_code : string).

#[global] Instance SpreadsheetError_eq_dec : EqDecision SpreadsheetError.
Proof. solve_decision. Defined.

(** ** [collections.Counter] over strings, in insertion order *)

Fixpoint counter_incr (code : string) (c : list (string * nat))
    : list (string * nat) :=
  match c with
  | [] => [(code, 1)]
  | (k, n) :: c' =>
      if decide (k = code) then (k, S n) :: c'
      else (k, n) :: counter_incr code c'
  end.

Definition Counter (l : list string) : list (string * nat) :=
  foldl (λ c code, counter_incr code c) [] l.

(** ** Constants of [model.constants]

    The module is not part of the sources at hand: its names are taken as
    parameters of the development. *)

Class Constants : Type := {
  SITES : string;
  ENTITIES : string;
  ENTITY_FIELDS : string;
  STATES : string;
  CONNECTIONS : string;
  BUILDING_CODE : string;
  ENTITY_CODE : string;
  BC_GUID : string;
  NAMESPACE : string;
  FACILITIES_NAMESPACE : string;
  REPORTING_ENTITY_CODE : string;
  REPORTING_ENTITY_FIELD_NAME : string;
  STANDARD_FIELD_NAME : string;
  SOURCE_ENTITY_CODE : string;
  TARGET_ENTITY_CODE : string;
  REQUIRED_SITE_HEADERS : list string;
  REQUIRED_ENTITY_HEADERS : list string;
  REQUIRED_FIELD_HEADERS : list string;
  REQUIRED_STATE_HEADERS : list string;
  REQUIRED_CONNECTION_HEADERS : list string;
  ALL_SITE_HEADERS : list string;
  ALL_ENTITY_HEADERS : list string;
  ALL_FIELD_HEADERS : list string;
  ALL_STATE_HEADERS : list string;
  ALL_CONNECTION_HEADERS : list string
}.

Definition _COLUMN_HEADER_INDEX : nat := 1.
Definition _ROW_START_INDEX : nat := 2.

(** ** The store: list objects, the validator instance, the spreadsheet

    [objects] holds the list objects reachable through
    [self.validation_errors], by address; [validation_errors] is the address
    the attribute is bound to; [parsed_spreadsheet] is the dictionary object
    the caller passes to [Validate]; [logged] is what [_LogErrors] handed to
    the logger, in order. *)

Record Store : Type := mkStore {
  objects : list (list SpreadsheetError);
  validation_errors : nat;
  filepath : string;
  parsed_spreadsheet : Spreadsheet;
  logged : list SpreadsheetError
}.

Definition M (A : Type) : Type := Store → Result A * Store.

#[global] Instance M_ret : MRet M := λ A a s, (Ok a, s).
#[global] Instance M_bind : MBind M :=
  λ A B f m s,
    match m s with
    | (Ok a, s') => f a s'
    | (Raise e, s') => (Raise e, s')
    end.

(** A pure computation (it may raise) run inside [M]. *)
Definition lift {A : Type} (r : Result A) : M A := λ s, (r, s).

(** Allocation of a new list object with the given elements. *)
Definition new_list (v : list SpreadsheetError) : M nat :=
  λ s, (Ok (length (objects s)),
        mkStore (objects s ++ [v]) (validation_errors s) (filepath s)
                (parsed_spreadsheet s) (logged s)).

(** Read and write of the attribute [self.validation_errors]. *)
Definition load_validation_errors : M nat :=
  λ s, (Ok (validation_errors s), s).

Definition store_validation_errors (r : nat) : M unit :=
  λ s, (Ok (),
        mkStore (objects s) r (filepath s) (parsed_spreadsheet s) (logged s)).

(** The elements of the list object at address [r]. *)
Definition contents (r : nat) : M (list SpreadsheetError) :=
  λ s, (Ok (objects s !!! r), s).

(** [l.append(e)] on the list object at address [r]. *)
Definition list_append (r : nat) (e : SpreadsheetError) : M unit :=
  λ s, (Ok (),
        mkStore (alter (λ l, l ++ [e]) r (objects s)) (validation_errors s)
                (filepath s) (parsed_spreadsheet s) (logged s)).

(** [l += l'] on list objects: [l] is extended in place with the elements
    of [l']. *)
Definition list_iadd (r r' : nat) : M unit :=
  λ s, (Ok (),
        mkStore (alter (λ l, l ++ objects s !!! r') r (objects s))
                (validation_errors s) (filepath s) (parsed_spreadsheet s)
                (logged s)).

(** [self.validation_errors += rhs]: the target is evaluated first, then the
    right-hand side, then the old list object is extended in place and bound
    to the attribute again. *)
Definition iadd_validation_errors (rhs : M nat) : M unit :=
  target ← load_validation_errors;
  value ← rhs;
  list_iadd target value;;
  store_validation_errors target.

(** A validator without side effect: its result is a fresh list object. *)
Definition returning (r : Result (list SpreadsheetError)) : M nat :=
  v ← lift r; new_list v.

(** The dictionary bound to the parameter [parsed_spreadsheet]. *)
Definition the_spreadsheet : M Spreadsheet :=
  λ s, (Ok (parsed_spreadsheet s), s).

Definition bind_parameter (ps : Spreadsheet) : M unit :=
  λ s, (Ok (),
        mkStore (objects s) (validation_errors s) (filepath s) ps (logged s)).

(** [parsed_spreadsheet[key]] *)
Definition spreadsheet_item (key : string) : M (list Row) :=
  ps ← the_spreadsheet; lift (subscript ps key).

(** [logger.error(error.GetErrorMessage())] *)
Definition logger_error (e : SpreadsheetError) : M unit :=
  λ s, (Ok (),
        mkStore (objects s) (validation_errors s) (filepath s)
                (parsed_spreadsheet s) (logged s ++ [e])).

(** [SpreadsheetValidator(filepath)], in a world where the caller holds the
    spreadsheet [ps]: the attribute is bound to a new empty list. *)
Definition __init__ (path : string) (ps : Spreadsheet) : Store :=
  mkStore [[]] 0 path ps [].

(** The elements of [self.validation_errors]. *)
Definition self_errors (s : Store) : list SpreadsheetError :=
  objects s !!! validation_errors s.

Section validators.
Context `{!Constants}.

(** *** [_ValidateEntityCodes] *)

Definition duplicate_code_error (duplicate : string) : SpreadsheetError :=
  DuplicateCodeError duplicate
    ("Entity Code: " +:+ duplicate +:+ " is defined more than once in "
       +:+ ENTITIES +:+ " table.").

Definition duplicates_of (list_of_codes : list string) : list string :=
  (filter (λ item : string * nat, 1 < item.2) (Counter list_of_codes)).*1.

Definition _ValidateEntityCodes (sheet : list Row)
    : Result (list SpreadsheetError) :=
  list_of_codes ← mapM (λ row : Row, subscript row ENTITY_CODE) sheet;
  let duplicates := duplicates_of list_of_codes in
  foldM (λ validation_errors duplicate,
           Ok (validation_errors ++ [duplicate_code_error duplicate]))
        [] duplicates.

(** *** [ValidateFacilitiesGuids] *)

Definition ValidateFacilitiesGuids (sheet : list Row)
    : Result (list SpreadsheetError) :=
  foldM (λ validation_errors '(row_number, row),
           guid ← subscript (row : Row) BC_GUID;
           cond ← (if not_str guid
                   then namespace ← subscript row NAMESPACE;
                        Ok (bool_decide (namespace = FACILITIES_NAMESPACE))
                   else Ok false);
           if (cond : bool)
           then code ← subscript row ENTITY_CODE;
                Ok (validation_errors ++
                      [MissingSpreadsheetValueError ENTITIES row_number BC_GUID
                         (code +:+ " in " +:+ FACILITIES_NAMESPACE +:+
                            " namespace must have a guid obtained through DB API export building config operation.")])
           else Ok validation_errors)
        [] (enumerate sheet 0).

(** *** [_ValidateHeaders] *)

Definition header_error (table header : string) : SpreadsheetError :=
  SpreadsheetHeaderError table header
    (table +:+ " missing required column header: " +:+ header).

Definition header_scan (column_headers : list string) (parsed_sheet : list Row)
    : gset string * gset string :=
  foldl (λ '(parsed_headers, header_difference) (row : Row),
           let parsed_headers : gset string := parsed_headers ∪ dom row in
           (parsed_headers,
            header_difference ∪ (list_to_set column_headers ∖ parsed_headers)))
        (∅, ∅) parsed_sheet.

Definition _ValidateHeaders (table : string) (parsed_sheet : list Row)
    (column_headers : list string) : list SpreadsheetError :=
  let header_difference := (header_scan column_headers parsed_sheet).2 in
  if decide (header_difference = ∅) then []
  else header_error table <$> elements header_difference.

(** *** [_ValidateStatesAcrossSheets] *)

Definition state_error (row_num : nat) (reporting_field_name : option string)
    : SpreadsheetError :=
  CrossSheetDependencyError STATES ENTITY_FIELDS row_num STANDARD_FIELD_NAME
    reporting_field_name.

Definition count_field (entity_code reporting_field_name : option string)
    (num_dependencies : nat) (field : Row) : Result nat :=
  field_entity_code ← subscript field ENTITY_CODE;
  num_dependencies ←
    (if bool_decide (entity_code = Some field_entity_code)
     then name ← subscript field STANDARD_FIELD_NAME;
          Ok (if bool_decide (Some name = reporting_field_name)
              then num_dependencies + 1 else num_dependencies)
     else Ok num_dependencies);
  field_reporting_code ← subscript field REPORTING_ENTITY_CODE;
  if bool_decide (entity_code = Some field_reporting_code)
  then name ← subscript field REPORTING_ENTITY_FIELD_NAME;
       Ok (if bool_decide (Some name = reporting_field_name)
           then num_dependencies + 1 else num_dependencies)
  else Ok num_dependencies.

Definition _ValidateStatesAcrossSheets (parsed_spreadsheet : Spreadsheet)
    : Result (list SpreadsheetError) :=
  let states := default [] (parsed_spreadsheet !! STATES) in
  let fields := default [] (parsed_spreadsheet !! ENTITY_FIELDS) in
  foldM (λ validation_errors '(row_num, state),
           let reporting_field_name := (state : Row) !! STANDARD_FIELD_NAME in
           let entity_code := state !! ENTITY_CODE in
           num_dependencies ←
             foldM (count_field entity_code reporting_field_name) 0 fields;
           Ok (if bool_decide (num_dependencies ≠ 1)
               then validation_errors ++ [state_error row_num reporting_field_name]
               else validation_errors))
        [] (enumerate states _ROW_START_INDEX).

(** *** [_ValidateConnections] *)

Definition check_connection (codes : gset string)
    (validation_errors : list SpreadsheetError) (item : nat * Row)
    : Result (list SpreadsheetError) :=
  let '(row_number, connection) := item in
  source ← subscript connection SOURCE_ENTITY_CODE;
  validation_errors ←
    (if bool_decide (source ∉ codes)
     then missing_code ← subscript connection SOURCE_ENTITY_CODE;
          present_code ← subscript connection TARGET_ENTITY_CODE;
          Ok (validation_errors ++
                [ConnectionDependencyError row_number missing_code present_code])
     else Ok validation_errors);
  target ← subscript connection TARGET_ENTITY_CODE;
  if bool_decide (target ∉ codes)
  then missing_code ← subscript connection SOURCE_ENTITY_CODE;
       present_code ← subscript connection TARGET_ENTITY_CODE;
       Ok (validation_errors ++
             [ConnectionDependencyError row_number missing_code present_code])
  else Ok validation_errors.

Definition _ValidateConnections (parsed_spreadsheet : Spreadsheet)
    : Result (list SpreadsheetError) :=
  connections_sheet ← subscript parsed_spreadsheet CONNECTIONS;
  entities_sheet ← subscript parsed_spreadsheet ENTITIES;
  sites_sheet ← subscript parsed_spreadsheet SITES;
  entity_codes ← mapM (λ row : Row, subscript row ENTITY_CODE) entities_sheet;
  building_codes ← mapM (λ row : Row, subscript row BUILDING_CODE) sites_sheet;
  let codes : gset string :=
    list_to_set entity_codes ∪ list_to_set building_codes in
  foldM (check_connection codes) []
        (enumerate connections_sheet _ROW_START_INDEX).

(** *** [_ValidateContents] *)

Definition missing_value_error (table : string) (row_number : nat)
    (header : string) : SpreadsheetError :=
  MissingSpreadsheetValueError table row_number header
    (table +:+ " entry must have a " +:+ header).

Definition check_cell (table : string) (row_number : nat) (row : Row)
    (_ : unit) (header : string) : M unit :=
  value ← lift (subscript row header);
  if not_str value
  then l ← load_validation_errors;
       list_append l (missing_value_error table row_number header)
  else mret ().

Definition _ValidateContents (table : string) (parsed_sheet : list Row)
    (col_headers_values : list string) : M nat :=
  l ← new_list [];
  store_validation_errors l;;
  foldM (λ _ '(row_number, row),
           foldM (check_cell table row_number row) () col_headers_values)
        () (enumerate parsed_sheet _ROW_START_INDEX);;
  load_validation_errors.

(** *** [_ValidateFieldsAcrossSheets] *)

Definition field_error (row_num : nat) (column : string)
    (cell_value : option string) : SpreadsheetError :=
  CrossSheetDependencyError ENTITY_FIELDS ENTITIES row_num column cell_value.

Definition check_field (entities : list Row) (_ : unit) (item : nat * Row)
    : M unit :=
  let '(row_num, field) := item in
  let field_reporting_entity_code := field !! REPORTING_ENTITY_CODE in
  let field_entity_code := field !! ENTITY_CODE in
  let entity_codes : gset (option string) :=
    list_to_set ((λ entity : Row, entity !! ENTITY_CODE) <$> entities) in
  (if bool_decide (field_entity_code ∉ entity_codes)
   then l ← load_validation_errors;
        list_append l (field_error row_num ENTITY_CODE field_entity_code)
   else mret ());;
  if bool_decide (field_reporting_entity_code ∉ entity_codes)
  then l ← load_validation_errors;
       list_append l
         (field_error row_num REPORTING_ENTITY_CODE field_reporting_entity_code)
  else mret ().

Definition _ValidateFieldsAcrossSheets : M nat :=
  l ← new_list [];
  store_validation_errors l;;
  ps ← the_spreadsheet;
  let fields := default [] (ps !! ENTITY_FIELDS) in
  let entities := default [] (ps !! ENTITIES) in
  foldM (check_field entities) () (enumerate fields _ROW_START_INDEX);;
  load_validation_errors.

(** *** [_LogErrors] *)

Definition _LogErrors (r : nat) : M unit :=
  errors ← contents r;
  foldM (λ _ error, logger_error error) () errors.

(** *** [Validate] *)

Definition validation_parameters_of (sites entities fields states connections
    : list Row) : list (string * list Row * list string * list string) :=
  [ (SITES, sites, REQUIRED_SITE_HEADERS, ALL_SITE_HEADERS);
    (ENTITIES, entities, REQUIRED_ENTITY_HEADERS, ALL_ENTITY_HEADERS);
    (ENTITY_FIELDS, fields, REQUIRED_FIELD_HEADERS, ALL_FIELD_HEADERS);
    (STATES, states, REQUIRED_STATE_HEADERS, ALL_STATE_HEADERS);
    (CONNECTIONS, connections, REQUIRED_CONNECTION_HEADERS,
     ALL_CONNECTION_HEADERS) ].

(** Lines 96-103: duplicate codes, facilities identifiers, headers. *)
Definition structural_phase
    (validation_parameters
       : list (string * list Row * list string * list string)) : M unit :=
  entities_sheet ← spreadsheet_item ENTITIES;
  iadd_validation_errors (returning (_ValidateEntityCodes entities_sheet));;
  iadd_validation_errors (returning (ValidateFacilitiesGuids entities_sheet));;
  foldM (λ _ '(table, parsed_sheet, _, column_headers),
           iadd_validation_errors
             (returning (Ok (_ValidateHeaders table parsed_sheet column_headers))))
        () validation_parameters.

(** Lines 107-117: contents, then the three cross-sheet validators. *)
Definition content_phase
    (validation_parameters
       : list (string * list Row * list string * list string)) : M unit :=
  foldM (λ _ '(table, parsed_sheet, col_headers_values, _),
           iadd_validation_errors
             (_ValidateContents table parsed_sheet col_headers_values))
        () validation_parameters;;
  iadd_validation_errors _ValidateFieldsAcrossSheets;;
  iadd_validation_errors
    (ps ← the_spreadsheet; returning (_ValidateStatesAcrossSheets ps));;
  iadd_validation_errors
    (ps ← the_spreadsheet; returning (_ValidateConnections ps)).

Definition Validate (ps : Spreadsheet) : M bool :=
  bind_parameter ps;;
  sites ← spreadsheet_item SITES;
  entities ← spreadsheet_item ENTITIES;
  fields ← spreadsheet_item ENTITY_FIELDS;
  states ← spreadsheet_item STATES;
  connections ← spreadsheet_item CONNECTIONS;
  let validation_parameters :=
    validation_parameters_of sites entities fields states connections in
  structural_phase validation_parameters;;
  errors ← (l ← load_validation_errors; contents l);
  (if bool_decide (errors = []) then content_phase validation_parameters
   else mret ());;
  l ← load_validation_errors;
  errors ← contents l;
  if bool_decide (errors ≠ [])
  then _LogErrors l;; mret false
  else mret true.

End validators.

(** ** The spreadsheet as objects

    In [Store] the spreadsheet is a value, which no operation can write. The
    model below keeps it in memory as Python has it: a dict object that maps
    table names to list objects, each list object holding references to the
    dict objects of its rows. The lists of errors live in the same memory of
    list objects, so that appending to [self.validation_errors] writes to
    whatever list object the attribute is bound to, a sheet included.

    A sheet is read where the source starts to iterate over it. The
    validators that only read ([_ValidateEntityCodes],
    [ValidateFacilitiesGuids], [_ValidateHeaders],
    [_ValidateStatesAcrossSheets], [_ValidateConnections]) are the functions
    defined above, applied to the rows read; the two that write to
    [self.validation_errors] while they iterate ([_ValidateContents],
    [_ValidateFieldsAcrossSheets]), [_LogErrors] and [Validate] are written
    again over the memory. The list a validator appends to while
    it iterates is always one it has just created, so the rows read at the
    start of a loop are the rows the loop sees. Sheets hold rows, as the
    annotation [List[Dict[str, str]]] says; on an element that is no row
    Python raises [TypeError] or [AttributeError] where a validator first
    uses it, and the model raises [TypeError] where the sheet is read. *)

Module Objects.

(** An element of a list object: an error object, or a reference to the dict
    object of a row. *)
Inductive Item : Type :=
| Error (e : SpreadsheetError)
| RowRef (r : nat).

#[global] Instance Item_eq_dec : EqDecision Item.
Proof. solve_decision. Defined.

(** [lists] and [dicts] hold the list objects and the dict objects of rows,
    by address; [spreadsheet] is the dict object bound to the parameter
    [parsed_spreadsheet], from table names to addresses of list objects;
    [validation_errors] is the address of the list object the attribute
    [self.validation_errors] is bound to. *)
Record Memory : Type := mkMemory {
  lists : list (list Item);
  dicts : list Row;
  spreadsheet : gmap string nat;
  validation_errors : nat;
  filepath : string;
  logged : list SpreadsheetError
}.

Definition O (A : Type) : Type := Memory → Result A * Memory.

#[global] Instance O_ret : MRet O := λ A a m, (Ok a, m).
#[global] Instance O_bind : MBind O :=
  λ A B f c m,
    match c m with
    | (Ok a, m') => f a m'
    | (Raise e, m') => (Raise e, m')
    end.

Definition lift {A : Type} (r : Result A) : O A := λ m, (r, m).

Definition new_list (v : list Item) : O nat :=
  λ m, (Ok (length (lists m)),
        mkMemory (lists m ++ [v]) (dicts m) (spreadsheet m)
                 (validation_errors m) (filepath m) (logged m)).

Definition load_validation_errors : O nat :=
  λ m, (Ok (validation_errors m), m).

Definition store_validation_errors (a : nat) : O unit :=
  λ m, (Ok (),
        mkMemory (lists m) (dicts m) (spreadsheet m) a (filepath m)
                 (logged m)).

(** The elements of the list object at address [a]. *)
Definition items (a : nat) : O (list Item) :=
  λ m, (Ok (lists m !!! a), m).

(** [l.append(i)] *)
Definition list_append (a : nat) (i : Item) : O unit :=
  λ m, (Ok (),
        mkMemory (alter (λ l, l ++ [i]) a (lists m)) (dicts m) (spreadsheet m)
                 (validation_errors m) (filepath m) (logged m)).

(** [l += l'] *)
Definition list_iadd (a a' : nat) : O unit :=
  λ m, (Ok (),
        mkMemory (alter (λ l, l ++ lists m !!! a') a (lists m)) (dicts m)
                 (spreadsheet m) (validation_errors m) (filepath m)
                 (logged m)).

(** [self.validation_errors += rhs] *)
Definition iadd_validation_errors (rhs : O nat) : O unit :=
  target ← load_validation_errors;
  value ← rhs;
  list_iadd target value;;
  store_validation_errors target.

(** The list a read-only validator returns: a new list object holding its
    errors. *)
Definition returning (r : Result (list SpreadsheetError)) : O nat :=
  v ← lift r; new_list (Error <$> v).

(** [parsed_spreadsheet[key]]: the list object of a table. *)
Definition spreadsheet_item (key : string) : O nat :=
  λ m, (subscript (spreadsheet m) key, m).

(** The rows of the sheet at address [a], as the loop over it sees them. *)
Definition row_at (m : Memory) (i : Item) : Result Row :=
  match i with
  | RowRef r => Ok (dicts m !!! r)
  | Error _ => Raise TypeError
  end.

Definition rows (a : nat) : O (list Row) :=
  λ m, (mapM (row_at m) (lists m !!! a), m).

(** What a validator that is handed the spreadsheet sees of it through the
    given keys. *)
Definition view_table (ps : Spreadsheet) (key : string) : O Spreadsheet :=
  λ m, match spreadsheet m !! key with
       | Some a => (sheet ← rows a; mret (<[key := sheet]> ps)) m
       | None => (Ok ps, m)
       end.

Definition view (keys : list string) : O Spreadsheet :=
  foldM view_table ∅ keys.

Definition logger_error (e : SpreadsheetError) : O unit :=
  λ m, (Ok (),
        mkMemory (lists m) (dicts m) (spreadsheet m) (validation_errors m)
                 (filepath m) (logged m ++ [e])).

(** [SpreadsheetValidator(filepath)] in a memory that holds the spreadsheet:
    the attribute is bound to a new empty list. *)
Definition __init__ (path : string) (lists : list (list Item))
    (dicts : list Row) (spreadsheet : gmap string nat) : Memory :=
  mkMemory (lists ++ [[]]) dicts spreadsheet (length lists) path [].

Section validators.
Context `{!Constants}.

Definition check_cell (table : string) (row_number : nat) (row : Row)
    (_ : unit) (header : string) : O unit :=
  value ← lift (subscript row header);
  if not_str value
  then l ← load_validation_errors;
       list_append l (Error (missing_value_error table row_number header))
  else mret ().

Definition _ValidateContents (table : string) (parsed_sheet : nat)
    (col_headers_values : list string) : O nat :=
  l ← new_list [];
  store_validation_errors l;;
  sheet ← rows parsed_sheet;
  foldM (λ _ '(row_number, row),
           foldM (check_cell table row_number row) () col_headers_values)
        () (enumerate sheet _ROW_START_INDEX);;
  load_validation_errors.

Definition check_field (entities : list Row) (_ : unit) (item : nat * Row)
    : O unit :=
  let '(row_num, field) := item in
  let field_reporting_entity_code := field !! REPORTING_ENTITY_CODE in
  let field_entity_code := field !! ENTITY_CODE in
  let entity_codes : gset (option string) :=
    list_to_set ((λ entity : Row, entity !! ENTITY_CODE) <$> entities) in
  (if bool_decide (field_entity_code ∉ entity_codes)
   then l ← load_validation_errors;
        list_append l
          (Error (field_error row_num ENTITY_CODE field_entity_code))
   else mret ());;
  if bool_decide (field_reporting_entity_code ∉ entity_codes)
  then l ← load_validation_errors;
       list_append l
         (Error (field_error row_num REPORTING_ENTITY_CODE
                   field_reporting_entity_code))
  else mret ().

Definition _ValidateFieldsAcrossSheets : O nat :=
  l ← new_list [];
  store_validation_errors l;;
  ps ← view [ENTITY_FIELDS; ENTITIES];
  let fields := default [] (ps !! ENTITY_FIELDS) in
  let entities := default [] (ps !! ENTITIES) in
  foldM (check_field entities) () (enumerate fields _ROW_START_INDEX);;
  load_validation_errors.

(** [error.GetErrorMessage()] on an element that is no error raises
    [AttributeError]. *)
Definition _LogErrors (a : nat) : O unit :=
  errors ← items a;
  foldM (λ _ error,
           match error with
           | Error e => logger_error e
           | RowRef _ => lift (Raise AttributeError)
           end)
        () errors.

Definition validation_parameters_of (sites entities fields states connections
    : nat) : list (string * nat * list string * list string) :=
  [ (SITES, sites, REQUIRED_SITE_HEADERS, ALL_SITE_HEADERS);
    (ENTITIES, entities, REQUIRED_ENTITY_HEADERS, ALL_ENTITY_HEADERS);
    (ENTITY_FIELDS, fields, REQUIRED_FIELD_HEADERS, ALL_FIELD_HEADERS);
    (STATES, states, REQUIRED_STATE_HEADERS, ALL_STATE_HEADERS);
    (CONNECTIONS, connections, REQUIRED_CONNECTION_HEADERS,
     ALL_CONNECTION_HEADERS) ].

Definition structural_phase
    (validation_parameters
       : list (string * nat * list string * list string)) : O unit :=
  entities_sheet ← spreadsheet_item ENTITIES;
  iadd_validation_errors
    (sheet ← rows entities_sheet; returning (_ValidateEntityCodes sheet));;
  iadd_validation_errors
    (sheet ← rows entities_sheet; returning (ValidateFacilitiesGuids sheet));;
  foldM (λ _ '(table, parsed_sheet, _, column_headers),
           iadd_validation_errors
             (sheet ← rows parsed_sheet;
              returning (Ok (_ValidateHeaders table sheet column_headers))))
        () validation_parameters.

Definition content_phase
    (validation_parameters
       : list (string * nat * list string * list string)) : O unit :=
  foldM (λ _ '(table, parsed_sheet, col_headers_values, _),
           iadd_validation_errors
             (_ValidateContents table parsed_sheet col_headers_values))
        () validation_parameters;;
  iadd_validation_errors _ValidateFieldsAcrossSheets;;
  iadd_validation_errors
    (ps ← view [STATES; ENTITY_FIELDS];
     returning (_ValidateStatesAcrossSheets ps));;
  iadd_validation_errors
    (ps ← view [CONNECTIONS; ENTITIES; SITES];
     returning (_ValidateConnections ps)).

Definition Validate : O bool :=
  sites ← spreadsheet_item SITES;
  entities ← spreadsheet_item ENTITIES;
  fields ← spreadsheet_item ENTITY_FIELDS;
  states ← spreadsheet_item STATES;
  connections ← spreadsheet_item CONNECTIONS;
  let validation_parameters :=
    validation_parameters_of sites entities fields states connections in
  structural_phase validation_parameters;;
  errors ← (l ← load_validation_errors; items l);
  (if bool_decide (errors = []) then content_phase validation_parameters
   else mret ());;
  l ← load_validation_errors;
  errors ← items l;
  if bool_decide (errors ≠ [])
  then _LogErrors l;; mret false
  else mret true.

End validators.

End Objects.

(** ** Sample constants

    Modelled from the spec: the values of [model.constants] (table names,
    column headers, required and recognised header sets) are external
    configuration. The instance below gives every table the columns the
    validators index, with required headers a subset of all headers; it is
    used for the concrete runs only, the general theorems hold for every
    [Constants]. *)

Definition abel_constants : Constants := {|
  SITES := "Site";
  ENTITIES := "Entities";
  ENTITY_FIELDS := "Entity Fields";
  STATES := "States";
  CONNECTIONS := "Connections";
  BUILDING_CODE := "Building Code";
  ENTITY_CODE := "Entity Code";
  BC_GUID := "Entity Guid";
  NAMESPACE := "Namespace";
  FACILITIES_NAMESPACE := "FACILITIES";
  REPORTING_ENTITY_CODE := "Reporting Entity Code";
  REPORTING_ENTITY_FIELD_NAME := "Reporting Entity Field";
  STANDARD_FIELD_NAME := "Standard Field Name";
  SOURCE_ENTITY_CODE := "Source Entity Code";
  TARGET_ENTITY_CODE := "Target Entity Code";
  REQUIRED_SITE_HEADERS := ["Building Code"];
  REQUIRED_ENTITY_HEADERS := ["Entity Code"; "Namespace"];
  REQUIRED_FIELD_HEADERS :=
    ["Standard Field Name"; "Entity Code"; "Reporting Entity Code"];
  REQUIRED_STATE_HEADERS := ["Entity Code"; "Standard Field Name"];
  REQUIRED_CONNECTION_HEADERS := ["Source Entity Code"; "Target Entity Code"];
  ALL_SITE_HEADERS := ["Building Code"; "City"];
  ALL_ENTITY_HEADERS := ["Entity Code"; "Entity Guid"; "Namespace"];
  ALL_FIELD_HEADERS :=
    ["Standard Field Name"; "Reporting Entity Field"; "Entity Code";
     "Reporting Entity Code"];
  ALL_STATE_HEADERS := ["Entity Code"; "Standard Field Name"; "Payload Value"];
  ALL_CONNECTION_HEADERS := ["Source Entity Code"; "Target Entity Code"]
|}.

(** Rows and spreadsheets from association lists. *)
Definition row_of (cells : list (string * string)) : Row := list_to_map cells.
Definition spreadsheet_of (tables : list (string * list Row)) : Spreadsheet :=
  list_to_map tables.

(** * Vocabulary of the specifications

    None of the definitions below is part of the validator: they are the
    terms in which its properties are stated and proved. *)

(** Number of occurrences of [code] in [codes]. *)
Definition count_code (code : string) (codes : list string) : nat :=
  length (filter (λ c, c = code) codes).

(** The distinct elements of a list, in the order of their first
    occurrence. *)
Fixpoint first_occurrences (l : list string) : list string :=
  match l with
  | [] => []
  | x :: l' => x :: filter (λ y, y ≠ x) (first_occurrences l')
  end.

(** [c[code]] on a [Counter]: 0 for a code that was never counted. *)
Fixpoint counter_get (c : list (string * nat)) (code : string) : nat :=
  match c with
  | [] => 0
  | (k, n) :: c' => if decide (k = code) then n else counter_get c' code
  end.

(** [collect f l]: the errors of [f] over [l], in order; raises at the first
    element where [f] raises. *)
Fixpoint collect {A : Type} (f : A → Result (list SpreadsheetError))
    (l : list A) : Result (list SpreadsheetError) :=
  match l with
  | [] => Ok []
  | x :: l' => e ← f x; es ← collect f l'; Ok (e ++ es)
  end.

(** The header a [SpreadsheetHeaderError] is about. *)
Definition header_of (e : SpreadsheetError) : option string :=
  match e with
  | SpreadsheetHeaderError _ header _ => Some header
  | _ => None
  end.

(** The row index carried by an error, for the variants that have one. *)
Definition error_row (e : SpreadsheetError) : option nat :=
  match e with
  | MissingSpreadsheetValueError _ row _ _ => Some row
  | CrossSheetDependencyError _ _ row _ _ => Some row
  | ConnectionDependencyError row _ _ => Some row
  | _ => None
  end.

(** A row exposes the given keys. *)
Definition exposes (keys : list string) (row : Row) : Prop :=
  Forall (λ key, is_Some (row !! key)) keys.

(** ** Store-level specifications *)

(** The attribute is bound to an allocated list object. *)
Definition bound (s : Store) : Prop := validation_errors s < length (objects s).

(** [s] after [es] were appended to the list bound to the attribute. *)
Definition appended (es : list SpreadsheetError) (s : Store) : Store :=
  mkStore (alter (λ l, l ++ es) (validation_errors s) (objects s))
          (validation_errors s) (filepath s) (parsed_spreadsheet s) (logged s).

(** [m] appends the errors of [r] to the list bound to the attribute and
    touches nothing else; it raises when [r] does. *)
Definition appends (m : M unit) (r : Result (list SpreadsheetError)) : Prop :=
  ∀ s, match r with
       | Ok es => m s = (Ok (), appended es s)
       | Raise e => (m s).1 = Raise e
       end.

(** [s'] is [s] with [es] added to the errors of the instance. *)
Definition extended (s s' : Store) (es : list SpreadsheetError) : Prop :=
  bound s'
  ∧ self_errors s' = self_errors s ++ es
  ∧ parsed_spreadsheet s' = parsed_spreadsheet s
  ∧ logged s' = logged s.

(** On a store whose spreadsheet is [ps], [m] adds the errors of [r] to the
    errors of the instance; it raises when [r] does. *)
Definition accumulates (ps : Spreadsheet) (m : M unit)
    (r : Result (list SpreadsheetError)) : Prop :=
  ∀ s, bound s → parsed_spreadsheet s = ps →
       match r with
       | Ok es => ∃ s', m s = (Ok (), s') ∧ extended s s' es
       | Raise e => (m s).1 = Raise e
       end.

(** The errors of two computations in sequence. *)
Definition both (r1 r2 : Result (list SpreadsheetError))
    : Result (list SpreadsheetError) :=
  e1 ← r1; e2 ← r2; Ok (e1 ++ e2).

(** [m] keeps [P] true of the store, whether it returns or raises. *)
Definition preserves {A : Type} (P : Store → Prop) (m : M A) : Prop :=
  ∀ s, P s → P (m s).2.

(** ** Specifications over the memory of objects *)

(** [a] is the list object of a table of the spreadsheet held by [m]. *)
Definition table_list (m : Objects.Memory) (a : nat) : Prop :=
  ∃ key, Objects.spreadsheet m !! key = Some a.

(** The list objects of the tables exist, and none of them is the list
    object bound to [self.validation_errors]. *)
Definition separate (m : Objects.Memory) : Prop :=
  ∀ a, table_list m a →
       a < length (Objects.lists m) ∧ a ≠ Objects.validation_errors m.

(** From [m0] to [m] no object of the spreadsheet was written: the dict of
    the tables, the list object of every table and the dict objects of the
    rows are as in [m0]; list objects were at most added, and the attribute
    is still bound to none of the tables' lists. *)
Definition unchanged (m0 m : Objects.Memory) : Prop :=
  Objects.spreadsheet m = Objects.spreadsheet m0
  ∧ Objects.dicts m = Objects.dicts m0
  ∧ length (Objects.lists m0) ≤ length (Objects.lists m)
  ∧ ∀ a, table_list m0 a →
         Objects.lists m !! a = Objects.lists m0 !! a
         ∧ a ≠ Objects.validation_errors m.

(** [c] keeps the invariant [I], whether it returns or raises, and what it
    returns satisfies [Q]. *)
Definition maintains {A : Type} (I : Objects.Memory → Prop) (Q : A → Prop)
    (c : Objects.O A) : Prop :=
  ∀ m, I m → I (c m).2 ∧ ∀ a, (c m).1 = Ok a → Q a.

(** The memory after [n] calls of [Validate], returning or raising. *)
Definition after_calls `{!Constants} (n : nat) (m : Objects.Memory)
    : Objects.Memory :=
  Nat.iter n (λ m, (Objects.Validate m).2) m.

(** ** The store a memory stands for *)

(** The error an element of a list object is, when it is one. *)
Definition error_of (i : Objects.Item) : option SpreadsheetError :=
  match i with
  | Objects.Error e => Some e
  | Objects.RowRef _ => None
  end.

Definition errors_of (l : list Objects.Item) : list SpreadsheetError :=
  omap error_of l.

(** The store of the value-level model that a memory stands for, its
    spreadsheet taken as the value [ps]: the list objects with their errors,
    at the same addresses. *)
Definition abstraction (ps : Spreadsheet) (m : Objects.Memory) : Store :=
  mkStore (errors_of <$> Objects.lists m) (Objects.validation_errors m)
          (Objects.filepath m) ps (Objects.logged m).

(** The memory holds the spreadsheet [ps]: the dict of the tables has the
    keys of [ps], the list object of each table exists, is not the one bound
    to [self.validation_errors] and holds references to the rows of the
    table; every other list object holds errors only. *)
Definition holds (ps : Spreadsheet) (m : Objects.Memory) : Prop :=
  (∀ key,
     match Objects.spreadsheet m !! key with
     | Some a =>
         a < length (Objects.lists m) ∧ a ≠ Objects.validation_errors m
         ∧ ∃ sheet, mapM (Objects.row_at m) (Objects.lists m !!! a) = Ok sheet
                    ∧ ps !! key = Some sheet
     | None => ps !! key = None
     end)
  ∧ ∀ a, ¬ table_list m a →
         Forall (λ i, is_Some (error_of i)) (Objects.lists m !!! a).

(** The computation [co] over the memory does what [cv] does over the store
    the memory stands for: related results, or the same exception, and
    memories that stand for the stores. *)
Definition simulates {A B : Type} (J : Objects.Memory → Prop)
    (ps : Spreadsheet) (R : A → B → Prop) (co : Objects.O A) (cv : M B)
    : Prop :=
  ∀ m, J m →
    J (co m).2
    ∧ (cv (abstraction ps m)).2 = abstraction ps (co m).2
    ∧ match (co m).1, (cv (abstraction ps m)).1 with
      | Ok a, Ok b => R a b
      | Raise e, Raise e' => e = e'
      | _, _ => False
      end.

(** The invariant of the simulation: the dict of the tables is [d] and the
    memory holds [ps]. *)
Definition standing (d : gmap string nat) (ps : Spreadsheet)
    (m : Objects.Memory) : Prop :=
  Objects.spreadsheet m = d ∧ holds ps m.

(** [a] is the list object of no table of [d]. *)
Definition outside (d : gmap string nat) (a : nat) : Prop :=
  ∀ key, d !! key ≠ Some a.

(** The same address on both sides, of a list object that is no table. *)
Definition address (d : gmap string nat) (a b : nat) : Prop :=
  a = b ∧ outside d a.

(** [a] is the list object of a table whose rows are [sheet]. *)
Definition sheet_at (d : gmap string nat) (ps : Spreadsheet) (a : nat)
    (sheet : list Row) : Prop :=
  ∃ key, d !! key = Some a ∧ ps !! key = Some sheet.

(** A table with its headers, by reference and by value. *)
Definition parameter (d : gmap string nat) (ps : Spreadsheet)
    (x : string * nat * list string * list string)
    (y : string * list Row * list string * list string) : Prop :=
  x.1.1.1 = y.1.1.1 ∧ sheet_at d ps x.1.1.2 y.1.1.2
  ∧ x.1.2 = y.1.2 ∧ x.2 = y.2.

(** ** Concrete spreadsheets over the sample constants *)

Definition site_row (code city : string) : Row :=
  row_of [("Building Code", code); ("City", city)].

Definition entity_row (code guid namespace : string) : Row :=
  row_of [("Entity Code", code); ("Entity Guid", guid);
          ("Namespace", namespace)].

Definition field_row (name reporting_name code reporting_code : string) : Row :=
  row_of [("Standard Field Name", name);
          ("Reporting Entity Field", reporting_name);
          ("Entity Code", code); ("Reporting Entity Code", reporting_code)].

Definition state_row (code name : string) : Row :=
  row_of [("Entity Code", code); ("Standard Field Name", name);
          ("Payload Value", "1")].

Definition connection_row (source target : string) : Row :=
  row_of [("Source Entity Code", source); ("Target Entity Code", target)].

Definition sample_spreadsheet (sites entities : list Row) : Spreadsheet :=
  spreadsheet_of
    [("Site", sites);
     ("Entities", entities);
     ("Entity Fields", [field_row "temp" "t_raw" "E1" "E2"]);
     ("States", [state_row "E1" "temp"]);
     ("Connections", [connection_row "B1" "E1"])].

Definition sample_entities : list Row :=
  [entity_row "E1" "guid-1" "HVAC"; entity_row "E2" "guid-2" "FACILITIES"].

(** A consistent spreadsheet. *)
Definition consistent_spreadsheet : Spreadsheet :=
  sample_spreadsheet [site_row "B1" "Zurich"] sample_entities.

(** The same with an empty building code in the first Sites row. *)
Definition blank_code_spreadsheet : Spreadsheet :=
  sample_spreadsheet [site_row "" "Zurich"; site_row "B1" "Zurich"]
    sample_entities.

(** The same, the second Sites row exposing no column at all. *)
Definition ragged_spreadsheet : Spreadsheet :=
  sample_spreadsheet [site_row "" "Zurich"; ∅] sample_entities.

(** An entity code used twice. *)
Definition duplicate_spreadsheet : Spreadsheet :=
  sample_spreadsheet [site_row "B1" "Zurich"]
    [entity_row "E1" "guid-1" "HVAC"; entity_row "E1" "guid-2" "HVAC";
     entity_row "E2" "guid-3" "HVAC"].

(** The tables of the sample spreadsheets as list objects of row references,
    the Sites table holding the single row at address 0 of the dict
    objects. *)
Definition sample_lists (states : list Objects.Item)
    : list (list Objects.Item) :=
  [[Objects.RowRef 0]; [Objects.RowRef 1; Objects.RowRef 2];
   [Objects.RowRef 3]; states; [Objects.RowRef 5]].

Definition sample_dicts (site connection : Row) : list Row :=
  [site; entity_row "E1" "guid-1" "HVAC"; entity_row "E2" "guid-2" "FACILITIES";
   field_row "temp" "t_raw" "E1" "E2"; state_row "E1" "temp"; connection].

Definition sample_tables : gmap string nat :=
  list_to_map [("Site", 0); ("Entities", 1); ("Entity Fields", 2);
               ("States", 3); ("Connections", 4)].

(** A new validator in a memory that holds the sample spreadsheet with an
    empty building code in its Sites row. *)
Definition blank_code_memory : Objects.Memory :=
  Objects.__init__ "abel.log" (sample_lists [Objects.RowRef 4])
    (sample_dicts (site_row "" "Zurich") (connection_row "E2" "E1"))
    sample_tables.

(** A memory in which [self.validation_errors] is bound to the list object
    of the States table, which is empty; the target of the connection is
    unknown. *)
Definition aliased_memory : Objects.Memory :=
  Objects.mkMemory (sample_lists [])
    (sample_dicts (site_row "B1" "Zurich") (connection_row "B1" "X"))
    sample_tables 3 "abel.log" [].

(** The spreadsheet that [blank_code_memory] holds, as a value. *)
Definition blank_code_value : Spreadsheet :=
  spreadsheet_of
    [("Site", [site_row "" "Zurich"]);
     ("Entities", sample_entities);
     ("Entity Fields", [field_row "temp" "t_raw" "E1" "E2"]);
     ("States", [state_row "E1" "temp"]);
     ("Connections", [connection_row "E2" "E1"])].

Section specifications.
Context `{!Constants}.

(** The dependency rule in the words of the specification. Branch (a): the
    field's own entity code and standard field name. *)
Definition branch_a (state field : Row) : bool :=
  bool_decide (field !! ENTITY_CODE = state !! ENTITY_CODE
               ∧ field !! STANDARD_FIELD_NAME = state !! STANDARD_FIELD_NAME).

(** Branch (b): reporting entity code and reporting field name. *)
Definition branch_b (state field : Row) : bool :=
  bool_decide (field !! REPORTING_ENTITY_CODE = state !! ENTITY_CODE
               ∧ field !! REPORTING_ENTITY_FIELD_NAME
                 = state !! STANDARD_FIELD_NAME).

(** Branches (a) and (b) counted separately and summed over all fields. *)
Definition dependency_count (state : Row) (fields : list Row) : nat :=
  sum_list ((λ field, Nat.b2n (branch_a state field)
                      + Nat.b2n (branch_b state field)) <$> fields).

(** The columns of an EntityFields row that [_ValidateStatesAcrossSheets]
    indexes. *)
Definition field_columns : list string :=
  [ENTITY_CODE; STANDARD_FIELD_NAME; REPORTING_ENTITY_CODE;
   REPORTING_ENTITY_FIELD_NAME].

(** The errors of one States row, by the dependency rule. *)
Definition state_errors (fields : list Row) (row_num : nat) (state : Row)
    : list SpreadsheetError :=
  if decide (dependency_count state fields = 1) then []
  else [state_error row_num (state !! STANDARD_FIELD_NAME)].

(** The errors that [check_cell] appends, as a value. *)
Definition cell_errors (table : string) (row_number : nat) (row : Row)
    (header : string) : Result (list SpreadsheetError) :=
  value ← subscript row header;
  Ok (if not_str value then [missing_value_error table row_number header]
      else []).

(** The errors that [_ValidateContents] leaves in its list, as a value. *)
Definition contents_errors (table : string) (parsed_sheet : list Row)
    (col_headers_values : list string) : Result (list SpreadsheetError) :=
  collect (λ '(row_number, row),
             collect (cell_errors table row_number row) col_headers_values)
          (enumerate parsed_sheet _ROW_START_INDEX).

(** The errors that [check_field] appends, as a value. *)
Definition field_errors (entities : list Row) (item : nat * Row)
    : list SpreadsheetError :=
  let '(row_num, field) := item in
  let entity_codes : gset (option string) :=
    list_to_set ((λ entity : Row, entity !! ENTITY_CODE) <$> entities) in
  (if bool_decide (field !! ENTITY_CODE ∉ entity_codes)
   then [field_error row_num ENTITY_CODE (field !! ENTITY_CODE)] else [])
  ++ (if bool_decide (field !! REPORTING_ENTITY_CODE ∉ entity_codes)
      then [field_error row_num REPORTING_ENTITY_CODE
              (field !! REPORTING_ENTITY_CODE)]
      else []).

(** The errors that [_ValidateFieldsAcrossSheets] leaves in its list. *)
Definition fields_errors (ps : Spreadsheet) : Result (list SpreadsheetError) :=
  collect (λ item, Ok (field_errors (default [] (ps !! ENTITIES)) item))
          (enumerate (default [] (ps !! ENTITY_FIELDS)) _ROW_START_INDEX).

(** The errors that [structural_phase] adds to the instance, as a value. *)
Definition structural_errors (entities_sheet : list Row)
    (validation_parameters
       : list (string * list Row * list string * list string))
    : Result (list SpreadsheetError) :=
  both (_ValidateEntityCodes entities_sheet)
    (both (ValidateFacilitiesGuids entities_sheet)
       (collect (λ '(table, parsed_sheet, _, column_headers),
                   Ok (_ValidateHeaders table parsed_sheet column_headers))
                validation_parameters)).

(** The errors that [content_phase] adds to the instance, as a value. *)
Definition content_errors (ps : Spreadsheet)
    (validation_parameters
       : list (string * list Row * list string * list string))
    : Result (list SpreadsheetError) :=
  both (collect (λ '(table, parsed_sheet, col_headers_values, _),
                   contents_errors table parsed_sheet col_headers_values)
                validation_parameters)
    (both (fields_errors ps)
       (both (_ValidateStatesAcrossSheets ps) (_ValidateConnections ps))).

(** The five top-level keys, in the order [Validate] indexes them. *)
Definition table_keys : list string :=
  [SITES; ENTITIES; ENTITY_FIELDS; STATES; CONNECTIONS].

(** A spreadsheet whose five tables all hold [sheet]. *)
Definition uniform_spreadsheet (sheet : list Row) : Spreadsheet :=
  gset_to_gmap sheet (list_to_set table_keys).

(** An Entities row with the same value in the three columns that the
    structural phase indexes. *)
Definition uniform_row (value : string) : Row :=
  gset_to_gmap value (list_to_set [ENTITY_CODE; BC_GUID; NAMESPACE]).

(** The errors [check_connection] adds for a row with both codes. *)
Definition connection_errors (codes : gset string) (row_number : nat)
    (source target : string) : list SpreadsheetError :=
  (if bool_decide (source ∉ codes)
   then [ConnectionDependencyError row_number source target] else [])
  ++ (if bool_decide (target ∉ codes)
      then [ConnectionDependencyError row_number source target] else []).

(** The errors of one iteration of [ValidateFacilitiesGuids]. *)
Definition guid_errors (item : nat * Row) : Result (list SpreadsheetError) :=
  let '(row_number, row) := item in
  guid ← subscript row BC_GUID;
  if not_str guid
  then namespace ← subscript row NAMESPACE;
       if bool_decide (namespace = FACILITIES_NAMESPACE)
       then code ← subscript row ENTITY_CODE;
            Ok [MissingSpreadsheetValueError ENTITIES row_number BC_GUID
                  (code +:+ " in " +:+ FACILITIES_NAMESPACE +:+
                     " namespace must have a guid obtained through DB API export building config operation.")]
       else Ok []
  else Ok [].

(** The code [code] is an entity code of the Entities sheet or a building
    code of the Sites sheet. *)
Definition known_code (entities sites : list Row) (code : string) : Prop :=
  Some code ∈ (λ row : Row, row !! ENTITY_CODE) <$> entities
  ∨ Some code ∈ (λ row : Row, row !! BUILDING_CODE) <$> sites.

#[global] Instance known_code_dec entities sites code :
  Decision (known_code entities sites code).
Proof. unfold known_code. apply _. Defined.

End specifications.

(** * Properties *)

(** Membership in a list given by its elements. *)
Ltac membership :=
  repeat first [ apply list_elem_of_here | apply list_elem_of_further ].

Section counter.

Lemma counter_get_incr code c k :
  counter_get (counter_incr code c) k =
  if decide (k = code) then S (counter_get c k) else counter_get c k.
Proof.
  induction c as [|[k' n] c IH]; simpl.
  - repeat case_decide; congruence.
  - destruct (decide (k' = code)) as [->|Hne]; simpl.
    + repeat case_decide; congruence.
    + rewrite IH. repeat case_decide; congruence.
Qed.

Lemma counter_keys_incr code c k :
  k ∈ (counter_incr code c).*1 ↔ k = code ∨ k ∈ c.*1.
Proof.
  induction c as [|[k' n] c IH]; simpl.
  - rewrite list_elem_of_singleton, elem_of_nil. tauto.
  - case_decide; simpl; rewrite !elem_of_cons, ?IH; subst; tauto.
Qed.

Lemma counter_incr_NoDup code c :
  NoDup c.*1 → NoDup (counter_incr code c).*1.
Proof.
  induction c as [|[k' n] c IH]; simpl; intros Hnd.
  - apply NoDup_singleton.
  - apply NoDup_cons in Hnd as [Hk Hnd].
    case_decide; simpl; apply NoDup_cons; split; auto.
    rewrite counter_keys_incr. intros [->|?]; [congruence|done].
Qed.

Lemma Counter_fold l c k :
  let c' := foldl (λ c code, counter_incr code c) c l in
  counter_get c' k = counter_get c k + count_code k l
  ∧ (NoDup c.*1 → NoDup c'.*1)
  ∧ (k ∈ c'.*1 ↔ k ∈ c.*1 ∨ k ∈ l).
Proof.
  revert c. induction l as [|x l IH]; intros c; simpl.
  - unfold count_code. simpl. split; [lia|]. split; [done|].
    rewrite elem_of_nil. tauto.
  - destruct (IH (counter_incr x c)) as (Hget & Hnd & Hkeys).
    split; [|split].
    + rewrite Hget, counter_get_incr. unfold count_code.
      rewrite filter_cons. repeat case_decide; simpl; try congruence; lia.
    + intros H. by apply Hnd, counter_incr_NoDup.
    + rewrite Hkeys, counter_keys_incr, elem_of_cons. tauto.
Qed.

Lemma counter_get_elem c k n :
  NoDup c.*1 → (k, n) ∈ c ↔ k ∈ c.*1 ∧ counter_get c k = n.
Proof.
  induction c as [|[k' n'] c IH]; simpl; intros Hnd.
  - rewrite !elem_of_nil. tauto.
  - apply NoDup_cons in Hnd as [Hk Hnd]. specialize (IH Hnd).
    rewrite elem_of_cons, IH, elem_of_cons.
    case_decide; subst; split.
    + intros [[= ->]|[? _]]; [auto|done].
    + intros [_ ->]. by left.
    + intros [[= -> ->]|[? ?]]; [done|auto].
    + intros [[->|?] ?]; [done|auto].
Qed.

Lemma count_code_pos k l : k ∈ l ↔ 0 < count_code k l.
Proof.
  unfold count_code. induction l as [|x l IH]; simpl.
  - split; [by intros ?%elem_of_nil | lia].
  - rewrite filter_cons, elem_of_cons. case_decide; simpl; subst.
    + split; [lia | auto].
    + rewrite <- IH. split; [intros [->|?]; done | auto].
Qed.

Lemma duplicates_of_spec codes :
  NoDup (duplicates_of codes)
  ∧ ∀ code, code ∈ duplicates_of codes ↔ 1 < count_code code codes.
Proof.
  unfold duplicates_of, Counter.
  pose proof (λ k, Counter_fold codes [] k) as HC. simpl in HC.
  set (c := foldl _ _ _) in *.
  assert (NoDup c.*1) as Hnd by (apply (HC ""), NoDup_nil_2).
  split.
  - eapply sublist_NoDup; [exact Hnd|].
    apply fmap_sublist, sublist_filter.
  - intros code. destruct (HC code) as (Hget & _ & Hkeys). simpl in Hget.
    rewrite list_elem_of_fmap. split.
    + intros ([k n] & -> & [Hn Hin]%list_elem_of_filter). simpl in *.
      apply counter_get_elem in Hin as [_ <-]; [|done]. by rewrite <- Hget.
    + intros Hlt. exists (code, count_code code codes). split; [done|].
      apply list_elem_of_filter. split; [done|].
      apply counter_get_elem; [done|]. split; [|done].
      apply Hkeys. right. apply count_code_pos. lia.
Qed.
End counter.

Section pure_facts.
Context `{!Constants}.

Lemma foldM_collect {A : Type} (f : A → Result (list SpreadsheetError))
    (body : list SpreadsheetError → A → Result (list SpreadsheetError)) l acc :
  (∀ acc x, body acc x = (e ← f x; Ok (acc ++ e))) →
  foldM body acc l = (es ← collect f l; Ok (acc ++ es)).
Proof.
  intros Hbody. revert acc. induction l as [|x l IH]; intros acc; simpl.
  - by rewrite app_nil_r.
  - rewrite Hbody. destruct (f x) as [e|ex]; simpl; [|done].
    rewrite IH. destruct (collect f l); simpl; [|done].
    by rewrite app_assoc.
Qed.

Lemma collect_total {A : Type} (g : A → list SpreadsheetError) l :
  collect (λ x, Ok (g x)) l = Ok (mjoin (g <$> l)).
Proof. induction l as [|x l IH]; simpl; [done|]. by rewrite IH. Qed.

Lemma collect_ext {A : Type} (f g : A → Result (list SpreadsheetError)) l :
  Forall (λ x, f x = g x) l → collect f l = collect g l.
Proof. induction 1 as [|x l Hx _ IH]; simpl; [done|]. by rewrite Hx, IH. Qed.

Lemma subscript_Some {V : Type} (d : gmap string V) key v :
  d !! key = Some v → subscript d key = Ok v.
Proof. unfold subscript. by intros ->. Qed.

Lemma subscript_None {V : Type} (d : gmap string V) key :
  d !! key = None → subscript d key = Raise (KeyError key).
Proof. unfold subscript. by intros ->. Qed.

Lemma mapM_Result_cons {A B : Type} (f : A → Result B) x l :
  mapM f (x :: l) = (y ← f x; k ← mapM f l; Ok (y :: k)).
Proof. done. Qed.

Lemma mapM_subscript (sheet : list Row) key codes :
  (λ row : Row, row !! key) <$> sheet = Some <$> codes →
  mapM (λ row : Row, subscript row key) sheet = Ok codes.
Proof.
  revert codes.
  induction sheet as [|row sheet IH]; intros [|c codes] Heq; try done.
  injection Heq as Hrow Hrest.
  by rewrite mapM_Result_cons, (subscript_Some _ _ _ Hrow), (IH codes Hrest).
Qed.

Lemma ValidateEntityCodes_codes sheet codes :
  (λ row : Row, row !! ENTITY_CODE) <$> sheet = Some <$> codes →
  _ValidateEntityCodes sheet = Ok (duplicate_code_error <$> duplicates_of codes).
Proof.
  intros Hcodes. unfold _ValidateEntityCodes.
  rewrite (mapM_subscript _ _ _ Hcodes). simpl.
  rewrite (foldM_collect (λ d, Ok [duplicate_code_error d])) by done.
  rewrite collect_total. simpl. f_equal.
  induction (duplicates_of codes) as [|d l IH]; simpl; [done|]. by f_equal.
Qed.

(** C7. [_ValidateEntityCodes]: on an Entities sheet whose rows all carry an
    entity code, the validator returns one [DuplicateCodeError] per entity
    code that occurs more than once, each carrying its code and the message
    about that code: the reported codes are pairwise distinct and are exactly
    the codes with more than one occurrence, however often they repeat. For
    the codes [A, B, A, C, B, B] the errors are the two [DuplicateCodeError]s
    of A and of B. *)
Theorem ValidateEntityCodes_one_error_per_duplicate sheet codes :
  (λ row : Row, row !! ENTITY_CODE) <$> sheet = Some <$> codes →
  ∃ duplicates,
    _ValidateEntityCodes sheet
    = Ok ((λ code,
             DuplicateCodeError code
               ("Entity Code: " +:+ code +:+ " is defined more than once in "
                  +:+ ENTITIES +:+ " table.")) <$> duplicates)
    ∧ NoDup duplicates
    ∧ (∀ code, code ∈ duplicates ↔ 1 < count_code code codes)
    ∧ (codes = ["A"; "B"; "A"; "C"; "B"; "B"] → duplicates = ["A"; "B"]).
Proof.
  intros Hcodes. exists (duplicates_of codes).
  split; [exact (ValidateEntityCodes_codes sheet codes Hcodes)|].
  destruct (duplicates_of_spec codes) as [Hnd Hin].
  repeat split; try done; try apply Hin.
  by intros ->.
Qed.

(** Headers *)

Lemma header_scan_stable (column_headers : list string) (sheet : list Row)
    (parsed_headers header_difference : gset string) :
  list_to_set column_headers ∖ parsed_headers ⊆ header_difference →
  (foldl (λ '(parsed_headers, header_difference) (row : Row),
            let parsed_headers : gset string := parsed_headers ∪ dom row in
            (parsed_headers,
             header_difference ∪ (list_to_set column_headers ∖ parsed_headers)))
         (parsed_headers, header_difference) sheet).2 = header_difference.
Proof.
  revert parsed_headers header_difference.
  induction sheet as [|row sheet IH]; intros ph hd Hsub; simpl; [done|].
  assert (list_to_set column_headers ∖ (ph ∪ dom row) ⊆ hd) as Hsub'.
  { intros h [Hh Hnot]%elem_of_difference. apply Hsub, elem_of_difference.
    split; [done|]. intros Hph. apply Hnot, elem_of_union. by left. }
  rewrite IH.
  - apply subseteq_union_1_L in Hsub'. by rewrite (comm_L (∪)).
  - intros h Hh. apply elem_of_union. right. done.
Qed.

Lemma header_scan_first column_headers (row : Row) sheet :
  (header_scan column_headers (row :: sheet)).2
  = list_to_set column_headers ∖ dom row.
Proof.
  unfold header_scan. simpl. rewrite header_scan_stable.
  - by rewrite !(left_id_L ∅ (∪)).
  - intros h Hh. apply elem_of_union. by right.
Qed.

Lemma ValidateHeaders_nil table column_headers :
  _ValidateHeaders table [] column_headers = [].
Proof. done. Qed.

Lemma ValidateHeaders_cons table (row : Row) sheet column_headers :
  _ValidateHeaders table (row :: sheet) column_headers
  = header_error table <$>
      elements (list_to_set column_headers ∖ dom row : gset string).
Proof.
  unfold _ValidateHeaders. rewrite header_scan_first.
  case_decide as Hempty; [|done]. rewrite Hempty. by rewrite elements_empty.
Qed.

Lemma filter_eq_absent (x : string) l :
  x ∉ l → filter (λ y, y = x) l = [].
Proof.
  induction l as [|y l IH]; [done|].
  rewrite not_elem_of_cons, filter_cons. intros [Hne Hl].
  case_decide; [congruence | auto].
Qed.

Lemma count_NoDup (x : string) l :
  NoDup l → x ∈ l → length (filter (λ y, y = x) l) = 1.
Proof.
  induction 1 as [|y l Hy Hnd IH]; [by intros ?%elem_of_nil|].
  rewrite filter_cons, elem_of_cons. case_decide; subst; simpl.
  - intros _. by rewrite filter_eq_absent.
  - intros [?|?]; [done|auto].
Qed.

Lemma header_errors_count table header l :
  length (filter (λ e, header_of e = Some header) (header_error table <$> l))
  = length (filter (λ h, h = header) l).
Proof.
  induction l as [|h l IH]; simpl; [done|].
  rewrite !filter_cons. simpl.
  repeat case_decide; simpl; first [ congruence | f_equal; exact IH | exact IH ].
Qed.

(** C5, as the code has it. [_ValidateHeaders]: for a header of
    [column_headers] that is a key of no row of the table, exactly one
    [SpreadsheetHeaderError] is produced for that header when the table has
    at least one row, and none when the table has zero rows. *)
Theorem ValidateHeaders_absent_header table (sheet : list Row) column_headers
    header :
  header ∈ column_headers →
  Forall (λ row : Row, row !! header = None) sheet →
  length (filter (λ e, header_of e = Some header)
            (_ValidateHeaders table sheet column_headers))
  = if decide (sheet = []) then 0 else 1.
Proof.
  intros Hin Hrows. destruct sheet as [|row sheet]; [done|].
  rewrite decide_False by done.
  rewrite ValidateHeaders_cons, header_errors_count.
  apply count_NoDup; [apply NoDup_elements|].
  apply elem_of_elements, elem_of_difference. split.
  - by apply elem_of_list_to_set.
  - apply Forall_cons in Hrows as [Hrow _]. by apply not_elem_of_dom.
Qed.

End pure_facts.

(** C4, at the failing input: the header [Building Code] is a key of the
    second row of a two-row Sites sheet, and after the loop the running set
    of parsed headers holds it, yet [_ValidateHeaders] returns a
    [SpreadsheetHeaderError] for it: the difference with the recognised
    headers is accumulated inside the loop, after the first row already. *)
Theorem ValidateHeaders_reports_key_of_later_row :
  let sheet : list Row :=
    [row_of [("City", "Zurich")];
     row_of [("Building Code", "B1"); ("City", "Zurich")]] in
  (∃ row, row ∈ sheet ∧ row !! "Building Code" = Some "B1")
  ∧ "Building Code" ∈ (header_scan ["Building Code"; "City"] sheet).1
  ∧ _ValidateHeaders "Site" sheet ["Building Code"; "City"]
    = [SpreadsheetHeaderError "Site" "Building Code"
         "Site missing required column header: Building Code"].
Proof.
  split; [|split].
  - eexists. split; [apply list_elem_of_further, list_elem_of_here|].
    reflexivity.
  - refine (bool_decide_unpack _ _). by vm_compute.
  - by vm_compute.
Qed.

(** C5 fails as stated for a table with zero rows: the loop body never runs
    and no [SpreadsheetHeaderError] is produced. *)
Lemma ValidateHeaders_empty_sheet_counterexample :
  "Building Code" ∈ ["Building Code"]
  ∧ Forall (λ row : Row, row !! "Building Code" = None) []
  ∧ length (filter (λ e, header_of e = Some "Building Code")
              (_ValidateHeaders "Site" [] ["Building Code"])) = 0.
Proof. split; [apply list_elem_of_here|]. split; [constructor|done]. Qed.

Section states_facts.
Context `{!Constants}.

Lemma enumerate_elem {A : Type} (l : list A) start n x :
  (n, x) ∈ enumerate l start ↔ ∃ i, n = start + i ∧ l !! i = Some x.
Proof.
  revert start. induction l as [|y l IH]; intros start; simpl.
  - split; [by intros ?%elem_of_nil | by intros (i & _ & ?)].
  - rewrite elem_of_cons, IH. split.
    + intros [[= -> ->]|(i & -> & Hi)].
      * exists 0. split; [lia|done].
      * exists (S i). split; [lia|done].
    + intros ([|i] & -> & Hi); simpl in Hi.
      * left. injection Hi as ->. f_equal. lia.
      * right. exists i. split; [lia|done].
Qed.

Lemma collect_elem {A : Type} (f : A → Result (list SpreadsheetError)) l es e :
  collect f l = Ok es →
  e ∈ es ↔ ∃ x es', x ∈ l ∧ f x = Ok es' ∧ e ∈ es'.
Proof.
  revert es. induction l as [|x l IH]; intros es; simpl.
  - intros [= <-]. split; [by intros ?%elem_of_nil|].
    by intros (? & ? & ?%elem_of_nil & _).
  - destruct (f x) as [e1|] eqn:Hx; simpl; [|done].
    destruct (collect f l) as [e2|]; simpl; [|done].
    intros [= <-]. rewrite elem_of_app, (IH e2 eq_refl). split.
    + intros [He|(y & es' & Hy & Hfy & He)].
      * exists x, e1. by rewrite elem_of_cons; auto.
      * exists y, es'. by rewrite elem_of_cons; auto.
    + intros (y & es' & [->|Hy]%elem_of_cons & Hfy & He).
      * left. congruence.
      * right. eauto.
Qed.

Lemma filter_all {A : Type} (P : A → Prop) `{!∀ x, Decision (P x)} l :
  Forall P l → filter P l = l.
Proof.
  induction 1 as [|x l Hx _ IH]; [done|].
  rewrite filter_cons. case_decide; [by f_equal | done].
Qed.

Lemma filter_none {A : Type} (P : A → Prop) `{!∀ x, Decision (P x)} l :
  Forall (λ x, ¬ P x) l → filter P l = [].
Proof.
  induction 1 as [|x l Hx _ IH]; [done|].
  rewrite filter_cons. case_decide; done.
Qed.

Lemma filter_row_enumerate {A : Type} (g : nat → A → list SpreadsheetError)
    (l : list A) start i x :
  (∀ n y e, e ∈ g n y → error_row e = Some n) →
  l !! i = Some x →
  filter (λ e, error_row e = Some (start + i))
         (mjoin ((λ '(n, y), g n y) <$> enumerate l start))
  = g (start + i) x.
Proof.
  intros Hrow.
  assert (∀ (l : list A) start m, m < start →
            filter (λ e, error_row e = Some m)
              (mjoin ((λ '(n, y), g n y) <$> enumerate l start)) = [])
    as Hlater.
  { clear l start i x. intros l start m Hlt. apply filter_none, Forall_forall.
    intros e [es [He [[n y] [-> Hny]]%list_elem_of_fmap]]%list_elem_of_join.
    apply enumerate_elem in Hny as (j & -> & _).
    rewrite (Hrow _ _ _ He). intros [=]. lia. }
  revert start i. induction l as [|y l IH]; intros start i Hi; [done|].
  simpl. rewrite filter_app. destruct i as [|i]; simpl in Hi.
  - injection Hi as ->. rewrite Nat.add_0_r, Hlater, app_nil_r by lia.
    apply filter_all, Forall_forall. intros e He. by apply Hrow in He.
  - rewrite filter_none.
    + replace (start + S i) with (S start + i) by lia. by rewrite IH.
    + apply Forall_forall. intros e He. rewrite (Hrow _ _ _ He).
      intros [=]. lia.
Qed.

Lemma count_field_exposed (state field : Row) n :
  exposes field_columns field →
  count_field (state !! ENTITY_CODE) (state !! STANDARD_FIELD_NAME) n field
  = Ok (n + (Nat.b2n (branch_a state field) + Nat.b2n (branch_b state field))).
Proof.
  unfold exposes, field_columns. rewrite !Forall_cons.
  intros ([c Hc] & [f Hf] & [rc Hrc] & [rf Hrf] & _).
  unfold count_field, branch_a, branch_b.
  rewrite (subscript_Some _ _ _ Hc), (subscript_Some _ _ _ Hrc). simpl.
  rewrite Hc, Hf, Hrc, Hrf.
  generalize (state !! ENTITY_CODE) (state !! STANDARD_FIELD_NAME).
  intros sc sf.
  repeat (case_bool_decide; simpl;
          rewrite ?(subscript_Some _ _ _ Hf), ?(subscript_Some _ _ _ Hrf);
          simpl);
    try (f_equal; lia);
    exfalso;
    repeat match goal with H : _ ∧ _ |- _ => destruct H end;
    match goal with
    | H : ¬ _ |- _ => apply H; first [ congruence | split; congruence ]
    end.
Qed.

Lemma num_dependencies_exposed (state : Row) fields n :
  Forall (exposes field_columns) fields →
  foldM (count_field (state !! ENTITY_CODE) (state !! STANDARD_FIELD_NAME))
        n fields
  = Ok (n + dependency_count state fields).
Proof.
  intros Hfields. revert n.
  induction Hfields as [|field fields Hfield _ IH]; intros n; simpl.
  - unfold dependency_count. simpl. f_equal. lia.
  - rewrite (count_field_exposed state field n Hfield). simpl. rewrite IH.
    unfold dependency_count. simpl. f_equal. symmetry. apply Nat.add_assoc.
Qed.

Lemma ValidateStatesAcrossSheets_exposed ps :
  Forall (exposes field_columns) (default [] (ps !! ENTITY_FIELDS)) →
  _ValidateStatesAcrossSheets ps
  = Ok (mjoin ((λ '(row_num, state),
                  state_errors (default [] (ps !! ENTITY_FIELDS)) row_num state)
               <$> enumerate (default [] (ps !! STATES)) _ROW_START_INDEX)).
Proof.
  intros Hfields. unfold _ValidateStatesAcrossSheets.
  set (fields := default [] (ps !! ENTITY_FIELDS)) in *.
  rewrite (foldM_collect
             (λ '(row_num, state), Ok (state_errors fields row_num state))).
  - rewrite (collect_ext _
               (λ x, Ok ((λ '(row_num, state),
                            state_errors fields row_num state) x)))
      by (apply Forall_forall; by intros [??] _).
    by rewrite collect_total.
  - intros acc [row_num state].
    rewrite (num_dependencies_exposed state fields 0 Hfields). simpl.
    unfold state_errors. case_bool_decide; case_decide; try done.
    by rewrite app_nil_r.
Qed.

(** C6. [_ValidateStatesAcrossSheets]: when every EntityFields row exposes
    the four columns the loop indexes, the validator returns, and for the
    States row at position [i] the errors carrying its row index [i + 2] are:
    none when the number of satisfied branches, summed over all EntityFields
    rows with branches (a) and (b) counted separately, is exactly 1; exactly
    one [CrossSheetDependencyError] (source States, target EntityFields,
    column standard-field-name, value the state's field name) otherwise. *)
Theorem ValidateStatesAcrossSheets_cardinality ps :
  let states := default [] (ps !! STATES) in
  let fields := default [] (ps !! ENTITY_FIELDS) in
  Forall (exposes field_columns) fields →
  ∃ errors,
    _ValidateStatesAcrossSheets ps = Ok errors
    ∧ ∀ i state, states !! i = Some state →
        filter (λ e, error_row e = Some (i + 2)) errors
        = if decide (dependency_count state fields = 1) then []
          else [CrossSheetDependencyError STATES ENTITY_FIELDS (i + 2)
                  STANDARD_FIELD_NAME (state !! STANDARD_FIELD_NAME)].
Proof.
  intros states fields Hfields. eexists. split.
  { by apply ValidateStatesAcrossSheets_exposed. }
  intros i state Hi. rewrite (Nat.add_comm i 2).
  etrans; [apply (filter_row_enumerate (state_errors fields) states 2 i state)|].
  - intros n y e. unfold state_errors. case_decide; [by intros ?%elem_of_nil|].
    by intros ->%list_elem_of_singleton.
  - done.
  - done.
Qed.
End states_facts.

Section store_facts.
Context `{!Constants}.

Lemma run_bind {A B : Type} (m : M A) (f : A → M B) s :
  (m ≫= f) s = match m s with
               | (Ok a, s') => f a s'
               | (Raise e, s') => (Raise e, s')
               end.
Proof. done. Qed.

Lemma bind_returns {A B : Type} (m : M A) (f : A → M B) s a s' :
  m s = (Ok a, s') → (m ≫= f) s = f a s'.
Proof. intros Hm. by rewrite run_bind, Hm. Qed.

Lemma bind_raises {A B : Type} (m : M A) (f : A → M B) s e :
  (m s).1 = Raise e → ((m ≫= f) s).1 = Raise e.
Proof. rewrite run_bind. by destruct (m s) as [[?|?] ?]; intros; simplify_eq/=. Qed.

Lemma appended_nil s : appended [] s = s.
Proof.
  destruct s as [objs r p ps lg]. unfold appended. simpl. f_equal.
  apply list_alter_id. intros l. apply app_nil_r.
Qed.

Lemma alter_alter {A : Type} (f g : A → A) (l : list A) i :
  alter f i (alter g i l) = alter (λ x, f (g x)) i l.
Proof.
  revert i. induction l as [|x l IH]; intros [|i]; try done.
  simpl. f_equal. apply IH.
Qed.

Lemma appended_app es1 es2 s :
  appended es2 (appended es1 s) = appended (es1 ++ es2) s.
Proof.
  destruct s as [objs r p ps lg]. unfold appended. simpl. f_equal.
  rewrite alter_alter. apply list_alter_ext; [|done].
  intros l _. by rewrite app_assoc.
Qed.

Lemma appended_allocated es objs path ps lg :
  appended es (mkStore (objs ++ [[]]) (length objs) path ps lg)
  = mkStore (objs ++ [es]) (length objs) path ps lg.
Proof.
  unfold appended. simpl. f_equal.
  rewrite <- (Nat.add_0_r (length objs)) at 1. by rewrite alter_app_r.
Qed.

Lemma appends_foldM {A : Type} (body : unit → A → M unit)
    (f : A → Result (list SpreadsheetError)) l :
  (∀ x, appends (body () x) (f x)) →
  appends (foldM body () l) (collect f l).
Proof.
  intros Hbody. induction l as [|x l IH]; intros s; simpl.
  - by rewrite appended_nil.
  - specialize (Hbody x s). rewrite run_bind.
    destruct (f x) as [e1|ex]; simpl.
    + rewrite Hbody. specialize (IH (appended e1 s)).
      destruct (collect f l) as [e2|ex]; simpl.
      * by rewrite IH, appended_app.
      * done.
    + destruct (body () x s) as [[[]|] ?]; simpl in *; congruence.
Qed.

Lemma run_append e s :
  (l ← load_validation_errors; list_append l e) s = (Ok (), appended [e] s).
Proof. done. Qed.

Lemma run_skip s : (mret () : M unit) s = (Ok (), appended [] s).
Proof. by rewrite appended_nil. Qed.

Lemma appends_check_cell table row_number row header :
  appends (check_cell table row_number row () header)
          (cell_errors table row_number row header).
Proof.
  intros s. unfold check_cell, cell_errors, lift. rewrite run_bind.
  destruct (subscript row header) as [value|ex]; simpl; [|done].
  destruct (not_str value); [apply run_append | apply run_skip].
Qed.

Lemma appends_check_field entities item :
  appends (check_field entities () item) (Ok (field_errors entities item)).
Proof.
  intros s. destruct item as [row_num field].
  unfold check_field, field_errors. rewrite run_bind.
  destruct (bool_decide (field !! ENTITY_CODE ∉ _));
    [rewrite run_append | rewrite run_skip];
    (destruct (bool_decide (field !! REPORTING_ENTITY_CODE ∉ _));
     [rewrite run_append | rewrite run_skip]);
    by rewrite appended_app.
Qed.

Lemma extended_refl s : bound s → extended s s [].
Proof. intros ?. unfold extended. by rewrite app_nil_r. Qed.

Lemma extended_trans s1 s2 s3 es1 es2 :
  extended s1 s2 es1 → extended s2 s3 es2 → extended s1 s3 (es1 ++ es2).
Proof.
  intros (_ & He1 & Hp1 & Hl1) (Hb & He2 & Hp2 & Hl2).
  unfold extended. rewrite He2, He1, Hp2, Hp1, Hl2, Hl1.
  by rewrite app_assoc.
Qed.

(** Running the right-hand side of an augmented assignment that hands back
    a newly allocated list. *)
Lemma iadd_extends rhs s s1 es :
  bound s →
  rhs s = (Ok (length (objects s)), s1) →
  objects s1 = objects s ++ [es] →
  parsed_spreadsheet s1 = parsed_spreadsheet s →
  logged s1 = logged s →
  ∃ s', iadd_validation_errors rhs s = (Ok (), s') ∧ extended s s' es.
Proof.
  intros Hb Hrhs Hobjs Hps Hlog. unfold iadd_validation_errors.
  rewrite run_bind. simpl. rewrite run_bind, Hrhs. eexists. split; [done|].
  unfold extended, bound, self_errors in *. simpl.
  rewrite length_alter, Hobjs, length_app. simpl. split; [lia|].
  split; [|done].
  rewrite list_lookup_total_alter_eq by (rewrite length_app; simpl; lia).
  rewrite lookup_total_app_l by done. f_equal.
  rewrite lookup_total_app_r by done.
  by rewrite Nat.sub_diag.
Qed.

Lemma iadd_raises rhs s e :
  (rhs s).1 = Raise e → (iadd_validation_errors rhs s).1 = Raise e.
Proof.
  intros Hrhs. unfold iadd_validation_errors. rewrite run_bind. simpl.
  rewrite run_bind. by destruct (rhs s) as [[?|?] ?]; simplify_eq/=.
Qed.

Lemma accumulates_returning ps r :
  accumulates ps (iadd_validation_errors (returning r)) r.
Proof.
  intros s Hb _. destruct r as [es|e].
  - by eapply iadd_extends.
  - by apply iadd_raises.
Qed.

Lemma accumulates_with_spreadsheet ps
    (f : Spreadsheet → Result (list SpreadsheetError)) :
  accumulates ps
    (iadd_validation_errors (ps' ← the_spreadsheet; returning (f ps')))
    (f ps).
Proof.
  intros s Hb <-. destruct (f _) as [es|e] eqn:Hf.
  - apply (iadd_extends _ s
             (mkStore (objects s ++ [es]) (validation_errors s) (filepath s)
                      (parsed_spreadsheet s) (logged s)) es); try done.
    rewrite run_bind. simpl. unfold returning. by rewrite Hf.
  - apply iadd_raises. rewrite run_bind. simpl. unfold returning.
    by rewrite Hf.
Qed.

Lemma ValidateContents_run table sheet hs s :
  match contents_errors table sheet hs with
  | Ok es =>
      _ValidateContents table sheet hs s
      = (Ok (length (objects s)),
         mkStore (objects s ++ [es]) (length (objects s)) (filepath s)
                 (parsed_spreadsheet s) (logged s))
  | Raise e => (_ValidateContents table sheet hs s).1 = Raise e
  end.
Proof.
  unfold _ValidateContents, contents_errors.
  rewrite run_bind. simpl. rewrite run_bind. simpl.
  match goal with
  | |- context [(foldM ?body () ?l ≫= _) ?s0] =>
      pose proof (appends_foldM body
        (λ '(row_number, row),
           collect (cell_errors table row_number row) hs) l) as Hloop;
      specialize (Hloop
        (λ '(row_number, row),
           appends_foldM _ _ hs (appends_check_cell table row_number row))
        s0)
  end.
  destruct (collect _ (enumerate sheet _)) as [es|e].
  - by rewrite (bind_returns _ _ _ _ _ Hloop), appended_allocated.
  - by apply bind_raises.
Qed.

Lemma accumulates_contents ps table sheet hs :
  accumulates ps (iadd_validation_errors (_ValidateContents table sheet hs))
              (contents_errors table sheet hs).
Proof.
  intros s Hb _. pose proof (ValidateContents_run table sheet hs s) as Hrun.
  destruct (contents_errors table sheet hs) as [es|e].
  - by eapply iadd_extends.
  - by apply iadd_raises.
Qed.

Lemma ValidateFieldsAcrossSheets_run s :
  match fields_errors (parsed_spreadsheet s) with
  | Ok es =>
      _ValidateFieldsAcrossSheets s
      = (Ok (length (objects s)),
         mkStore (objects s ++ [es]) (length (objects s)) (filepath s)
                 (parsed_spreadsheet s) (logged s))
  | Raise e => (_ValidateFieldsAcrossSheets s).1 = Raise e
  end.
Proof.
  unfold _ValidateFieldsAcrossSheets, fields_errors.
  rewrite run_bind. simpl. rewrite run_bind. simpl. rewrite run_bind. simpl.
  match goal with
  | |- context [(foldM ?body () ?l ≫= _) ?s0] =>
      pose proof (appends_foldM body _ l
                    (appends_check_field
                       (default [] (parsed_spreadsheet s !! ENTITIES))) s0)
        as Hloop
  end.
  destruct (collect _ _) as [es|e].
  - by rewrite (bind_returns _ _ _ _ _ Hloop), appended_allocated.
  - by apply bind_raises.
Qed.

Lemma accumulates_fields ps :
  accumulates ps (iadd_validation_errors _ValidateFieldsAcrossSheets)
              (fields_errors ps).
Proof.
  intros s Hb <-. pose proof (ValidateFieldsAcrossSheets_run s) as Hrun.
  destruct (fields_errors _) as [es|e].
  - by eapply iadd_extends.
  - by apply iadd_raises.
Qed.

Lemma accumulates_seq ps m1 m2 r1 r2 :
  accumulates ps m1 r1 → accumulates ps m2 r2 →
  accumulates ps (m1 ;; m2) (both r1 r2).
Proof.
  intros H1 H2 s Hb Hps. specialize (H1 s Hb Hps). rewrite run_bind.
  destruct r1 as [e1|ex]; simpl.
  - destruct H1 as (s1 & -> & Hext1).
    specialize (H2 s1 (proj1 Hext1)).
    rewrite (proj1 (proj2 (proj2 Hext1))) in H2. specialize (H2 Hps).
    destruct r2 as [e2|ex]; simpl; [|done].
    destruct H2 as (s2 & -> & Hext2). eauto using extended_trans.
  - by destruct (m1 s) as [[?|?] ?]; simplify_eq/=.
Qed.

Lemma accumulates_foldM {A : Type} ps (body : unit → A → M unit)
    (f : A → Result (list SpreadsheetError)) l :
  (∀ x, accumulates ps (body () x) (f x)) →
  accumulates ps (foldM body () l) (collect f l).
Proof.
  intros Hbody. induction l as [|x l IH]; simpl.
  - intros s Hb _. eauto using extended_refl.
  - intros s Hb Hps.
    pose proof (accumulates_seq ps _ _ _ _ (Hbody x) IH s Hb Hps) as Hseq.
    unfold both in Hseq. rewrite run_bind in *.
    destruct (body () x s) as [[[]|?] ?]; done.
Qed.

Lemma spreadsheet_item_run key sheet s :
  parsed_spreadsheet s !! key = Some sheet →
  spreadsheet_item key s = (Ok sheet, s).
Proof.
  intros Hkey. unfold spreadsheet_item. rewrite run_bind. simpl.
  unfold lift. by rewrite (subscript_Some _ _ _ Hkey).
Qed.

Lemma spreadsheet_item_raises key s :
  parsed_spreadsheet s !! key = None →
  spreadsheet_item key s = (Raise (KeyError key), s).
Proof.
  intros Hkey. unfold spreadsheet_item. rewrite run_bind. simpl.
  unfold lift. by rewrite (subscript_None _ _ Hkey).
Qed.

Lemma accumulates_structural ps entities params :
  ps !! ENTITIES = Some entities →
  accumulates ps (structural_phase params) (structural_errors entities params).
Proof.
  intros Hentities s Hb Hps. unfold structural_phase.
  rewrite (bind_returns _ _ s entities s)
    by (apply spreadsheet_item_run; by rewrite Hps).
  revert s Hb Hps. apply accumulates_seq; [apply accumulates_returning|].
  apply accumulates_seq; [apply accumulates_returning|].
  apply (accumulates_foldM ps _
           (λ '(table, parsed_sheet, _, column_headers),
              Ok (_ValidateHeaders table parsed_sheet column_headers))).
  intros [[[table parsed_sheet] required] column_headers].
  apply accumulates_returning.
Qed.

Lemma accumulates_content ps params :
  accumulates ps (content_phase params) (content_errors ps params).
Proof.
  unfold content_phase, content_errors.
  apply accumulates_seq.
  { apply (accumulates_foldM ps _
             (λ '(table, parsed_sheet, col_headers_values, _),
                contents_errors table parsed_sheet col_headers_values)).
    intros [[[table parsed_sheet] required] column_headers].
    apply accumulates_contents. }
  apply accumulates_seq; [apply accumulates_fields|].
  apply accumulates_seq; apply accumulates_with_spreadsheet.
Qed.

Lemma logger_run es s :
  foldM (λ _ error, logger_error error) () es s
  = (Ok (), mkStore (objects s) (validation_errors s) (filepath s)
              (parsed_spreadsheet s) (logged s ++ es)).
Proof.
  revert s. induction es as [|e es IH]; intros s; simpl.
  - rewrite app_nil_r. by destruct s.
  - rewrite run_bind. simpl. rewrite IH. simpl. by rewrite <- app_assoc.
Qed.

(** Lines 118-121 of [Validate]. *)
Lemma Validate_verdict s :
  bound s →
  ∃ s',
    (l ← load_validation_errors;
     errors ← contents l;
     if bool_decide (errors ≠ [])
     then _LogErrors l;; mret false
     else mret true) s
    = (Ok (bool_decide (self_errors s = [])), s')
    ∧ bound s'
    ∧ self_errors s' = self_errors s
    ∧ parsed_spreadsheet s' = parsed_spreadsheet s
    ∧ logged s' = logged s ++ self_errors s.
Proof.
  intros Hb. rewrite run_bind. simpl. rewrite run_bind. simpl.
  fold (self_errors s). destruct (decide (self_errors s = [])) as [Hnil|Hne].
  - rewrite bool_decide_eq_false_2, bool_decide_eq_true_2
      by first [ exact Hnil | intros Hne; exact (Hne Hnil) ].
    exists s. by rewrite Hnil, app_nil_r.
  - rewrite bool_decide_eq_true_2, bool_decide_eq_false_2 by done.
    rewrite run_bind. unfold _LogErrors. rewrite run_bind. simpl.
    rewrite logger_run. simpl. by eexists.
Qed.

Lemma Validate_run ps s sites entities fields states connections :
  bound s →
  ps !! SITES = Some sites →
  ps !! ENTITIES = Some entities →
  ps !! ENTITY_FIELDS = Some fields →
  ps !! STATES = Some states →
  ps !! CONNECTIONS = Some connections →
  let validation_parameters :=
    validation_parameters_of sites entities fields states connections in
  match structural_errors entities validation_parameters with
  | Raise e => (Validate ps s).1 = Raise e
  | Ok es1 =>
      if decide (self_errors s ++ es1 = []) then
        match content_errors ps validation_parameters with
        | Raise e => (Validate ps s).1 = Raise e
        | Ok es2 =>
            ∃ s', Validate ps s = (Ok (bool_decide (es2 = [])), s')
                  ∧ bound s' ∧ self_errors s' = es2
                  ∧ parsed_spreadsheet s' = ps
        end
      else
        ∃ s', Validate ps s = (Ok false, s')
              ∧ bound s' ∧ self_errors s' = self_errors s ++ es1
              ∧ parsed_spreadsheet s' = ps
  end.
Proof.
  intros Hb Hsites Hentities Hfields Hstates Hconnections params.
  unfold Validate. rewrite run_bind. simpl.
  set (s0 := mkStore _ _ _ ps _).
  assert (bound s0) as Hb0 by done.
  assert (self_errors s0 = self_errors s) as Hself0 by done.
  rewrite (bind_returns _ _ s0 sites s0) by by apply spreadsheet_item_run.
  rewrite (bind_returns _ _ s0 entities s0) by by apply spreadsheet_item_run.
  rewrite (bind_returns _ _ s0 fields s0) by by apply spreadsheet_item_run.
  rewrite (bind_returns _ _ s0 states s0) by by apply spreadsheet_item_run.
  rewrite (bind_returns _ _ s0 connections s0)
    by by apply spreadsheet_item_run.
  fold params.
  pose proof (accumulates_structural ps entities params Hentities s0 Hb0
                eq_refl) as Hstruct.
  destruct (structural_errors entities params) as [es1|e];
    [|by apply bind_raises].
  destruct Hstruct as (s1 & Hrun1 & Hb1 & Hself1 & Hps1 & Hlog1).
  rewrite (bind_returns _ _ _ _ _ Hrun1).
  rewrite (bind_returns _ _ s1 (self_errors s1) s1) by done.
  rewrite Hself1, Hself0.
  destruct (decide (self_errors s ++ es1 = [])) as [Hnil|Hne].
  - rewrite bool_decide_eq_true_2 by done.
    pose proof (accumulates_content ps params s1 Hb1 Hps1) as Hcontent.
    destruct (content_errors ps params) as [es2|e];
      [|by apply bind_raises].
    destruct Hcontent as (s2 & Hrun2 & Hb2 & Hself2 & Hps2 & Hlog2).
    rewrite (bind_returns _ _ _ _ _ Hrun2).
    destruct (Validate_verdict s2 Hb2) as (s3 & -> & Hb3 & Hself3 & Hps3 & _).
    exists s3. rewrite Hself3, Hps3, Hps2, Hps1, Hself2, Hself1, Hself0, Hnil.
    done.
  - rewrite bool_decide_eq_false_2 by done.
    rewrite (bind_returns _ _ s1 () s1) by done.
    destruct (Validate_verdict s1 Hb1) as (s3 & -> & Hb3 & Hself3 & Hps3 & _).
    exists s3. rewrite Hself3, Hps3, Hps1, Hself1, Hself0.
    by rewrite bool_decide_eq_false_2.
Qed.

End store_facts.

Section validate_facts.
Context `{!Constants}.

(** *** Missing tables *)

Lemma Validate_missing_key ps s :
  (∃ key, key ∈ table_keys ∧ ps !! key = None) →
  ∃ key,
    key ∈ table_keys ∧ ps !! key = None
    ∧ Validate ps s
      = (Raise (KeyError key),
         mkStore (objects s) (validation_errors s) (filepath s) ps (logged s)).
Proof.
  intros (key & Hkey & Hnone). unfold Validate. rewrite run_bind. simpl.
  set (s0 := mkStore _ _ _ ps _).
  assert (∀ k (f : list Row → M bool),
            ps !! k = None →
            (spreadsheet_item k ≫= f) s0 = (Raise (KeyError k), s0)) as Hraise.
  { intros k f Hk. by rewrite run_bind, spreadsheet_item_raises. }
  assert (∀ k (f : list Row → M bool) sheet,
            ps !! k = Some sheet →
            (spreadsheet_item k ≫= f) s0 = f sheet s0) as Hstep.
  { intros k f sheet Hk. by apply bind_returns, spreadsheet_item_run. }
  unfold table_keys.
  destruct (ps !! SITES) as [sites|] eqn:H1;
    [rewrite (Hstep _ _ _ H1) | exists SITES; rewrite (Hraise _ _ H1); repeat split; try done; membership].
  destruct (ps !! ENTITIES) as [entities|] eqn:H2;
    [rewrite (Hstep _ _ _ H2)
    | exists ENTITIES; rewrite (Hraise _ _ H2); repeat split; try done; membership].
  destruct (ps !! ENTITY_FIELDS) as [fields|] eqn:H3;
    [rewrite (Hstep _ _ _ H3)
    | exists ENTITY_FIELDS; rewrite (Hraise _ _ H3); repeat split; try done; membership].
  destruct (ps !! STATES) as [states|] eqn:H4;
    [rewrite (Hstep _ _ _ H4)
    | exists STATES; rewrite (Hraise _ _ H4); repeat split; try done; membership].
  destruct (ps !! CONNECTIONS) as [connections|] eqn:H5;
    [|exists CONNECTIONS; rewrite (Hraise _ _ H5); repeat split; try done; membership].
  exfalso. unfold table_keys in Hkey.
  repeat (apply elem_of_cons in Hkey as [->|Hkey]; [congruence|]).
  by apply elem_of_nil in Hkey.
Qed.

(** C8. [Validate]: when the input mapping lacks one of the five table keys,
    the call raises [KeyError] for a missing key instead of returning a
    boolean, and the errors held by the instance are untouched. *)
Theorem Validate_missing_table_raises ps s :
  (∃ key, key ∈ table_keys ∧ ps !! key = None) →
  ∃ key s',
    key ∈ table_keys ∧ ps !! key = None
    ∧ Validate ps s = (Raise (KeyError key), s')
    ∧ self_errors s' = self_errors s.
Proof.
  intros Hmissing.
  destruct (Validate_missing_key ps s Hmissing) as (key & Hin & Hnone & Hrun).
  exists key. eexists. rewrite Hrun. by repeat split.
Qed.

End validate_facts.

(** ** The spreadsheet as objects: what [Validate] writes *)

Section frame.
Context `{!Constants}.
Variable m0 : Objects.Memory.
Hypothesis Hseparate : separate m0.

Lemma obj_run_bind {A B : Type} (c : Objects.O A) (f : A → Objects.O B) m :
  (c ≫= f) m = match c m with
               | (Ok a, m') => f a m'
               | (Raise e, m') => (Raise e, m')
               end.
Proof. done. Qed.

Lemma maintains_ret {A : Type} (I : Objects.Memory → Prop) (Q : A → Prop) a :
  Q a → maintains I Q (mret a : Objects.O A).
Proof. intros Ha m Hm. split; [done|]. by intros a' [= <-]. Qed.

Lemma maintains_bind {A B : Type} (I : Objects.Memory → Prop)
    (Q : A → Prop) (R : B → Prop) (c : Objects.O A) (f : A → Objects.O B) :
  maintains I Q c → (∀ a, Q a → maintains I R (f a)) →
  maintains I R (c ≫= f).
Proof.
  intros Hc Hf m Hm. rewrite obj_run_bind. destruct (Hc m Hm) as [HI HQ].
  destruct (c m) as [[a|e] m1]; simpl in *; [|done].
  by apply (Hf a (HQ a eq_refl)).
Qed.

Lemma maintains_weaken {A : Type} (I : Objects.Memory → Prop)
    (Q Q' : A → Prop) (c : Objects.O A) :
  maintains I Q c → (∀ a, Q a → Q' a) → maintains I Q' c.
Proof.
  intros Hc HQ m Hm. destruct (Hc m Hm) as [HI Ha]. split; [done|].
  intros a Hr. by apply HQ, Ha.
Qed.

Lemma maintains_foldM {A S : Type} (I : Objects.Memory → Prop)
    (Q : S → Prop) (body : S → A → Objects.O S) acc l :
  (∀ acc x, Q acc → maintains I Q (body acc x)) → Q acc →
  maintains I Q (foldM body acc l).
Proof.
  intros Hbody. revert acc. induction l as [|x l IH]; intros acc Hacc; simpl.
  - by apply maintains_ret.
  - eapply maintains_bind; [by apply Hbody|]. intros acc' Hacc'. by apply IH.
Qed.

(** A computation that leaves the memory as it is. *)
Lemma maintains_read {A : Type} (I : Objects.Memory → Prop)
    (c : Objects.O A) :
  (∀ m, (c m).2 = m) → maintains I (λ _, True) c.
Proof. intros Hc m Hm. by rewrite Hc. Qed.

Lemma rows_read a m : (Objects.rows a m).2 = m.
Proof. done. Qed.

Lemma view_table_read ps key m : (Objects.view_table ps key m).2 = m.
Proof.
  unfold Objects.view_table. destruct (_ !! key) as [a|]; [|done].
  rewrite obj_run_bind. unfold Objects.rows.
  by destruct (mapM _ _).
Qed.

Lemma view_read keys m : (Objects.view keys m).2 = m.
Proof.
  unfold Objects.view. generalize (∅ : Spreadsheet).
  induction keys as [|key keys IH]; intros ps; simpl; [done|].
  rewrite obj_run_bind. pose proof (view_table_read ps key m) as Hread.
  destruct (Objects.view_table ps key m) as [[ps'|e] m1]; simpl in *;
    subst; [apply IH|done].
Qed.

(** *** The operations that write *)

Lemma maintains_new_list v :
  maintains (unchanged m0) (λ a, ¬ table_list m0 a) (Objects.new_list v).
Proof.
  intros m (Hps & Hdicts & Hlen & Htables). split.
  - split; [done|]. split; [done|]. simpl. split.
    + rewrite length_app. lia.
    + intros a Ha. destruct (Htables a Ha) as [Hsame Hattr].
      split; [|done]. rewrite lookup_app_l; [done|].
      destruct (Hseparate a Ha). lia.
  - intros a [= <-] Ha. destruct (Hseparate _ Ha). lia.
Qed.

Lemma maintains_load :
  maintains (unchanged m0) (λ a, ¬ table_list m0 a)
    Objects.load_validation_errors.
Proof.
  intros m Hm. split; [done|]. intros a [= <-] Ha.
  destruct Hm as (_ & _ & _ & Htables). by destruct (Htables _ Ha).
Qed.

Lemma maintains_store a :
  ¬ table_list m0 a →
  maintains (unchanged m0) (λ _, True) (Objects.store_validation_errors a).
Proof.
  intros Ha m (Hps & Hdicts & Hlen & Htables). split; [|done].
  split; [done|]. split; [done|]. split; [done|]. simpl.
  intros a' Ha'. split; [by apply Htables|]. by intros ->.
Qed.

Lemma maintains_alter (f : list Objects.Item → list Objects.Item) a m :
  ¬ table_list m0 a → unchanged m0 m →
  unchanged m0
    (Objects.mkMemory (alter f a (Objects.lists m)) (Objects.dicts m)
       (Objects.spreadsheet m) (Objects.validation_errors m)
       (Objects.filepath m) (Objects.logged m)).
Proof.
  intros Ha (Hps & Hdicts & Hlen & Htables).
  split; [done|]. split; [done|]. simpl. split.
  - by rewrite length_alter.
  - intros a' Ha'. destruct (Htables a' Ha') as [Hsame Hattr].
    split; [|done]. rewrite list_lookup_alter_ne; [done|]. by intros ->.
Qed.

Lemma maintains_list_append a i :
  ¬ table_list m0 a →
  maintains (unchanged m0) (λ _, True) (Objects.list_append a i).
Proof. intros Ha m Hm. split; [|done]. by apply maintains_alter. Qed.

Lemma maintains_list_iadd a a' :
  ¬ table_list m0 a →
  maintains (unchanged m0) (λ _, True) (Objects.list_iadd a a').
Proof. intros Ha m Hm. split; [|done]. by apply maintains_alter. Qed.

Lemma maintains_logger_error e :
  maintains (unchanged m0) (λ _, True) (Objects.logger_error e).
Proof. intros m Hm. by split. Qed.

Lemma maintains_iadd (rhs : Objects.O nat) (Q : nat → Prop) :
  maintains (unchanged m0) Q rhs →
  maintains (unchanged m0) (λ _, True) (Objects.iadd_validation_errors rhs).
Proof.
  intros Hrhs. unfold Objects.iadd_validation_errors.
  eapply maintains_bind; [apply maintains_load|]. intros target Htarget.
  eapply maintains_bind; [apply Hrhs|]. intros value _.
  eapply maintains_bind; [by apply maintains_list_iadd|]. intros _ _.
  by apply maintains_store.
Qed.

Lemma maintains_returning r :
  maintains (unchanged m0) (λ a, ¬ table_list m0 a) (Objects.returning r).
Proof.
  unfold Objects.returning.
  eapply maintains_bind; [by apply maintains_read|]. intros v _.
  apply maintains_new_list.
Qed.

Lemma maintains_append_error e :
  maintains (unchanged m0) (λ _, True)
    (l ← Objects.load_validation_errors; Objects.list_append l e).
Proof.
  eapply maintains_bind; [apply maintains_load|]. intros l Hl.
  by apply maintains_list_append.
Qed.

(** *** The validators *)

Lemma maintains_ValidateContents table parsed_sheet hs :
  maintains (unchanged m0) (λ a, ¬ table_list m0 a)
    (Objects._ValidateContents table parsed_sheet hs).
Proof.
  unfold Objects._ValidateContents.
  eapply maintains_bind; [apply maintains_new_list|]. intros l Hl.
  eapply maintains_bind; [by apply maintains_store|]. intros _ _.
  eapply maintains_bind; [by apply maintains_read|]. intros sheet _.
  eapply maintains_bind; [|intros _ _; apply maintains_load].
  apply (maintains_foldM _ (λ _, True)); [|done].
  intros [] [row_number row] _.
  apply (maintains_foldM _ (λ _, True)); [|done]. intros [] header _.
  unfold Objects.check_cell.
  eapply maintains_bind; [by apply maintains_read|]. intros value _.
  destruct (not_str value); [apply maintains_append_error|].
  by apply maintains_ret.
Qed.

Lemma maintains_ValidateFieldsAcrossSheets :
  maintains (unchanged m0) (λ a, ¬ table_list m0 a)
    Objects._ValidateFieldsAcrossSheets.
Proof.
  unfold Objects._ValidateFieldsAcrossSheets.
  eapply maintains_bind; [apply maintains_new_list|]. intros l Hl.
  eapply maintains_bind; [by apply maintains_store|]. intros _ _.
  eapply maintains_bind; [apply maintains_read, view_read|]. intros ps _.
  eapply maintains_bind; [|intros _ _; apply maintains_load].
  apply (maintains_foldM _ (λ _, True)); [|done].
  intros [] [row_num field] _. unfold Objects.check_field.
  eapply maintains_bind; [|intros _ _]; case_bool_decide;
    first [ apply maintains_append_error | by apply maintains_ret ].
Qed.

Lemma maintains_LogErrors a :
  maintains (unchanged m0) (λ _, True) (Objects._LogErrors a).
Proof.
  unfold Objects._LogErrors.
  eapply maintains_bind; [by apply maintains_read|]. intros errors _.
  apply (maintains_foldM _ (λ _, True)); [|done]. intros [] [e|r] _.
  - apply maintains_logger_error.
  - by apply maintains_read.
Qed.

Lemma maintains_structural_phase params :
  maintains (unchanged m0) (λ _, True) (Objects.structural_phase params).
Proof.
  unfold Objects.structural_phase.
  eapply maintains_bind; [by apply maintains_read|]. intros entities _.
  eapply maintains_bind; [|intros _ _].
  { eapply maintains_iadd, maintains_bind; [by apply maintains_read|].
    intros sheet _. apply maintains_returning. }
  eapply maintains_bind; [|intros _ _].
  { eapply maintains_iadd, maintains_bind; [by apply maintains_read|].
    intros sheet _. apply maintains_returning. }
  apply (maintains_foldM _ (λ _, True)); [|done].
  intros [] [[[table sheet] required] headers] _.
  eapply maintains_iadd, maintains_bind; [by apply maintains_read|].
  intros rows _. apply maintains_returning.
Qed.

Lemma maintains_content_phase params :
  maintains (unchanged m0) (λ _, True) (Objects.content_phase params).
Proof.
  unfold Objects.content_phase.
  eapply maintains_bind; [|intros _ _].
  { apply (maintains_foldM _ (λ _, True)); [|done].
    intros [] [[[table sheet] required] headers] _.
    eapply maintains_iadd, maintains_ValidateContents. }
  eapply maintains_bind; [|intros _ _].
  { eapply maintains_iadd, maintains_ValidateFieldsAcrossSheets. }
  eapply maintains_bind; [|intros _ _];
    (eapply maintains_iadd, maintains_bind;
       [apply maintains_read, view_read|]);
    intros ps _; apply maintains_returning.
Qed.

Lemma maintains_Validate :
  maintains (unchanged m0) (λ _, True) Objects.Validate.
Proof.
  unfold Objects.Validate.
  do 5 (eapply maintains_bind; [by apply maintains_read|]; intros ? _).
  eapply maintains_bind; [apply maintains_structural_phase|]. intros _ _.
  eapply maintains_bind.
  { eapply maintains_bind; [apply maintains_load|]. intros l _.
    by apply maintains_read. }
  intros errors _.
  eapply maintains_bind.
  { case_bool_decide; [apply maintains_content_phase|by apply maintains_ret]. }
  intros _ _.
  eapply maintains_bind; [apply maintains_load|]. intros l _.
  eapply maintains_bind; [by apply maintains_read|]. intros errors' _.
  case_bool_decide; [|by apply maintains_ret].
  eapply maintains_bind; [apply maintains_LogErrors|]. intros _ _.
  by apply maintains_ret.
Qed.

End frame.

Lemma unchanged_refl m : separate m → unchanged m m.
Proof.
  intros Hm. split; [done|]. split; [done|]. split; [done|].
  intros a Ha. split; [done|]. by destruct (Hm a Ha).
Qed.

Lemma init_separate path lists dicts spreadsheet :
  (∀ key a, spreadsheet !! key = Some a → a < length lists) →
  separate (Objects.__init__ path lists dicts spreadsheet).
Proof.
  intros Hallocated a [key Hkey]. simpl in *.
  pose proof (Hallocated key a Hkey). rewrite length_app. simpl. lia.
Qed.

Lemma unchanged_separate m0 m : separate m0 → unchanged m0 m → separate m.
Proof.
  intros Hm0 (Hps & _ & Hlen & Htables) a [key Hkey]. rewrite Hps in Hkey.
  assert (table_list m0 a) as Ha by by exists key.
  destruct (Htables a Ha) as [_ Hattr]. destruct (Hm0 a Ha). split; [lia|done].
Qed.

Lemma unchanged_trans m0 m1 m2 :
  unchanged m0 m1 → unchanged m1 m2 → unchanged m0 m2.
Proof.
  intros (Hps1 & Hdicts1 & Hlen1 & Htables1) (Hps2 & Hdicts2 & Hlen2 & Htables2).
  split; [congruence|]. split; [congruence|]. split; [lia|].
  intros a Ha. destruct (Htables1 a Ha) as [Hsame1 _].
  assert (table_list m1 a) as Ha1.
  { destruct Ha as [key Hkey]. exists key. by rewrite Hps1. }
  destruct (Htables2 a Ha1) as [Hsame2 Hattr]. split; [congruence|done].
Qed.

Lemma Validate_unchanged `{!Constants} (m : Objects.Memory) :
  separate m → unchanged m (Objects.Validate m).2.
Proof. intros Hm. by apply (maintains_Validate m Hm m), unchanged_refl. Qed.

(** C9. [Validate]: when the list objects of the tables exist and the list
    object bound to [self.validation_errors] is none of them, as it is for
    every validator made by [__init__], then after the call, whether it
    returns or raises, the spreadsheet is as before: the dict object still
    maps the same table names to the same list objects, the list object of
    every table holds the same sequence of rows, and the dict object of
    every row is the same mapping from headers to values. The attribute is
    again bound to none of the tables' lists, so this holds for every later
    call as well. *)
Theorem Validate_leaves_spreadsheet_unchanged `{!Constants}
    (m : Objects.Memory) :
  separate m →
  let m' := (Objects.Validate m).2 in
  Objects.spreadsheet m' = Objects.spreadsheet m
  ∧ (∀ key a, Objects.spreadsheet m !! key = Some a →
              Objects.lists m' !! a = Objects.lists m !! a)
  ∧ Objects.dicts m' = Objects.dicts m
  ∧ separate m'.
Proof.
  intros Hm m'. pose proof (Validate_unchanged m Hm) as Hunchanged.
  fold m' in Hunchanged.
  pose proof (unchanged_separate m m' Hm Hunchanged) as Hm'.
  destruct Hunchanged as (Hps & Hdicts & Hlen & Htables).
  split; [done|]. split; [|by split].
  intros key a Hkey. apply Htables. by exists key.
Qed.

Lemma Validate_calls_unchanged `{!Constants} n (m : Objects.Memory) :
  separate m → unchanged m (after_calls n m).
Proof.
  intros Hm. induction n as [|n IH]; [by apply unchanged_refl|].
  unfold after_calls in *. simpl.
  eapply unchanged_trans; [exact IH|].
  by eapply Validate_unchanged, unchanged_separate.
Qed.

(** For a validator made by [__init__] in a memory that holds the
    spreadsheet, and any number of calls of [Validate], returning or
    raising: the dict of the tables, the list object of every table and the
    dict objects of the rows are as they were before the validator was
    made. *)
Lemma Validate_calls_leave_spreadsheet_unchanged `{!Constants}
    path lists dicts (spreadsheet : gmap string nat) n :
  (∀ key a, spreadsheet !! key = Some a → a < length lists) →
  let m' := after_calls n (Objects.__init__ path lists dicts spreadsheet) in
  Objects.spreadsheet m' = spreadsheet
  ∧ (∀ key a, spreadsheet !! key = Some a →
              Objects.lists m' !! a = lists !! a)
  ∧ Objects.dicts m' = dicts.
Proof.
  intros Hallocated m'.
  destruct (Validate_calls_unchanged n _
              (init_separate path lists dicts spreadsheet Hallocated))
    as (Hps & Hdicts & _ & Htables).
  fold m' in Hps, Hdicts, Htables.
  split; [done|]. split; [|done].
  intros key a Hkey. destruct (Htables a) as [-> _]; [by exists key|].
  simpl. apply lookup_app_l. by eapply Hallocated.
Qed.

(** ** The objects and the store *)

Section abstraction_facts.
Context `{!Constants}.
Variable d : gmap string nat.
Variable ps : Spreadsheet.

#[local] Abbreviation J := (standing d ps).
#[local] Abbreviation outside := (outside d).
#[local] Abbreviation address := (address d).
#[local] Abbreviation sheet_at := (sheet_at d ps).
#[local] Abbreviation parameter := (parameter d ps).

Lemma errors_of_app l1 l2 : errors_of (l1 ++ l2) = errors_of l1 ++ errors_of l2.
Proof. apply omap_app. Qed.

Lemma errors_of_Error v : errors_of (Objects.Error <$> v) = v.
Proof. induction v as [|e v IH]; [done|]. simpl. f_equal. exact IH. Qed.

Lemma errors_of_nil l :
  Forall (λ i, is_Some (error_of i)) l → l = [] ↔ errors_of l = [].
Proof.
  destruct l as [|i l]; [done|]. intros [[e He] _]%Forall_cons.
  destruct i; simplify_eq/=. done.
Qed.

Lemma Forall_error_Error v :
  Forall (λ i, is_Some (error_of i)) (Objects.Error <$> v).
Proof. apply Forall_fmap, Forall_forall. intros e _. by eexists. Qed.

Lemma lookup_total_errors_of (l : list (list Objects.Item)) a :
  (errors_of <$> l) !!! a = errors_of (l !!! a).
Proof.
  rewrite !list_lookup_total_alt, list_lookup_fmap.
  by destruct (l !! a).
Qed.

Lemma lookup_total_beyond {A : Type} `{!Inhabited A} (l : list A) a :
  length l ≤ a → l !!! a = inhabitant.
Proof.
  intros Hlen. rewrite list_lookup_total_alt.
  by rewrite (lookup_ge_None_2 l a Hlen).
Qed.

Lemma outside_table m a : J m → outside a ↔ ¬ table_list m a.
Proof.
  intros [Hd _]. unfold table_list. rewrite Hd. split.
  - intros Ha [key Hkey]. by apply (Ha key).
  - intros Ha key Hkey. apply Ha. by exists key.
Qed.

(** *** The invariant under the writes *)

Lemma J_alter (f : list Objects.Item → list Objects.Item) a m :
  J m → outside a →
  (∀ l, Forall (λ i, is_Some (error_of i)) l →
        Forall (λ i, is_Some (error_of i)) (f l)) →
  J (Objects.mkMemory (alter f a (Objects.lists m)) (Objects.dicts m)
       (Objects.spreadsheet m) (Objects.validation_errors m)
       (Objects.filepath m) (Objects.logged m)).
Proof.
  intros [Hd [Htables Hothers]] Ha Hf. split; [done|]. split.
  - intros key. specialize (Htables key). simpl.
    destruct (Objects.spreadsheet m !! key) as [a'|] eqn:Hkey; [|done].
    destruct Htables as (Hlen & Hattr & sheet & Hsheet & Hps).
    rewrite length_alter. split; [done|]. split; [done|].
    exists sheet. split; [|done].
    rewrite list_lookup_total_alter_ne; [exact Hsheet|].
    intros ->. rewrite Hd in Hkey. by apply (Ha key).
  - intros a' Ha'. simpl. rewrite list_lookup_total_alter.
    case_decide as Heq; [|by apply Hothers].
    destruct Heq as [<- _]. by apply Hf, Hothers.
Qed.

Lemma J_new_list v m :
  J m → Forall (λ i, is_Some (error_of i)) v →
  J (Objects.mkMemory (Objects.lists m ++ [v]) (Objects.dicts m)
       (Objects.spreadsheet m) (Objects.validation_errors m)
       (Objects.filepath m) (Objects.logged m)).
Proof.
  intros [Hd [Htables Hothers]] Hv. split; [done|]. split.
  - intros key. specialize (Htables key). simpl.
    destruct (Objects.spreadsheet m !! key) as [a'|] eqn:Hkey; [|done].
    destruct Htables as (Hlen & Hattr & sheet & Hsheet & Hps).
    rewrite length_app. split; [lia|]. split; [done|].
    exists sheet. split; [|done].
    rewrite lookup_total_app_l by done. exact Hsheet.
  - intros a' Ha'. simpl.
    destruct (decide (a' < length (Objects.lists m))) as [Hlt|Hge].
    + rewrite lookup_total_app_l by done. by apply Hothers.
    + destruct (decide (a' = length (Objects.lists m))) as [->|Hne].
      * by rewrite list_lookup_total_middle.
      * rewrite lookup_total_beyond; [constructor|].
        rewrite length_app. simpl. lia.
Qed.

Lemma J_store a m :
  J m → outside a →
  J (Objects.mkMemory (Objects.lists m) (Objects.dicts m)
       (Objects.spreadsheet m) a (Objects.filepath m) (Objects.logged m)).
Proof.
  intros [Hd [Htables Hothers]] Ha. split; [done|]. split; [|done].
  intros key. specialize (Htables key). simpl.
  destruct (Objects.spreadsheet m !! key) as [a'|] eqn:Hkey; [|done].
  destruct Htables as (Hlen & Hattr & Hsheet).
  split; [done|]. split; [|done].
  intros ->. rewrite Hd in Hkey. by apply (Ha key).
Qed.

(** *** The rules of the simulation *)

Lemma simulates_ret {A B : Type} (R : A → B → Prop) a b :
  R a b → simulates J ps R (mret a : Objects.O A) (mret b).
Proof. by intros Hab m Hm. Qed.

Lemma simulates_bind {A B A' B' : Type} (R : A → B → Prop)
    (R' : A' → B' → Prop) (co : Objects.O A) (cv : M B)
    (fo : A → Objects.O A') (fv : B → M B') :
  simulates J ps R co cv →
  (∀ a b, R a b → simulates J ps R' (fo a) (fv b)) →
  simulates J ps R' (co ≫= fo) (cv ≫= fv).
Proof.
  intros Hc Hf m Hm. destruct (Hc m Hm) as (HJ & Hs & Hr).
  rewrite obj_run_bind, run_bind.
  destruct (co m) as [[a|e] m1], (cv (abstraction ps m)) as [[b|e'] s1];
    simpl in *; subst; try done.
  by apply (Hf a b Hr).
Qed.

Lemma simulates_foldM {A B S T : Type} (RS : S → T → Prop)
    (RX : A → B → Prop) (bo : S → A → Objects.O S) (bv : T → B → M T)
    xs ys acc acc' :
  Forall2 RX xs ys →
  (∀ acc acc' x y, RS acc acc' → RX x y →
                   simulates J ps RS (bo acc x) (bv acc' y)) →
  RS acc acc' →
  simulates J ps RS (foldM bo acc xs) (foldM bv acc' ys).
Proof.
  intros Hxs Hbody. revert acc acc'.
  induction Hxs as [|x y xs ys Hxy _ IH]; intros acc acc' Hacc; simpl.
  - by apply simulates_ret.
  - eapply simulates_bind; [by apply Hbody|]. intros a b Hab. by apply IH.
Qed.

Lemma simulates_lift {A : Type} (r : Result A) :
  simulates J ps eq (Objects.lift r) (lift r).
Proof. intros m Hm. split; [done|]. split; [done|]. simpl. by destruct r. Qed.

Lemma simulates_new_list v :
  Forall (λ i, is_Some (error_of i)) v →
  simulates J ps address (Objects.new_list v) (new_list (errors_of v)).
Proof.
  intros Hv m Hm. split; [by apply J_new_list|]. split.
  - unfold abstraction. simpl. by rewrite fmap_app.
  - simpl. rewrite length_fmap. split; [done|].
    intros key Hkey. destruct Hm as [<- [Htables _]].
    specialize (Htables key). rewrite Hkey in Htables.
    destruct Htables as [Hlen _]. lia.
Qed.

Lemma simulates_load :
  simulates J ps address Objects.load_validation_errors
    load_validation_errors.
Proof.
  intros m Hm. split; [done|]. split; [done|]. simpl. split; [done|].
  intros key Hkey. destruct Hm as [<- [Htables _]].
  specialize (Htables key). rewrite Hkey in Htables.
  by destruct Htables as (_ & Hattr & _).
Qed.

Lemma simulates_store a :
  outside a →
  simulates J ps eq (Objects.store_validation_errors a)
    (store_validation_errors a).
Proof. intros Ha m Hm. split; [by apply J_store|]. by split. Qed.

Lemma simulates_items a :
  outside a →
  simulates J ps (λ l es, es = errors_of l
                          ∧ Forall (λ i, is_Some (error_of i)) l)
    (Objects.items a) (contents a).
Proof.
  intros Ha m Hm. split; [done|]. split; [done|]. simpl.
  split; [apply lookup_total_errors_of|].
  pose proof Hm as [Hd [_ Hothers]]. apply Hothers.
  by apply (outside_table m a Hm).
Qed.

Lemma alter_errors_of (x : list Objects.Item) a
    (l : list (list Objects.Item)) :
  errors_of <$> alter (λ items, items ++ x) a l
  = alter (λ es, es ++ errors_of x) a (errors_of <$> l).
Proof.
  apply list_fmap_alter, Forall_forall. intros items _. apply errors_of_app.
Qed.

Lemma simulates_list_append a e :
  outside a →
  simulates J ps eq (Objects.list_append a (Objects.Error e))
    (list_append a e).
Proof.
  intros Ha m Hm. split; [|split; [|done]].
  - apply J_alter; [done..|]. intros l Hl. apply Forall_app. split; [done|].
    apply Forall_singleton. by eexists.
  - unfold abstraction. simpl. by rewrite alter_errors_of.
Qed.

Lemma simulates_list_iadd a a' :
  outside a → outside a' →
  simulates J ps eq (Objects.list_iadd a a') (list_iadd a a').
Proof.
  intros Ha Ha' m Hm. split; [|split; [|done]].
  - apply J_alter; [done..|]. intros l Hl. apply Forall_app. split; [done|].
    pose proof Hm as [_ [_ Hothers]]. apply Hothers.
    by apply (outside_table m a' Hm).
  - unfold abstraction. simpl.
    by rewrite alter_errors_of, lookup_total_errors_of.
Qed.

Lemma simulates_logger_error e :
  simulates J ps eq (Objects.logger_error e) (logger_error e).
Proof. by intros m Hm. Qed.

Lemma simulates_iadd (rhs : Objects.O nat) (rhs' : M nat) :
  simulates J ps address rhs rhs' →
  simulates J ps eq (Objects.iadd_validation_errors rhs)
    (iadd_validation_errors rhs').
Proof.
  intros Hrhs. unfold Objects.iadd_validation_errors, iadd_validation_errors.
  eapply simulates_bind; [apply simulates_load|]. intros target ? [<- Htarget].
  eapply simulates_bind; [apply Hrhs|]. intros value ? [<- Hvalue].
  eapply simulates_bind; [by apply simulates_list_iadd|]. intros _ _ _.
  by apply simulates_store.
Qed.

Lemma simulates_returning r :
  simulates J ps address (Objects.returning r) (returning r).
Proof.
  unfold Objects.returning, returning.
  eapply simulates_bind; [apply simulates_lift|]. intros v ? <-.
  rewrite <- (errors_of_Error v) at 2.
  apply simulates_new_list, Forall_error_Error.
Qed.

Lemma simulates_spreadsheet_item key :
  simulates J ps sheet_at (Objects.spreadsheet_item key)
    (spreadsheet_item key).
Proof.
  intros m Hm. split; [done|]. split.
  - unfold spreadsheet_item. rewrite run_bind. simpl. unfold lift. done.
  - unfold spreadsheet_item. rewrite run_bind. simpl.
    unfold Objects.spreadsheet_item, lift, subscript. simpl.
    destruct Hm as [Hd [Htables _]]. specialize (Htables key).
    destruct (Objects.spreadsheet m !! key) as [a|] eqn:Hkey.
    + destruct Htables as (_ & _ & sheet & _ & Hps). rewrite Hps.
      exists key. by rewrite <- Hd.
    + by rewrite Htables.
Qed.

(** Reading the rows of a table gives the rows of [ps]. *)
Lemma rows_sheet a sheet m :
  J m → sheet_at a sheet → Objects.rows a m = (Ok sheet, m).
Proof.
  intros [Hd [Htables _]] (key & Hkey & Hps). specialize (Htables key).
  rewrite Hd, Hkey in Htables.
  destruct Htables as (_ & _ & sheet' & Hsheet & Hps').
  unfold Objects.rows. rewrite Hsheet. congruence.
Qed.

Lemma simulates_rows {A B : Type} (R : A → B → Prop) a sheet
    (fo : list Row → Objects.O A) (cv : M B) :
  sheet_at a sheet →
  simulates J ps R (fo sheet) cv →
  simulates J ps R (Objects.rows a ≫= fo) cv.
Proof.
  intros Ha Hf m Hm. rewrite obj_run_bind, (rows_sheet a sheet m Hm Ha).
  by apply Hf.
Qed.

(** What a validator sees through [view] is [ps] at the keys it reads. *)
Lemma view_fold keys acc m :
  J m → acc ⊆ ps →
  ∃ pv, foldM Objects.view_table acc keys m = (Ok pv, m)
        ∧ acc ⊆ pv ∧ pv ⊆ ps
        ∧ ∀ key, key ∈ keys → pv !! key = ps !! key.
Proof.
  intros Hm. revert acc. induction keys as [|k keys IH]; intros acc Hacc.
  - exists acc. repeat split; try done. by intros key ?%elem_of_nil.
  - simpl. rewrite obj_run_bind.
    assert (∃ acc', Objects.view_table acc k m = (Ok acc', m)
                    ∧ acc ⊆ acc' ∧ acc' ⊆ ps ∧ acc' !! k = ps !! k)
      as (acc' & -> & Hsub & Hsub' & Hk).
    { unfold Objects.view_table. pose proof Hm as [Hd [Htables _]].
      specialize (Htables k).
      destruct (Objects.spreadsheet m !! k) as [a|] eqn:Hkey.
      - destruct Htables as (_ & _ & sheet & Hsheet & Hps).
        rewrite obj_run_bind. unfold Objects.rows. rewrite Hsheet.
        exists (<[k := sheet]> acc). split; [done|].
        split; [|split].
        + apply map_subseteq_spec. intros i x Hi.
          destruct (decide (i = k)) as [->|Hne].
          * rewrite lookup_insert_eq.
            rewrite map_subseteq_spec in Hacc. apply Hacc in Hi. congruence.
          * by rewrite lookup_insert_ne.
        + by apply insert_subseteq_l.
        + by rewrite lookup_insert_eq.
      - exists acc. split; [done|]. split; [done|]. split; [done|].
        rewrite Htables. destruct (acc !! k) as [x|] eqn:Hx; [|done].
        rewrite map_subseteq_spec in Hacc. apply Hacc in Hx. congruence. }
    destruct (IH acc' Hsub') as (pv & Hrun & Hext & Hpv & Hkeys).
    exists pv. split; [done|]. split; [by etrans|]. split; [done|].
    intros key [->|Hin]%elem_of_cons; [|by apply Hkeys].
    destruct (ps !! k) as [x|] eqn:Hx.
    + rewrite map_subseteq_spec in Hext. by apply Hext.
    + destruct (pv !! k) as [y|] eqn:Hy; [|done].
      rewrite map_subseteq_spec in Hpv. apply Hpv in Hy. congruence.
Qed.

Lemma simulates_view {A B : Type} (R : A → B → Prop) keys
    (fo : Spreadsheet → Objects.O A) (fv : Spreadsheet → M B) :
  (∀ pv, (∀ key, key ∈ keys → pv !! key = ps !! key) →
         simulates J ps R (fo pv) (fv ps)) →
  simulates J ps R (Objects.view keys ≫= fo) (the_spreadsheet ≫= fv).
Proof.
  intros Hf m Hm. rewrite obj_run_bind, run_bind.
  destruct (view_fold keys ∅ m Hm (map_empty_subseteq _))
    as (pv & Hrun & _ & _ & Hkeys).
  unfold Objects.view. rewrite Hrun. simpl. by apply Hf.
Qed.

Lemma Forall2_eq_refl {A : Type} (l : list A) : Forall2 eq l l.
Proof. induction l; by constructor. Qed.

(** *** The validators *)

Lemma simulates_append_error e :
  simulates J ps eq
    (l ← Objects.load_validation_errors;
     Objects.list_append l (Objects.Error e))
    (l ← load_validation_errors; list_append l e).
Proof.
  eapply simulates_bind; [apply simulates_load|]. intros l ? [<- Hl].
  by apply simulates_list_append.
Qed.

Lemma simulates_ValidateContents table a sheet hs :
  sheet_at a sheet →
  simulates J ps address (Objects._ValidateContents table a hs)
    (_ValidateContents table sheet hs).
Proof.
  intros Ha. unfold Objects._ValidateContents, _ValidateContents.
  eapply simulates_bind; [by apply (simulates_new_list [])|].
  intros l ? [<- Hl].
  eapply simulates_bind; [by apply simulates_store|]. intros _ _ _.
  apply (simulates_rows _ a sheet); [done|].
  eapply simulates_bind; [|intros _ _ _; apply simulates_load].
  apply (simulates_foldM eq eq); [apply Forall2_eq_refl| |done].
  intros [] [] [row_number row] ? _ <-.
  apply (simulates_foldM eq eq); [apply Forall2_eq_refl| |done].
  intros [] [] header ? _ <-. unfold Objects.check_cell, check_cell.
  eapply simulates_bind; [apply simulates_lift|]. intros value ? <-.
  destruct (not_str value); [apply simulates_append_error|].
  by apply simulates_ret.
Qed.

Lemma simulates_ValidateFieldsAcrossSheets :
  simulates J ps address Objects._ValidateFieldsAcrossSheets
    _ValidateFieldsAcrossSheets.
Proof.
  unfold Objects._ValidateFieldsAcrossSheets, _ValidateFieldsAcrossSheets.
  eapply simulates_bind; [by apply (simulates_new_list [])|].
  intros l ? [<- Hl].
  eapply simulates_bind; [by apply simulates_store|]. intros _ _ _.
  apply simulates_view. intros pv Hpv.
  rewrite !Hpv by (repeat first [ apply list_elem_of_here
                                | apply list_elem_of_further ]).
  eapply simulates_bind; [|intros _ _ _; apply simulates_load].
  apply (simulates_foldM eq eq); [apply Forall2_eq_refl| |done].
  intros [] [] [row_num field] ? _ <-.
  unfold Objects.check_field, check_field.
  eapply simulates_bind; [|intros _ _ _]; case_bool_decide;
    first [ apply simulates_append_error | by apply simulates_ret ].
Qed.

Lemma errors_of_Forall2 l :
  Forall (λ i, is_Some (error_of i)) l →
  Forall2 (λ i e, i = Objects.Error e) l (errors_of l).
Proof.
  induction 1 as [|i l [e He] _ IH]; [constructor|].
  destruct i; simplify_eq/=. by constructor.
Qed.

Lemma simulates_LogErrors a :
  outside a →
  simulates J ps eq (Objects._LogErrors a) (_LogErrors a).
Proof.
  intros Ha. unfold Objects._LogErrors, _LogErrors.
  eapply simulates_bind; [by apply simulates_items|].
  intros l ? [-> Hl].
  apply (simulates_foldM eq (λ i e, i = Objects.Error e));
    [by apply errors_of_Forall2| |done].
  intros [] [] i e _ ->. apply simulates_logger_error.
Qed.

Lemma simulates_structural_phase params params' :
  Forall2 parameter params params' →
  simulates J ps eq (Objects.structural_phase params)
    (structural_phase params').
Proof.
  intros Hparams. unfold Objects.structural_phase, structural_phase.
  eapply simulates_bind; [apply simulates_spreadsheet_item|].
  intros a entities Ha.
  eapply simulates_bind; [|intros _ _ _].
  { apply simulates_iadd, (simulates_rows _ a entities); [done|].
    apply simulates_returning. }
  eapply simulates_bind; [|intros _ _ _].
  { apply simulates_iadd, (simulates_rows _ a entities); [done|].
    apply simulates_returning. }
  apply (simulates_foldM eq parameter); [done| |done].
  intros [] [] [[[table a'] required] headers]
    [[[table' sheet] required'] headers'] _ (Ht & Hs & Hr & Hh).
  simpl in *. subst.
  apply simulates_iadd, (simulates_rows _ a' sheet); [done|].
  apply simulates_returning.
Qed.

Lemma ValidateStatesAcrossSheets_view pv :
  (∀ key, key ∈ [STATES; ENTITY_FIELDS] → pv !! key = ps !! key) →
  _ValidateStatesAcrossSheets pv = _ValidateStatesAcrossSheets ps.
Proof.
  intros Hpv. unfold _ValidateStatesAcrossSheets.
  by rewrite !Hpv by (repeat first [ apply list_elem_of_here
                                   | apply list_elem_of_further ]).
Qed.

Lemma ValidateConnections_view pv :
  (∀ key, key ∈ [CONNECTIONS; ENTITIES; SITES] → pv !! key = ps !! key) →
  _ValidateConnections pv = _ValidateConnections ps.
Proof.
  intros Hpv. unfold _ValidateConnections, subscript.
  by rewrite !Hpv by (repeat first [ apply list_elem_of_here
                                   | apply list_elem_of_further ]).
Qed.

Lemma simulates_content_phase params params' :
  Forall2 parameter params params' →
  simulates J ps eq (Objects.content_phase params) (content_phase params').
Proof.
  intros Hparams. unfold Objects.content_phase, content_phase.
  eapply simulates_bind; [|intros _ _ _].
  { apply (simulates_foldM eq parameter); [done| |done].
    intros [] [] [[[table a'] required] headers]
      [[[table' sheet] required'] headers'] _ (Ht & Hs & Hr & Hh).
    simpl in *. subst.
    by apply simulates_iadd, simulates_ValidateContents. }
  eapply simulates_bind; [|intros _ _ _].
  { apply simulates_iadd, simulates_ValidateFieldsAcrossSheets. }
  eapply simulates_bind; [|intros _ _ _].
  - apply simulates_iadd, simulates_view. intros pv Hpv.
    rewrite (ValidateStatesAcrossSheets_view pv Hpv).
    apply simulates_returning.
  - apply simulates_iadd, simulates_view. intros pv Hpv.
    rewrite (ValidateConnections_view pv Hpv).
    apply simulates_returning.
Qed.

Lemma simulates_Validate :
  simulates J ps eq Objects.Validate (Validate ps).
Proof.
  assert (simulates J ps eq Objects.Validate
            (sites ← spreadsheet_item SITES;
             entities ← spreadsheet_item ENTITIES;
             fields ← spreadsheet_item ENTITY_FIELDS;
             states ← spreadsheet_item STATES;
             connections ← spreadsheet_item CONNECTIONS;
             let validation_parameters :=
               validation_parameters_of sites entities fields states
                 connections in
             structural_phase validation_parameters;;
             errors ← (l ← load_validation_errors; contents l);
             (if bool_decide (errors = [])
              then content_phase validation_parameters
              else mret ());;
             l ← load_validation_errors;
             errors ← contents l;
             if bool_decide (errors ≠ [])
             then _LogErrors l;; mret false
             else mret true)) as Hbody.
  { unfold Objects.Validate.
    eapply simulates_bind; [apply simulates_spreadsheet_item|].
    intros a1 sites H1.
    eapply simulates_bind; [apply simulates_spreadsheet_item|].
    intros a2 entities H2.
    eapply simulates_bind; [apply simulates_spreadsheet_item|].
    intros a3 fields H3.
    eapply simulates_bind; [apply simulates_spreadsheet_item|].
    intros a4 states H4.
    eapply simulates_bind; [apply simulates_spreadsheet_item|].
    intros a5 connections H5.
    assert (Forall2 parameter
              (Objects.validation_parameters_of a1 a2 a3 a4 a5)
              (validation_parameters_of sites entities fields states
                 connections)) as Hparams
      by (repeat constructor; done).
    cbv zeta.
    eapply simulates_bind; [by apply simulates_structural_phase|].
    intros _ _ _.
    eapply simulates_bind.
    { eapply simulates_bind; [apply simulates_load|]. intros l ? [<- Hl].
      by apply simulates_items. }
    intros errors ? [-> Herrors].
    eapply simulates_bind.
    { pose proof (errors_of_nil errors Herrors) as Hnil.
      repeat case_bool_decide; try tauto;
        [by apply simulates_content_phase|by apply simulates_ret]. }
    intros _ _ _.
    eapply simulates_bind; [apply simulates_load|]. intros l ? [<- Hl].
    eapply simulates_bind; [by apply simulates_items|].
    intros errors' ? [-> Herrors'].
    pose proof (errors_of_nil errors' Herrors') as Hnil.
    repeat case_bool_decide; try tauto; [|by apply simulates_ret].
    eapply simulates_bind; [by apply simulates_LogErrors|]. intros _ _ _.
    by apply simulates_ret. }
  intros m Hm. exact (Hbody m Hm).
Qed.

End abstraction_facts.

(** [Validate] over the objects does what [Validate] does over the store
    the memory stands for: the same result or the same exception, and the
    memory after the call stands for the store after the call. *)
Theorem Validate_abstraction `{!Constants} ps (m : Objects.Memory) :
  holds ps m →
  (Validate ps (abstraction ps m)).1 = (Objects.Validate m).1
  ∧ (Validate ps (abstraction ps m)).2 = abstraction ps (Objects.Validate m).2
  ∧ holds ps (Objects.Validate m).2.
Proof.
  intros Hm.
  destruct (simulates_Validate (Objects.spreadsheet m) ps m (conj eq_refl Hm))
    as ([_ Hholds] & Hstore & Hresult).
  split; [|done].
  destruct (Objects.Validate m).1, (Validate ps (abstraction ps m)).1;
    by subst.
Qed.

Section content_facts.
Context `{!Constants}.

Lemma collect_Ok {A : Type} (f : A → Result (list SpreadsheetError)) l :
  Forall (λ x, ∃ es, f x = Ok es) l → ∃ es, collect f l = Ok es.
Proof.
  induction 1 as [|x l [e Hx] _ [es IH]]; simpl; [by eexists|].
  rewrite Hx, IH. by eexists.
Qed.

Lemma row_errors_exposed table row_number (row : Row) headers :
  exposes headers row →
  ∃ es, collect (cell_errors table row_number row) headers = Ok es
        ∧ ∀ header, header ∈ headers → row !! header = Some "" →
                    missing_value_error table row_number header ∈ es.
Proof.
  intros Hrow.
  destruct (collect_Ok (cell_errors table row_number row) headers) as [es Hes].
  { eapply Forall_impl; [exact Hrow|]. intros header [value Hvalue].
    unfold cell_errors. rewrite (subscript_Some _ _ _ Hvalue). by eexists. }
  exists es. split; [done|]. intros header Hin Hempty.
  apply (collect_elem _ _ _ _ Hes). exists header. eexists.
  split; [done|]. unfold cell_errors.
  rewrite (subscript_Some _ _ _ Hempty). split; [done|].
  apply list_elem_of_here.
Qed.

Lemma contents_errors_exposed table (sheet : list Row) headers :
  Forall (exposes headers) sheet →
  ∃ es, contents_errors table sheet headers = Ok es
        ∧ ∀ i row header,
            sheet !! i = Some row → header ∈ headers →
            row !! header = Some "" →
            missing_value_error table (i + 2) header ∈ es.
Proof.
  intros Hsheet. unfold contents_errors.
  destruct (collect_Ok
              (λ '(row_number, row),
                 collect (cell_errors table row_number row) headers)
              (enumerate sheet _ROW_START_INDEX)) as [es Hes].
  { apply Forall_forall. intros [n row] (i & -> & Hi)%enumerate_elem.
    rewrite Forall_forall in Hsheet.
    destruct (row_errors_exposed table (_ROW_START_INDEX + i) row headers)
      as (es & Hes & _); [|by eexists].
    apply Hsheet. by eapply list_elem_of_lookup_2. }
  exists es. split; [done|]. intros i row header Hi Hin Hempty.
  apply (collect_elem _ _ _ _ Hes). exists (i + 2, row).
  rewrite Forall_forall in Hsheet.
  destruct (row_errors_exposed table (i + 2) row headers) as (es' & Hes' & Hmem).
  { apply Hsheet. by eapply list_elem_of_lookup_2. }
  exists es'. split; [|by auto].
  apply enumerate_elem. exists i. split; [unfold _ROW_START_INDEX; lia|done].
Qed.

Lemma fields_errors_total ps : ∃ es, fields_errors ps = Ok es.
Proof.
  unfold fields_errors. apply collect_Ok, Forall_forall. intros; by eexists.
Qed.

Lemma check_connection_exposed codes acc row_number (connection : Row)
    source target :
  connection !! SOURCE_ENTITY_CODE = Some source →
  connection !! TARGET_ENTITY_CODE = Some target →
  check_connection codes acc (row_number, connection)
  = Ok (acc ++ connection_errors codes row_number source target).
Proof.
  intros Hsource Htarget. unfold check_connection, connection_errors.
  rewrite (subscript_Some _ _ _ Hsource), (subscript_Some _ _ _ Htarget).
  simpl. repeat case_bool_decide; simpl;
    rewrite ?(subscript_Some _ _ _ Hsource), ?(subscript_Some _ _ _ Htarget);
    simpl; by rewrite <- ?app_assoc, ?app_nil_r.
Qed.

Lemma mapM_subscript_exposed (sheet : list Row) key :
  Forall (exposes [key]) sheet →
  ∃ codes, mapM (λ row : Row, subscript row key) sheet = Ok codes.
Proof.
  induction 1 as [|row sheet Hrow _ [codes IH]]; [by eexists|].
  apply Forall_cons in Hrow as [[code Hcode] _].
  rewrite mapM_Result_cons, (subscript_Some _ _ _ Hcode), IH. by eexists.
Qed.

Lemma ValidateConnections_exposed ps sites entities connections :
  ps !! SITES = Some sites →
  ps !! ENTITIES = Some entities →
  ps !! CONNECTIONS = Some connections →
  Forall (exposes [BUILDING_CODE]) sites →
  Forall (exposes [ENTITY_CODE]) entities →
  Forall (exposes [SOURCE_ENTITY_CODE; TARGET_ENTITY_CODE]) connections →
  ∃ es, _ValidateConnections ps = Ok es.
Proof.
  intros Hsites Hentities Hconnections Hs He Hc. unfold _ValidateConnections.
  rewrite (subscript_Some _ _ _ Hsites), (subscript_Some _ _ _ Hentities),
    (subscript_Some _ _ _ Hconnections). simpl.
  destruct (mapM_subscript_exposed _ _ He) as [ecodes ->].
  destruct (mapM_subscript_exposed _ _ Hs) as [bcodes ->]. simpl.
  set (codes := _ ∪ _). clear Hconnections.
  generalize (@nil SpreadsheetError). generalize _ROW_START_INDEX.
  induction Hc as [|connection connections Hrow _ IH]; intros n acc;
    cbn [foldM enumerate]; [by eexists|].
  apply Forall_cons in Hrow as [[source Hsource] Hrow].
  apply Forall_cons in Hrow as [[target Htarget] _].
  rewrite (check_connection_exposed _ _ _ _ _ _ Hsource Htarget). simpl.
  apply IH.
Qed.

Lemma ValidateEntityCodes_exposes sheet es :
  _ValidateEntityCodes sheet = Ok es → Forall (exposes [ENTITY_CODE]) sheet.
Proof.
  unfold _ValidateEntityCodes. intros Hrun.
  destruct (mapM _ sheet) as [codes|] eqn:Hcodes; [clear Hrun|by simpl in Hrun].
  revert codes Hcodes. induction sheet as [|row sheet IH]; intros codes;
    [constructor|].
  rewrite mapM_Result_cons.
  destruct (row !! ENTITY_CODE) as [code|] eqn:Hcode;
    [rewrite (subscript_Some _ _ _ Hcode)
    |by rewrite (subscript_None _ _ Hcode)].
  simpl. destruct (mapM _ sheet) as [codes'|]; simpl; [|done]. intros _.
  constructor; [|by eapply IH]. by repeat constructor.
Qed.

End content_facts.

Section end_to_end.
Context `{!Constants}.

Lemma collect_nil {A : Type} (f : A → Result (list SpreadsheetError)) l :
  Forall (λ x, f x = Ok []) l → collect f l = Ok [].
Proof. induction 1 as [|x l Hx _ IH]; simpl; [done|]. by rewrite Hx, IH. Qed.

Lemma init_bound path world : bound (__init__ path world).
Proof. unfold bound. simpl. lia. Qed.

Lemma structural_errors_clean entities params :
  _ValidateEntityCodes entities = Ok [] →
  ValidateFacilitiesGuids entities = Ok [] →
  Forall (λ '(table, parsed_sheet, _, column_headers),
            _ValidateHeaders table parsed_sheet column_headers = []) params →
  structural_errors entities params = Ok [].
Proof.
  intros Hcodes Hguids Hheaders. unfold structural_errors, both.
  rewrite Hcodes, Hguids. simpl. rewrite collect_nil; [done|].
  eapply Forall_impl; [exact Hheaders|].
  by intros [[[table parsed_sheet] required] column_headers] ->.
Qed.

Lemma tables_contents_exposed
    (params : list (string * list Row * list string * list string)) :
  Forall (λ '(_, parsed_sheet, required, _),
            Forall (exposes required) parsed_sheet) params →
  ∃ es,
    collect (λ '(table, parsed_sheet, col_headers_values, _),
               contents_errors table parsed_sheet col_headers_values) params
    = Ok es
    ∧ ∀ table sheet required all i row header,
        (table, sheet, required, all) ∈ params →
        sheet !! i = Some row → header ∈ required →
        row !! header = Some "" →
        missing_value_error table (i + 2) header ∈ es.
Proof.
  intros Hparams.
  destruct (collect_Ok
              (λ '(table, parsed_sheet, col_headers_values, _),
                 contents_errors table parsed_sheet col_headers_values)
              params) as [es Hes].
  { eapply Forall_impl; [exact Hparams|].
    intros [[[table sheet] required] all] Hsheet.
    destruct (contents_errors_exposed table sheet required Hsheet)
      as (es & Hes & _). by eexists. }
  exists es. split; [done|].
  intros table sheet required all i row header Hin Hi Hheader Hempty.
  apply (collect_elem _ _ _ _ Hes). exists (table, sheet, required, all).
  rewrite Forall_forall in Hparams. specialize (Hparams _ Hin). simpl in Hparams.
  destruct (contents_errors_exposed table sheet required Hparams)
    as (es' & Hes' & Hmem).
  exists es'. eauto.
Qed.

(** C1, as the code has it. On a freshly constructed validator and a
    spreadsheet with the five tables, such that the duplicate-code check, the
    facilities-identifier check and the five header checks produce no error,
    and such that every row exposes the columns the content phase indexes
    (the required headers of its table, the four field columns, the building
    code, the two connection codes): if row [i] of a table has the empty
    string in a required column, [Validate] returns false and the errors of
    the instance contain the [MissingSpreadsheetValueError] of that table,
    row index [i + 2] and column. *)
Theorem Validate_reports_missing_value path world ps
    sites entities fields states connections
    table sheet required all i row header :
  ps !! SITES = Some sites →
  ps !! ENTITIES = Some entities →
  ps !! ENTITY_FIELDS = Some fields →
  ps !! STATES = Some states →
  ps !! CONNECTIONS = Some connections →
  let validation_parameters :=
    validation_parameters_of sites entities fields states connections in
  _ValidateEntityCodes entities = Ok [] →
  ValidateFacilitiesGuids entities = Ok [] →
  Forall (λ '(table, parsed_sheet, _, column_headers),
            _ValidateHeaders table parsed_sheet column_headers = [])
         validation_parameters →
  Forall (λ '(_, parsed_sheet, required, _),
            Forall (exposes required) parsed_sheet) validation_parameters →
  Forall (exposes field_columns) fields →
  Forall (exposes [BUILDING_CODE]) sites →
  Forall (exposes [SOURCE_ENTITY_CODE; TARGET_ENTITY_CODE]) connections →
  (table, sheet, required, all) ∈ validation_parameters →
  sheet !! i = Some row →
  header ∈ required →
  row !! header = Some "" →
  ∃ s',
    Validate ps (__init__ path world) = (Ok false, s')
    ∧ MissingSpreadsheetValueError table (i + 2) header
        (table +:+ " entry must have a " +:+ header) ∈ self_errors s'.
Proof.
  intros Hsites Hentities Hfields Hstates Hconnections params
    Hcodes Hguids Hheaders Hrows Hfield_rows Hsite_rows Hconnection_rows
    Hin Hi Hheader Hempty.
  pose proof (Validate_run ps (__init__ path world) sites entities fields
                states connections (init_bound path world) Hsites Hentities
                Hfields Hstates Hconnections) as Hrun.
  simpl in Hrun. fold params in Hrun.
  rewrite (structural_errors_clean _ _ Hcodes Hguids Hheaders) in Hrun.
  change (self_errors (__init__ path world)) with (@nil SpreadsheetError) in Hrun.
  simpl in Hrun.
  destruct (tables_contents_exposed params Hrows) as (ec & Hec & Hmem).
  destruct (fields_errors_total ps) as [ef Hef].
  pose proof (ValidateStatesAcrossSheets_exposed ps) as Hes.
  rewrite Hfields in Hes. specialize (Hes Hfield_rows).
  destruct (ValidateConnections_exposed ps sites entities connections)
    as [en Hen]; try done.
  { by eapply ValidateEntityCodes_exposes. }
  unfold content_errors, both in Hrun. rewrite Hec, Hef, Hes, Hen in Hrun.
  simpl in Hrun. destruct Hrun as (s' & Hrun & _ & Hself & _).
  specialize (Hmem _ _ _ _ _ _ _ Hin Hi Hheader Hempty).
  exists s'. rewrite Hrun, Hself. split.
  - rewrite bool_decide_eq_false_2; [done|].
    intros Hnil. apply app_eq_nil in Hnil as [-> _].
    by apply elem_of_nil in Hmem.
  - apply elem_of_app. by left.
Qed.

(** *** Errors left over from an earlier call *)

Lemma table_keys_cases (ps : Spreadsheet) :
  (∃ sites entities fields states connections,
     ps !! SITES = Some sites ∧ ps !! ENTITIES = Some entities
     ∧ ps !! ENTITY_FIELDS = Some fields ∧ ps !! STATES = Some states
     ∧ ps !! CONNECTIONS = Some connections)
  ∨ (∃ key, key ∈ table_keys ∧ ps !! key = None).
Proof.
  unfold table_keys.
  destruct (ps !! SITES) eqn:?; [|right; exists SITES; split; [membership|done]].
  destruct (ps !! ENTITIES) eqn:?; [|right; exists ENTITIES; split; [membership|done]].
  destruct (ps !! ENTITY_FIELDS) eqn:?;
    [|right; exists ENTITY_FIELDS; split; [membership|done]].
  destruct (ps !! STATES) eqn:?; [|right; exists STATES; split; [membership|done]].
  destruct (ps !! CONNECTIONS) eqn:?;
    [|right; exists CONNECTIONS; split; [membership|done]].
  left. by repeat eexists.
Qed.

(** With errors already held by the instance, no spreadsheet validates. *)
Lemma Validate_rejects_after_errors ps s b s' :
  bound s → self_errors s ≠ [] → Validate ps s = (Ok b, s') → b = false.
Proof.
  intros Hb Hpending Hrun.
  destruct (table_keys_cases ps)
    as [(sites & entities & fields & states & connections
         & Hsites & Hentities & Hfields & Hstates & Hconnections)|Hmissing].
  - pose proof (Validate_run ps s sites entities fields states connections
                  Hb Hsites Hentities Hfields Hstates Hconnections) as Hspec.
    simpl in Hspec. destruct (structural_errors _ _) as [es1|e].
    + destruct (decide (self_errors s ++ es1 = [])) as [Hnil|Hne].
      * by apply app_eq_nil in Hnil as [? _].
      * destruct Hspec as (s'' & Hrun' & _). congruence.
    + rewrite Hrun in Hspec. done.
  - destruct (Validate_missing_key ps s Hmissing) as (key & _ & _ & Hraise).
    congruence.
Qed.

End end_to_end.

Section instance_state.
Context `{!Constants}.

Lemma uniform_spreadsheet_lookup sheet key :
  key ∈ table_keys → uniform_spreadsheet sheet !! key = Some sheet.
Proof.
  intros Hkey. apply lookup_gset_to_gmap_Some.
  split; [by apply elem_of_list_to_set|done].
Qed.

Lemma uniform_row_lookup value key :
  key ∈ [ENTITY_CODE; BC_GUID; NAMESPACE] →
  uniform_row value !! key = Some value.
Proof.
  intros Hkey. apply lookup_gset_to_gmap_Some.
  split; [by apply elem_of_list_to_set|done].
Qed.

Lemma uniform_spreadsheet_tables sheet :
  uniform_spreadsheet sheet !! SITES = Some sheet
  ∧ uniform_spreadsheet sheet !! ENTITIES = Some sheet
  ∧ uniform_spreadsheet sheet !! ENTITY_FIELDS = Some sheet
  ∧ uniform_spreadsheet sheet !! STATES = Some sheet
  ∧ uniform_spreadsheet sheet !! CONNECTIONS = Some sheet.
Proof.
  repeat split; apply uniform_spreadsheet_lookup; unfold table_keys;
    membership.
Qed.

Lemma structural_errors_empty :
  structural_errors [] (validation_parameters_of [] [] [] [] []) = Ok [].
Proof. apply structural_errors_clean; try done. by repeat constructor. Qed.

Lemma content_errors_empty :
  content_errors (uniform_spreadsheet [])
    (validation_parameters_of [] [] [] [] []) = Ok [].
Proof.
  destruct (uniform_spreadsheet_tables []) as (Hs & He & Hf & Ht & Hc).
  unfold content_errors, fields_errors, _ValidateStatesAcrossSheets,
    _ValidateConnections.
  rewrite (subscript_Some _ _ _ Hs), (subscript_Some _ _ _ He),
    (subscript_Some _ _ _ Hc), He, Hf, Ht.
  done.
Qed.

Lemma structural_errors_duplicate params :
  ∃ es, structural_errors [uniform_row "x"; uniform_row "x"] params
        = Ok (duplicate_code_error "x" :: es).
Proof.
  unfold structural_errors, both.
  rewrite (ValidateEntityCodes_codes _ ["x"; "x"])
    by (simpl; rewrite uniform_row_lookup by membership; done).
  assert (ValidateFacilitiesGuids [uniform_row "x"; uniform_row "x"] = Ok [])
    as ->.
  { unfold ValidateFacilitiesGuids. cbn [foldM enumerate].
    rewrite !(subscript_Some _ BC_GUID "x")
      by (apply uniform_row_lookup; membership).
    done. }
  destruct (collect_Ok
              (λ '(table, parsed_sheet, _, column_headers),
                 Ok (_ValidateHeaders table parsed_sheet column_headers))
              params) as [hs ->].
  { apply Forall_forall. intros [[[??]?]?] _. by eexists. }
  by eexists.
Qed.

(** C10. The result of [Validate] is not a function of the spreadsheet alone:
    there is a spreadsheet [ps] on which a fresh validator returns true, and a
    spreadsheet [bad] on which a fresh validator returns false leaving a
    [DuplicateCodeError] in the instance's error list, such that [Validate ps]
    on that same instance then returns false. *)
Theorem Validate_depends_on_instance_state path world :
  ∃ ps bad s1,
    (Validate ps (__init__ path world)).1 = Ok true
    ∧ Validate bad (__init__ path world) = (Ok false, s1)
    ∧ duplicate_code_error "x" ∈ self_errors s1
    ∧ (Validate ps s1).1 = Ok false.
Proof.
  set (ps := uniform_spreadsheet []).
  set (row := uniform_row "x").
  set (bad := uniform_spreadsheet [row; row]).
  destruct (uniform_spreadsheet_tables []) as (Hs & He & Hf & Ht & Hc).
  destruct (uniform_spreadsheet_tables [row; row])
    as (Hs' & He' & Hf' & Ht' & Hc').
  assert (∀ s, bound s →
            ∃ s', Validate ps s = (Ok (bool_decide (self_errors s = [])), s')) as Hgood.
  { intros s Hb.
    pose proof (Validate_run ps s [] [] [] [] [] Hb Hs He Hf Ht Hc) as Hrun.
    cbv zeta in Hrun. rewrite structural_errors_empty, app_nil_r in Hrun.
    destruct (decide (self_errors s = [])) as [Hnil|Hne].
    - rewrite bool_decide_eq_true_2 by done.
      unfold ps in Hrun. rewrite content_errors_empty in Hrun.
      destruct Hrun as (s' & Hrun & _). by exists s'.
    - rewrite bool_decide_eq_false_2 by done.
      destruct Hrun as (s' & Hrun & _). by exists s'. }
  pose proof (Validate_run bad (__init__ path world) [row; row] [row; row]
                [row; row] [row; row] [row; row] (init_bound path world)
                Hs' He' Hf' Ht' Hc')
    as Hbad.
  cbv zeta in Hbad.
  destruct (structural_errors_duplicate
              (validation_parameters_of [row; row] [row; row] [row; row]
                 [row; row] [row; row])) as [es Hes].
  fold row in Hes. rewrite Hes in Hbad.
  change (self_errors (__init__ path world)) with (@nil SpreadsheetError) in Hbad.
  simpl in Hbad. destruct Hbad as (s1 & Hrun1 & Hb1 & Hself1 & _).
  exists ps, bad, s1. split; [|split; [done|split]].
  - destruct (Hgood _ (init_bound path world)) as [s' ->]. done.
  - rewrite Hself1. apply list_elem_of_here.
  - destruct (Hgood s1 Hb1) as [s' ->]. simpl.
    rewrite bool_decide_eq_false_2; [done|]. by rewrite Hself1.
Qed.

End instance_state.

(** Closed goals over concrete spreadsheets: list structure by the
    constructors, lookups by conversion, runs of the validators by
    evaluation. *)
Ltac concrete :=
  repeat first [ apply Forall_nil | apply Forall_cons; split ];
  lazymatch goal with
  | |- is_Some _ => eexists; reflexivity
  | |- _ ∈ _ =>
      repeat first [ apply list_elem_of_here | apply list_elem_of_further ]
  | |- _ !! _ = _ => reflexivity
  | |- _ => vm_compute; reflexivity
  end.

Section concrete.
#[local] Existing Instance abel_constants.

Example Validate_consistent :
  (Validate consistent_spreadsheet (__init__ "abel.log" ∅)).1 = Ok true.
Proof. by vm_compute. Qed.

Example ValidateEntityCodes_repeated_codes :
  _ValidateEntityCodes
    ((λ code, entity_row code "guid" "HVAC")
       <$> ["A"; "B"; "A"; "C"; "B"; "B"])
  = Ok [DuplicateCodeError "A"
          "Entity Code: A is defined more than once in Entities table.";
        DuplicateCodeError "B"
          "Entity Code: B is defined more than once in Entities table."].
Proof. concrete. Qed.

Example Validate_blank_code :
  let run := Validate blank_code_spreadsheet (__init__ "abel.log" ∅) in
  run.1 = Ok false
  ∧ self_errors run.2 = [missing_value_error "Site" 2 "Building Code"].
Proof. split; concrete. Qed.

(** C1 fails as stated. The structural checks produce no error on the ragged
    spreadsheet and its first Sites row has an empty building code, yet
    [Validate] raises [KeyError] at the second Sites row instead of returning
    false. And on an instance that still holds the error of an earlier call,
    [Validate] of the blank-code spreadsheet returns false without any
    [MissingSpreadsheetValueError] in the list. *)
Lemma Validate_missing_value_counterexample :
  let sites := [site_row "" "Zurich"; ∅] in
  let validation_parameters :=
    validation_parameters_of sites sample_entities
      [field_row "temp" "t_raw" "E1" "E2"] [state_row "E1" "temp"]
      [connection_row "B1" "E1"] in
  (_ValidateEntityCodes sample_entities = Ok []
   ∧ ValidateFacilitiesGuids sample_entities = Ok []
   ∧ Forall (λ '(table, parsed_sheet, _, column_headers),
               _ValidateHeaders table parsed_sheet column_headers = [])
            validation_parameters)
  ∧ (("Site", sites, REQUIRED_SITE_HEADERS, ALL_SITE_HEADERS)
       ∈ validation_parameters
     ∧ sites !! 0 = Some (site_row "" "Zurich")
     ∧ "Building Code" ∈ REQUIRED_SITE_HEADERS
     ∧ site_row "" "Zurich" !! "Building Code" = Some "")
  ∧ (Validate ragged_spreadsheet (__init__ "abel.log" ∅)).1
    = Raise (KeyError "Building Code")
  ∧ (let s1 := (Validate duplicate_spreadsheet (__init__ "abel.log" ∅)).2 in
     (Validate blank_code_spreadsheet s1).1 = Ok false
     ∧ self_errors (Validate blank_code_spreadsheet s1).2
       = [duplicate_code_error "E1"]).
Proof.
  intros sites validation_parameters.
  split; [|split; [|split; [|split]]].
  - split; [|split]; unfold validation_parameters; concrete.
  - split; [|split; [|split]]; unfold validation_parameters; concrete.
  - concrete.
  - concrete.
  - concrete.
Qed.

(** C2, at the failing input: for the first row of the Entities sheet
    [ValidateFacilitiesGuids] reports row index 0, not 2, while
    [_ValidateStatesAcrossSheets] reports row index 2 for the first row of
    the States sheet. *)
Theorem ValidateFacilitiesGuids_row_index_starts_at_0 :
  ValidateFacilitiesGuids [entity_row "E1" "" "FACILITIES"]
  = Ok [MissingSpreadsheetValueError "Entities" 0 "Entity Guid"
          "E1 in FACILITIES namespace must have a guid obtained through DB API export building config operation."]
  ∧ _ValidateStatesAcrossSheets
      (spreadsheet_of [("States", [state_row "E1" "temp"])])
    = Ok [CrossSheetDependencyError "States" "Entity Fields" 2
            "Standard Field Name" (Some "temp")].
Proof. split; concrete. Qed.

(** C3, at the failing input: the source code [B1] is a building code and the
    target code [X] is in neither table; the single
    [ConnectionDependencyError] carries the source [B1] as its missing code
    and the target [X] as its present code. *)
Theorem ValidateConnections_missing_target_reports_source :
  _ValidateConnections
    (spreadsheet_of [("Site", [site_row "B1" "Zurich"]);
                     ("Entities", []);
                     ("Connections", [connection_row "B1" "X"])])
  = Ok [ConnectionDependencyError 2 "B1" "X"].
Proof. concrete. Qed.

End concrete.

Section facilities_facts.
Context `{!Constants}.

Lemma ValidateFacilitiesGuids_collect sheet :
  ValidateFacilitiesGuids sheet = collect guid_errors (enumerate sheet 0).
Proof.
  unfold ValidateFacilitiesGuids. rewrite (foldM_collect guid_errors).
  - by destruct (collect _ _).
  - intros acc [row_number row]. unfold guid_errors.
    destruct (subscript row BC_GUID) as [guid|]; simpl; [|done].
    destruct (not_str guid); simpl; [|by rewrite app_nil_r].
    destruct (subscript row NAMESPACE) as [namespace|]; simpl; [|done].
    case_bool_decide; simpl; [|by rewrite app_nil_r].
    by destruct (subscript row ENTITY_CODE).
Qed.

(** Every error of [ValidateFacilitiesGuids] carries the position of its row
    counted from 0. *)
Lemma ValidateFacilitiesGuids_rows sheet errors e :
  ValidateFacilitiesGuids sheet = Ok errors → e ∈ errors →
  ∃ i row, sheet !! i = Some row ∧ error_row e = Some i
           ∧ row !! BC_GUID = Some "".
Proof.
  rewrite ValidateFacilitiesGuids_collect. intros Hrun He.
  apply (collect_elem _ _ _ _ Hrun) in He
    as ([n row] & es & (i & -> & Hi)%enumerate_elem & Hes & He).
  exists i, row. split; [done|]. unfold guid_errors, subscript in Hes.
  destruct (row !! BC_GUID) as [guid|]; simpl in Hes; [|done].
  unfold not_str in Hes. case_bool_decide; subst; simpl in Hes;
    [|injection Hes as <-; by apply elem_of_nil in He].
  destruct (row !! NAMESPACE); simpl in Hes; [|done].
  case_bool_decide; simpl in Hes;
    [|injection Hes as <-; by apply elem_of_nil in He].
  destruct (row !! ENTITY_CODE); simpl in Hes; [|done].
  injection Hes as <-. by apply list_elem_of_singleton in He as ->.
Qed.

End facilities_facts.

Section row_indices.
Context `{!Constants}.

(** Every error of [_ValidateFieldsAcrossSheets] carries the position of its
    row plus 2. *)
Lemma fields_errors_rows ps es e :
  fields_errors ps = Ok es → e ∈ es →
  ∃ i field, default [] (ps !! ENTITY_FIELDS) !! i = Some field
             ∧ error_row e = Some (i + 2).
Proof.
  unfold fields_errors. intros Hrun He.
  apply (collect_elem _ _ _ _ Hrun) in He
    as ([n field] & es' & (i & -> & Hi)%enumerate_elem & [= <-] & He).
  exists i, field. split; [done|]. rewrite (Nat.add_comm i 2).
  unfold field_errors in He. apply elem_of_app in He as [He|He];
    case_bool_decide; try (by apply elem_of_nil in He);
    by apply list_elem_of_singleton in He as ->.
Qed.

Lemma check_connection_acc codes acc item :
  check_connection codes acc item
  = (e ← check_connection codes [] item; Ok (acc ++ e)).
Proof.
  destruct item as [row_number connection]. unfold check_connection.
  destruct (subscript connection SOURCE_ENTITY_CODE) as [source|]; simpl;
    [|done].
  destruct (subscript connection TARGET_ENTITY_CODE) as [target|]; simpl;
    repeat case_bool_decide; simpl; try done;
    by rewrite <- ?app_assoc, ?app_nil_r.
Qed.

(** Every error of [_ValidateConnections] carries the position of its row
    plus 2, the source code of the row as missing code and its target code as
    present code, whichever side failed the membership test. *)
Lemma ValidateConnections_errors ps connections es e :
  ps !! CONNECTIONS = Some connections →
  _ValidateConnections ps = Ok es → e ∈ es →
  ∃ i connection source target,
    connections !! i = Some connection
    ∧ connection !! SOURCE_ENTITY_CODE = Some source
    ∧ connection !! TARGET_ENTITY_CODE = Some target
    ∧ e = ConnectionDependencyError (i + 2) source target.
Proof.
  intros Hconnections. unfold _ValidateConnections.
  rewrite (subscript_Some _ _ _ Hconnections). simpl.
  destruct (subscript ps ENTITIES) as [entities|]; simpl; [|done].
  destruct (subscript ps SITES) as [sites|]; simpl; [|done].
  destruct (mapM _ entities) as [entity_codes|]; simpl; [|done].
  destruct (mapM _ sites) as [building_codes|]; simpl; [|done].
  set (codes := _ ∪ _).
  rewrite (foldM_collect (check_connection codes []))
    by apply check_connection_acc.
  destruct (collect _ _) as [es'|] eqn:Hrun; simpl; [|done].
  intros [= <-] He.
  apply (collect_elem _ _ _ _ Hrun) in He
    as ([n connection] & es & (i & -> & Hi)%enumerate_elem & Hes & He).
  exists i, connection. unfold check_connection, subscript in Hes.
  destruct (connection !! SOURCE_ENTITY_CODE) as [source|]; simpl in Hes;
    [|done].
  destruct (connection !! TARGET_ENTITY_CODE) as [target|]; simpl in Hes;
    [|by case_bool_decide].
  exists source, target. repeat split; try done.
  rewrite (Nat.add_comm i 2).
  repeat case_bool_decide; simpl in Hes; injection Hes as <-;
    repeat (apply elem_of_cons in He as [->|He]; [done|]);
    by apply elem_of_nil in He.
Qed.

End row_indices.

(** ** Instances of the theorems on concrete spreadsheets *)

Lemma Validate_reports_missing_value_witness :
  ∃ s',
    Validate (H := abel_constants) blank_code_spreadsheet
      (__init__ "abel.log" ∅) = (Ok false, s')
    ∧ MissingSpreadsheetValueError "Site" 2 "Building Code"
        "Site entry must have a Building Code" ∈ self_errors s'.
Proof.
  apply (Validate_reports_missing_value (H := abel_constants)
           "abel.log" ∅ blank_code_spreadsheet
           [site_row "" "Zurich"; site_row "B1" "Zurich"] sample_entities
           [field_row "temp" "t_raw" "E1" "E2"] [state_row "E1" "temp"]
           [connection_row "B1" "E1"]
           "Site" [site_row "" "Zurich"; site_row "B1" "Zurich"]
           ["Building Code"] ["Building Code"; "City"]
           0 (site_row "" "Zurich") "Building Code");
    unfold exposes; concrete.
Defined.

Lemma ValidateHeaders_absent_header_witness :
  length (filter (λ e, header_of e = Some "City")
            (_ValidateHeaders "Site" [row_of [("Building Code", "B1")]; ∅]
               ["Building Code"; "City"])) = 1.
Proof.
  apply (ValidateHeaders_absent_header "Site"
           [row_of [("Building Code", "B1")]; ∅]
           ["Building Code"; "City"] "City"); concrete.
Defined.

Lemma ValidateStatesAcrossSheets_cardinality_witness :
  ∃ errors,
    _ValidateStatesAcrossSheets (H := abel_constants) consistent_spreadsheet
    = Ok errors
    ∧ ∀ i state,
        default [] (consistent_spreadsheet !! "States") !! i = Some state →
        filter (λ e, error_row e = Some (i + 2)) errors
        = if decide (dependency_count (H := abel_constants) state
                       (default [] (consistent_spreadsheet !! "Entity Fields"))
                     = 1)
          then []
          else [CrossSheetDependencyError "States" "Entity Fields" (i + 2)
                  "Standard Field Name" (state !! "Standard Field Name")].
Proof.
  apply (ValidateStatesAcrossSheets_cardinality (H := abel_constants)
           consistent_spreadsheet).
  unfold exposes, field_columns. concrete.
Defined.

Lemma ValidateEntityCodes_one_error_per_duplicate_witness :
  let codes := ["A"; "B"; "A"; "C"; "B"; "B"] in
  ∃ duplicates,
    _ValidateEntityCodes (H := abel_constants)
      ((λ code, entity_row code "guid" "HVAC") <$> codes)
    = Ok ((λ code,
             DuplicateCodeError code
               ("Entity Code: " +:+ code +:+ " is defined more than once in "
                  +:+ "Entities" +:+ " table.")) <$> duplicates)
    ∧ NoDup duplicates
    ∧ (∀ code, code ∈ duplicates ↔ 1 < count_code code codes)
    ∧ (codes = ["A"; "B"; "A"; "C"; "B"; "B"] → duplicates = ["A"; "B"]).
Proof.
  apply (ValidateEntityCodes_one_error_per_duplicate (H := abel_constants)).
  reflexivity.
Defined.

Lemma Validate_missing_table_raises_witness :
  ∃ key s',
    key ∈ table_keys (H := abel_constants)
    ∧ spreadsheet_of [("Site", [site_row "B1" "Zurich"])] !! key = None
    ∧ Validate (H := abel_constants)
        (spreadsheet_of [("Site", [site_row "B1" "Zurich"])])
        (__init__ "abel.log" ∅) = (Raise (KeyError key), s')
    ∧ self_errors s' = self_errors (__init__ "abel.log" ∅).
Proof.
  apply (Validate_missing_table_raises (H := abel_constants)).
  exists "Entities". split; [|reflexivity].
  apply list_elem_of_further, list_elem_of_here.
Defined.

(** * Further properties of the validators *)

(** ** Entity codes *)

Section code_order.
Context `{!Constants}.

Lemma mapM_subscript_raises (sheet : list Row) key :
  (∃ row, row ∈ sheet ∧ row !! key = None) →
  mapM (λ row : Row, subscript row key) sheet = Raise (KeyError key).
Proof.
  intros (row & Hin & Hnone).
  induction sheet as [|row' sheet IH]; [by apply elem_of_nil in Hin|].
  rewrite mapM_Result_cons.
  destruct (row' !! key) as [code|] eqn:Hcode.
  - rewrite (subscript_Some _ _ _ Hcode). simpl.
    apply elem_of_cons in Hin as [->|Hin]; [congruence|].
    by rewrite (IH Hin).
  - by rewrite (subscript_None _ _ Hcode).
Qed.

(** X1. [_ValidateEntityCodes]: when some row of the Entities sheet has no
    entity code column, the validator raises [KeyError] for that column; it
    returns no error list. *)
Theorem ValidateEntityCodes_missing_code (sheet : list Row) :
  (∃ row, row ∈ sheet ∧ row !! ENTITY_CODE = None) →
  _ValidateEntityCodes sheet = Raise (KeyError ENTITY_CODE).
Proof.
  intros Hmissing. unfold _ValidateEntityCodes.
  by rewrite (mapM_subscript_raises _ _ Hmissing).
Qed.

Lemma counter_incr_keys code c :
  (counter_incr code c).*1
  = if decide (code ∈ c.*1) then c.*1 else c.*1 ++ [code].
Proof.
  induction c as [|[k n] c IH]; [done|]. cbn [counter_incr].
  destruct (decide (k = code)) as [->|Hne]; rewrite !fmap_cons; cbn [fst].
  - rewrite decide_True; [done|]. apply list_elem_of_here.
  - rewrite IH. destruct (decide (code ∈ c.*1)) as [Hin|Hnin].
    + rewrite decide_True; [done|]. by apply list_elem_of_further.
    + rewrite decide_False; [done|].
      rewrite not_elem_of_cons. split; [congruence|done].
Qed.

Lemma filter_filter_absent (x : string) (keys l : list string) :
  x ∈ keys →
  filter (λ y, y ∉ keys) (filter (λ y, y ≠ x) l) = filter (λ y, y ∉ keys) l.
Proof.
  intros Hx. induction l as [|y l IH]; [done|].
  rewrite (filter_cons (λ y, y ≠ x)).
  destruct (decide (y ≠ x)) as [Hne|Heq].
  - rewrite !filter_cons. case_decide; by rewrite IH.
  - apply dec_stable in Heq as ->. rewrite IH, filter_cons.
    rewrite decide_False; [done|]. by intros Hn.
Qed.

Lemma filter_absent_snoc (x : string) (keys l : list string) :
  filter (λ y, y ∉ keys ++ [x]) l
  = filter (λ y, y ∉ keys) (filter (λ y, y ≠ x) l).
Proof.
  induction l as [|y l IH]; [done|].
  rewrite (filter_cons (λ y, y ≠ x)), filter_cons.
  destruct (decide (y ≠ x)) as [Hne|Heq].
  - rewrite filter_cons.
    destruct (decide (y ∉ keys)) as [Hk|Hk].
    + rewrite decide_True, IH; [done|].
      rewrite elem_of_app, list_elem_of_singleton. tauto.
    + rewrite decide_False, IH; [done|].
      rewrite elem_of_app. tauto.
  - apply dec_stable in Heq as ->. rewrite decide_False, IH; [done|].
    rewrite elem_of_app, list_elem_of_singleton. tauto.
Qed.

Lemma Counter_fold_keys l c :
  (foldl (λ c code, counter_incr code c) c l).*1
  = c.*1 ++ filter (λ y, y ∉ c.*1) (first_occurrences l).
Proof.
  revert c. induction l as [|x l IH]; intros c; simpl.
  - by rewrite app_nil_r.
  - rewrite IH, counter_incr_keys, filter_cons.
    destruct (decide (x ∈ c.*1)) as [Hin|Hnin].
    + rewrite decide_False by (by intros Hn). by rewrite filter_filter_absent.
    + rewrite decide_True by done.
      rewrite <- app_assoc. simpl. by rewrite filter_absent_snoc.
Qed.

Lemma Counter_keys codes : (Counter codes).*1 = first_occurrences codes.
Proof.
  unfold Counter. rewrite Counter_fold_keys. simpl.
  apply filter_all, Forall_forall. intros y _. apply not_elem_of_nil.
Qed.

Lemma filter_ext_in {A : Type} (P Q : A → Prop)
    `{!∀ x, Decision (P x), !∀ x, Decision (Q x)} (l : list A) :
  Forall (λ x, P x ↔ Q x) l → filter P l = filter Q l.
Proof.
  induction 1 as [|x l Hx _ IH]; [done|].
  rewrite !filter_cons, IH.
  destruct (decide (P x)), (decide (Q x)); tauto.
Qed.

Lemma filter_counter_keys (P : nat → Prop) `{!∀ n, Decision (P n)}
    (c : list (string * nat)) :
  NoDup c.*1 →
  (filter (λ item : string * nat, P item.2) c).*1
  = filter (λ k, P (counter_get c k)) c.*1.
Proof.
  induction c as [|[k n] c IH]; [done|]. rewrite fmap_cons. cbn [fst].
  intros [Hk Hnd]%NoDup_cons.
  rewrite !filter_cons. cbn [counter_get snd].
  rewrite (decide_True (P := k = k)) by done.
  rewrite (filter_ext_in (λ k0, P (if decide (k = k0) then n
                                   else counter_get c k0))
             (λ k0, P (counter_get c k0))).
  - destruct (decide (P n)); rewrite ?fmap_cons; cbn [fst]; by rewrite IH.
  - apply Forall_forall. intros k0 Hk0.
    rewrite decide_False; [done|]. by intros ->.
Qed.

Lemma duplicates_of_order codes :
  duplicates_of codes
  = filter (λ code, 1 < count_code code codes) (first_occurrences codes).
Proof.
  unfold duplicates_of.
  pose proof (λ k, Counter_fold codes [] k) as HC. simpl in HC.
  fold (Counter codes) in HC.
  rewrite (filter_counter_keys (λ n, 1 < n)) by (apply (HC ""), NoDup_nil_2).
  rewrite Counter_keys. apply list_filter_iff.
  intros k. by rewrite (proj1 (HC k)).
Qed.

(** X2. [_ValidateEntityCodes]: when every row carries an entity code, the
    errors are the [DuplicateCodeError]s of the codes that occur more than
    once, each once and carrying its code and the message about that code, in
    the order in which these codes first occur in the sheet. *)
Theorem ValidateEntityCodes_first_occurrence_order sheet codes :
  (λ row : Row, row !! ENTITY_CODE) <$> sheet = Some <$> codes →
  _ValidateEntityCodes sheet
  = Ok ((λ code,
           DuplicateCodeError code
             ("Entity Code: " +:+ code +:+ " is defined more than once in "
                +:+ ENTITIES +:+ " table."))
          <$> filter (λ code, 1 < count_code code codes)
                (first_occurrences codes)).
Proof.
  intros Hcodes. rewrite (ValidateEntityCodes_codes _ _ Hcodes).
  by rewrite duplicates_of_order.
Qed.

End code_order.

(** ** Facilities guids, headers, states *)

Section sheet_facts.
Context `{!Constants}.

(** *** [ValidateFacilitiesGuids] *)

(** X3. [ValidateFacilitiesGuids]: when the validator returns, its errors are
    exactly the [MissingSpreadsheetValueError]s of the rows whose guid is the
    empty string and whose namespace is the facilities namespace; the error
    of the row at position [i] carries the row index [i], the guid column and
    the entity code of the row in its message. *)
Theorem ValidateFacilitiesGuids_reports sheet errors e :
  ValidateFacilitiesGuids sheet = Ok errors →
  e ∈ errors ↔
  ∃ i row code,
    sheet !! i = Some row
    ∧ row !! BC_GUID = Some ""
    ∧ row !! NAMESPACE = Some FACILITIES_NAMESPACE
    ∧ row !! ENTITY_CODE = Some code
    ∧ e = MissingSpreadsheetValueError ENTITIES i BC_GUID
            (code +:+ " in " +:+ FACILITIES_NAMESPACE +:+
               " namespace must have a guid obtained through DB API export building config operation.").
Proof.
  rewrite ValidateFacilitiesGuids_collect. intros Hrun.
  rewrite (collect_elem _ _ _ _ Hrun). split.
  - intros ([n row] & es & (i & -> & Hi)%enumerate_elem & Hes & He).
    exists i, row. unfold guid_errors, subscript in Hes.
    destruct (row !! BC_GUID) as [guid|]; simpl in Hes; [|done].
    unfold not_str in Hes. case_bool_decide; subst; simpl in Hes;
      [|injection Hes as <-; by apply elem_of_nil in He].
    destruct (row !! NAMESPACE) as [namespace|]; simpl in Hes; [|done].
    case_bool_decide; subst; simpl in Hes;
      [|injection Hes as <-; by apply elem_of_nil in He].
    destruct (row !! ENTITY_CODE) as [code|]; simpl in Hes; [|done].
    injection Hes as <-. apply list_elem_of_singleton in He as ->.
    by exists code.
  - intros (i & row & code & Hi & Hguid & Hnamespace & Hcode & ->).
    exists (i, row). eexists. split; [|split].
    + apply enumerate_elem. by exists i.
    + unfold guid_errors.
      rewrite (subscript_Some _ _ _ Hguid), (subscript_Some _ _ _ Hnamespace),
        (subscript_Some _ _ _ Hcode). simpl.
      by rewrite bool_decide_eq_true_2.
    + apply list_elem_of_here.
Qed.

(** X4. [ValidateFacilitiesGuids]: when every row has a non-empty guid, the
    validator returns no error, whatever else the rows hold: namespace and
    entity code are only indexed for a row with an empty guid. *)
Theorem ValidateFacilitiesGuids_guids_present (sheet : list Row) :
  Forall (λ row : Row, ∃ guid, row !! BC_GUID = Some guid ∧ guid ≠ "") sheet →
  ValidateFacilitiesGuids sheet = Ok [].
Proof.
  intros Hsheet. rewrite ValidateFacilitiesGuids_collect.
  apply collect_nil, Forall_forall.
  intros [n row] (i & -> & Hi)%enumerate_elem.
  rewrite Forall_forall in Hsheet.
  destruct (Hsheet row) as (guid & Hguid & Hne);
    [by eapply list_elem_of_lookup_2|].
  unfold guid_errors. rewrite (subscript_Some _ _ _ Hguid). simpl.
  unfold not_str. by rewrite bool_decide_eq_false_2.
Qed.

(** *** [_ValidateHeaders] *)

(** X5. [_ValidateHeaders]: on a sheet with at least one row the errors are
    exactly the [SpreadsheetHeaderError]s of the column headers that are not
    keys of the first row, without repetition. *)
Theorem ValidateHeaders_reports table (row : Row) sheet column_headers :
  NoDup (_ValidateHeaders table (row :: sheet) column_headers)
  ∧ ∀ e,
      e ∈ _ValidateHeaders table (row :: sheet) column_headers ↔
      ∃ header,
        header ∈ column_headers ∧ row !! header = None
        ∧ e = SpreadsheetHeaderError table header
                (table +:+ " missing required column header: " +:+ header).
Proof.
  rewrite ValidateHeaders_cons. split.
  - apply NoDup_fmap_2_strong; [|apply NoDup_elements].
    by intros h1 h2 _ _ [= ->].
  - intros e. rewrite list_elem_of_fmap. split.
    + intros (header & -> & [Hin Hnot]%elem_of_elements%elem_of_difference).
      exists header. split; [by apply elem_of_list_to_set in Hin|].
      split; [by apply not_elem_of_dom|done].
    + intros (header & Hin & Hnone & ->). exists header. split; [done|].
      apply elem_of_elements, elem_of_difference.
      split; [by apply elem_of_list_to_set | by apply not_elem_of_dom].
Qed.

(** *** [_ValidateStatesAcrossSheets] *)

Lemma foldM_Result_app {A S : Type} (body : S → A → Result S) acc l1 l2 :
  foldM body acc (l1 ++ l2)
  = (acc' ← foldM body acc l1; foldM body acc' l2).
Proof.
  revert acc. induction l1 as [|x l1 IH]; intros acc; simpl; [done|].
  destruct (body acc x) as [acc'|]; simpl; [apply IH|done].
Qed.

Lemma foldM_Result_cons {A S : Type} (body : S → A → Result S) acc x l :
  foldM body acc (x :: l) = (acc' ← body acc x; foldM body acc' l).
Proof. done. Qed.

Lemma count_field_missing_code entity_code reporting_field_name n
    (field : Row) :
  field !! ENTITY_CODE = None →
  count_field entity_code reporting_field_name n field
  = Raise (KeyError ENTITY_CODE).
Proof. intros Hnone. unfold count_field. by rewrite (subscript_None _ _ Hnone). Qed.

(** X6. [_ValidateStatesAcrossSheets]: with at least one States row, an
    EntityFields row without entity code, all EntityFields rows before it
    exposing the four indexed columns, makes the validator raise [KeyError]
    for the entity code column. *)
Theorem ValidateStatesAcrossSheets_missing_field_code ps state states fields
    j (field : Row) :
  ps !! STATES = Some (state :: states) →
  ps !! ENTITY_FIELDS = Some fields →
  fields !! j = Some field →
  field !! ENTITY_CODE = None →
  Forall (exposes field_columns) (take j fields) →
  _ValidateStatesAcrossSheets ps = Raise (KeyError ENTITY_CODE).
Proof.
  intros Hstates Hfields Hj Hnone Hbefore. unfold _ValidateStatesAcrossSheets.
  rewrite Hstates, Hfields. unfold id. cbn [default from_option enumerate].
  unfold id. rewrite foldM_Result_cons.
  rewrite <- (take_drop_middle fields j field Hj), foldM_Result_app.
  rewrite (num_dependencies_exposed state (take j fields) 0 Hbefore).
  cbn [mbind Result_bind]. rewrite foldM_Result_cons.
  by rewrite (count_field_missing_code _ _ _ _ Hnone).
Qed.

Lemma enumerate_singletons {A : Type} (g : nat → A → SpreadsheetError)
    (l : list A) start :
  mjoin ((λ '(n, x), [g n x]) <$> enumerate l start)
  = imap (λ i x, g (i + start) x) l.
Proof.
  revert start. induction l as [|x l IH]; intros start; [done|].
  cbn [enumerate fmap list_fmap mjoin list_join app imap]. f_equal.
  rewrite IH. apply imap_ext. intros i y _. simpl. f_equal. lia.
Qed.

(** X7. [_ValidateStatesAcrossSheets]: when the spreadsheet has no
    EntityFields table, or an empty one, every States row is reported: the
    errors are one [CrossSheetDependencyError] per States row, in order, the
    row at position [i] with row index [i + 2]. *)
Theorem ValidateStatesAcrossSheets_no_fields ps :
  default [] (ps !! ENTITY_FIELDS) = [] →
  _ValidateStatesAcrossSheets ps
  = Ok (imap (λ i (state : Row),
                CrossSheetDependencyError STATES ENTITY_FIELDS (i + 2)
                  STANDARD_FIELD_NAME (state !! STANDARD_FIELD_NAME))
             (default [] (ps !! STATES))).
Proof.
  intros Hfields. rewrite ValidateStatesAcrossSheets_exposed;
    rewrite Hfields; [|constructor].
  f_equal.
  etrans; [|apply (enumerate_singletons
                     (λ n (state : Row),
                        CrossSheetDependencyError STATES ENTITY_FIELDS n
                          STANDARD_FIELD_NAME (state !! STANDARD_FIELD_NAME)))].
  reflexivity.
Qed.

End sheet_facts.

(** ** Connections *)

Section connection_facts.
Context `{!Constants}.

Lemma mapM_subscript_inv (sheet : list Row) key codes :
  mapM (λ row : Row, subscript row key) sheet = Ok codes →
  (λ row : Row, row !! key) <$> sheet = Some <$> codes.
Proof.
  revert codes. induction sheet as [|row sheet IH]; intros codes.
  - by intros [= <-].
  - rewrite mapM_Result_cons.
    destruct (row !! key) as [code|] eqn:Hcode;
      [rewrite (subscript_Some _ _ _ Hcode)
      |by rewrite (subscript_None _ _ Hcode)].
    simpl. destruct (mapM _ sheet) as [codes'|]; simpl; [|done].
    intros [= <-]. rewrite !fmap_cons, Hcode. f_equal. by apply IH.
Qed.

Lemma ValidateConnections_collect ps sites entities connections
    entity_codes building_codes :
  ps !! SITES = Some sites →
  ps !! ENTITIES = Some entities →
  ps !! CONNECTIONS = Some connections →
  (λ row : Row, row !! ENTITY_CODE) <$> entities = Some <$> entity_codes →
  (λ row : Row, row !! BUILDING_CODE) <$> sites = Some <$> building_codes →
  _ValidateConnections ps
  = collect (check_connection
               (list_to_set entity_codes ∪ list_to_set building_codes) [])
            (enumerate connections _ROW_START_INDEX).
Proof.
  intros Hsites Hentities Hconnections Hecodes Hbcodes.
  unfold _ValidateConnections.
  rewrite (subscript_Some _ _ _ Hsites), (subscript_Some _ _ _ Hentities),
    (subscript_Some _ _ _ Hconnections). simpl.
  rewrite (mapM_subscript _ _ _ Hecodes), (mapM_subscript _ _ _ Hbcodes).
  simpl. rewrite (foldM_collect (check_connection _ []))
    by apply check_connection_acc.
  by destruct (collect _ _).
Qed.

Lemma codes_known entities sites entity_codes building_codes code :
  (λ row : Row, row !! ENTITY_CODE) <$> entities = Some <$> entity_codes →
  (λ row : Row, row !! BUILDING_CODE) <$> sites = Some <$> building_codes →
  code ∈ (list_to_set entity_codes ∪ list_to_set building_codes : gset string)
  ↔ known_code entities sites code.
Proof.
  intros He Hb. unfold known_code. rewrite He, Hb.
  rewrite elem_of_union, !elem_of_list_to_set, !list_elem_of_fmap.
  split; intros [Hin|Hin]; [left|right|left|right];
    first [ by exists code
          | by destruct Hin as (code' & [= ->] & Hin) ].
Qed.

(** X8. [_ValidateConnections]: when every Sites row has a building code,
    every Entities row an entity code and every Connections row both codes,
    the validator returns, and the number of its errors with row index
    [i + 2] is the number of the two codes of the Connections row at position
    [i] that are neither an entity code nor a building code. *)
Theorem ValidateConnections_error_count ps sites entities connections :
  ps !! SITES = Some sites →
  ps !! ENTITIES = Some entities →
  ps !! CONNECTIONS = Some connections →
  Forall (exposes [BUILDING_CODE]) sites →
  Forall (exposes [ENTITY_CODE]) entities →
  Forall (exposes [SOURCE_ENTITY_CODE; TARGET_ENTITY_CODE]) connections →
  ∃ errors,
    _ValidateConnections ps = Ok errors
    ∧ ∀ i (connection : Row) source target,
        connections !! i = Some connection →
        connection !! SOURCE_ENTITY_CODE = Some source →
        connection !! TARGET_ENTITY_CODE = Some target →
        length (filter (λ e, error_row e = Some (i + 2)) errors)
        = (if decide (known_code entities sites source) then 0 else 1)
          + (if decide (known_code entities sites target) then 0 else 1).
Proof.
  intros Hsites Hentities Hconnections Hs He Hc.
  destruct (mapM_subscript_exposed _ _ He) as [entity_codes Hecodes].
  destruct (mapM_subscript_exposed _ _ Hs) as [building_codes Hbcodes].
  apply mapM_subscript_inv in Hecodes, Hbcodes.
  rewrite (ValidateConnections_collect _ _ _ _ _ _ Hsites Hentities
             Hconnections Hecodes Hbcodes).
  set (codes := _ ∪ _).
  set (g := λ n (connection : Row),
              connection_errors codes n
                (default "" (connection !! SOURCE_ENTITY_CODE))
                (default "" (connection !! TARGET_ENTITY_CODE))).
  rewrite (collect_ext _ (λ item, Ok ((λ '(n, connection), g n connection) item))).
  2:{ apply Forall_forall. intros [n connection] (i & -> & Hi)%enumerate_elem.
      rewrite Forall_forall in Hc.
      pose proof (Hc connection (list_elem_of_lookup_2 _ _ _ Hi)) as Hrow.
      apply Forall_cons in Hrow as [[source Hsource] Hrow].
      apply Forall_cons in Hrow as [[target Htarget] _].
      rewrite (check_connection_exposed _ _ _ _ _ _ Hsource Htarget).
      unfold g. by rewrite Hsource, Htarget. }
  rewrite collect_total.
  exists (mjoin ((λ '(n, connection), g n connection)
                   <$> enumerate connections 2)).
  split; [done|].
  intros i connection source target Hi Hsource Htarget.
  rewrite (Nat.add_comm i 2).
  rewrite (filter_row_enumerate g connections 2 i connection); [|..|done].
  - unfold g, connection_errors. rewrite Hsource, Htarget. simpl.
    rewrite length_app.
    assert (∀ code, length (if bool_decide (code ∉ codes)
                            then [ConnectionDependencyError (2 + i) source target]
                            else [])
                    = if decide (known_code entities sites code) then 0 else 1)
      as Hside.
    { intros code. pose proof (codes_known _ _ _ _ code Hecodes Hbcodes).
      case_bool_decide; case_decide; simpl; tauto. }
    by rewrite !Hside.
  - intros n y e. unfold g, connection_errors.
    intros [He'|He']%elem_of_app; case_bool_decide;
      try (by apply elem_of_nil in He');
      by apply list_elem_of_singleton in He' as ->.
Qed.

(** X9. [_ValidateConnections]: when some Entities row has no entity code
    column, the validator raises [KeyError] for that column, also when the
    Connections table is empty. *)
Theorem ValidateConnections_missing_entity_code ps sites entities connections :
  ps !! SITES = Some sites →
  ps !! ENTITIES = Some entities →
  ps !! CONNECTIONS = Some connections →
  (∃ row, row ∈ entities ∧ row !! ENTITY_CODE = None) →
  _ValidateConnections ps = Raise (KeyError ENTITY_CODE).
Proof.
  intros Hsites Hentities Hconnections Hmissing. unfold _ValidateConnections.
  rewrite (subscript_Some _ _ _ Hsites), (subscript_Some _ _ _ Hentities),
    (subscript_Some _ _ _ Hconnections). simpl.
  by rewrite (mapM_subscript_raises _ _ Hmissing).
Qed.

End connection_facts.

(** ** Contents, fields and the log *)

Section list_facts.
Context `{!Constants}.

Lemma preserves_ret {A : Type} (P : Store → Prop) (a : A) :
  preserves P (mret a).
Proof. by intros s. Qed.

Lemma preserves_lift {A : Type} (P : Store → Prop) (r : Result A) :
  preserves P (lift r).
Proof. by intros s. Qed.

Lemma preserves_bind {A B : Type} (P : Store → Prop) (m : M A) (f : A → M B) :
  preserves P m → (∀ a, preserves P (f a)) → preserves P (m ≫= f).
Proof.
  intros Hm Hf s Hs. rewrite run_bind. specialize (Hm s Hs).
  destruct (m s) as [[a|e] s1]; simpl in *; [by apply Hf|done].
Qed.

Lemma preserves_foldM {A S : Type} (P : Store → Prop) (body : S → A → M S)
    acc l :
  (∀ acc x, preserves P (body acc x)) → preserves P (foldM body acc l).
Proof.
  intros Hbody. revert acc. induction l as [|x l IH]; intros acc; simpl.
  - apply preserves_ret.
  - apply preserves_bind; [apply Hbody|]. intros acc'. apply IH.
Qed.

Lemma collect_Ok_inv {A : Type} (f : A → Result (list SpreadsheetError))
    l es x :
  collect f l = Ok es → x ∈ l → ∃ es', f x = Ok es'.
Proof.
  revert es. induction l as [|y l IH]; intros es; simpl.
  - by intros _ ?%elem_of_nil.
  - destruct (f y) as [e1|] eqn:Hy; simpl; [|done].
    destruct (collect f l) as [e2|]; simpl; [|done].
    intros _ [->|Hin]%elem_of_cons; [by eexists|]. by eapply IH.
Qed.

Lemma collect_Raise_inv {A : Type} (f : A → Result (list SpreadsheetError))
    l e :
  collect f l = Raise e → ∃ x, x ∈ l ∧ f x = Raise e.
Proof.
  induction l as [|y l IH]; simpl; [done|].
  destruct (f y) as [e1|e1] eqn:Hy; simpl.
  - destruct (collect f l) as [e2|e2]; simpl; [done|].
    intros [= <-]. destruct (IH eq_refl) as (x & Hin & Hx).
    exists x. split; [by apply list_elem_of_further|done].
  - intros [= <-]. exists y. split; [apply list_elem_of_here|done].
Qed.

Lemma cell_errors_Ok table row_number (row : Row) header es :
  cell_errors table row_number row header = Ok es →
  ∃ value, row !! header = Some value
           ∧ es = if not_str value
                  then [missing_value_error table row_number header] else [].
Proof.
  unfold cell_errors. destruct (row !! header) as [value|] eqn:Hvalue.
  - rewrite (subscript_Some _ _ _ Hvalue). simpl. intros [= <-]. by exists value.
  - by rewrite (subscript_None _ _ Hvalue).
Qed.

Lemma cell_errors_Raise table row_number (row : Row) header e :
  cell_errors table row_number row header = Raise e →
  row !! header = None ∧ e = KeyError header.
Proof.
  unfold cell_errors. destruct (row !! header) as [value|] eqn:Hvalue.
  - by rewrite (subscript_Some _ _ _ Hvalue).
  - rewrite (subscript_None _ _ Hvalue). simpl. by intros [= <-].
Qed.

Lemma cell_errors_elem table row_number (row : Row) headers es e :
  collect (cell_errors table row_number row) headers = Ok es →
  e ∈ es ↔ ∃ header, header ∈ headers ∧ row !! header = Some ""
                     ∧ e = missing_value_error table row_number header.
Proof.
  intros Hes. rewrite (collect_elem _ _ _ e Hes). split.
  - intros (header & es' & Hin & Hcell & He). exists header. split; [done|].
    apply cell_errors_Ok in Hcell as (value & Hvalue & ->).
    unfold not_str in He. case_bool_decide as Hblank.
    + apply list_elem_of_singleton in He. by rewrite Hvalue, Hblank.
    + by apply elem_of_nil in He.
  - intros (header & Hin & Hvalue & ->).
    exists header, [missing_value_error table row_number header].
    split; [done|]. split; [|apply list_elem_of_here].
    unfold cell_errors. by rewrite (subscript_Some _ _ _ Hvalue).
Qed.

Lemma contents_errors_elem table (sheet : list Row) headers es e :
  contents_errors table sheet headers = Ok es →
  e ∈ es ↔ ∃ i row header,
             sheet !! i = Some row ∧ header ∈ headers
             ∧ row !! header = Some ""
             ∧ e = missing_value_error table (i + 2) header.
Proof.
  unfold contents_errors. intros Hes. rewrite (collect_elem _ _ _ e Hes).
  split.
  - intros ([n row] & es' & (i & -> & Hi)%enumerate_elem & Hrow & He).
    apply (cell_errors_elem _ _ _ _ _ e Hrow) in He
      as (header & Hin & Hvalue & ->).
    exists i, row, header. by rewrite (Nat.add_comm i 2).
  - intros (i & row & header & Hi & Hin & Hvalue & ->).
    assert ((_ROW_START_INDEX + i, row) ∈ enumerate sheet _ROW_START_INDEX)
      as Hitem by (apply enumerate_elem; by exists i).
    destruct (collect_Ok_inv _ _ _ _ Hes Hitem) as [es' Hrow].
    exists (_ROW_START_INDEX + i, row), es'. split; [done|]. split; [done|].
    apply (cell_errors_elem _ _ _ _ _ _ Hrow). exists header.
    by rewrite (Nat.add_comm i 2).
Qed.

(** X10. [_ValidateContents]: when every row exposes the given headers, the
    validator returns a new list object and leaves [self.validation_errors]
    bound to it; the list objects that existed before are untouched, nothing
    is logged, and the new list holds exactly the
    [MissingSpreadsheetValueError]s of the cells that are the empty string,
    the row at position [i] with row index [i + 2]. *)
Theorem ValidateContents_returns table sheet headers s :
  Forall (exposes headers) sheet →
  ∃ s',
    _ValidateContents table sheet headers s = (Ok (length (objects s)), s')
    ∧ validation_errors s' = length (objects s)
    ∧ take (length (objects s)) (objects s') = objects s
    ∧ logged s' = logged s
    ∧ ∀ e, e ∈ self_errors s'
           ↔ ∃ i row header,
               sheet !! i = Some row ∧ header ∈ headers
               ∧ row !! header = Some ""
               ∧ e = MissingSpreadsheetValueError table (i + 2) header
                       (table +:+ " entry must have a " +:+ header).
Proof.
  intros Hexposed.
  destruct (contents_errors_exposed table sheet headers Hexposed)
    as (es & Hes & _).
  pose proof (ValidateContents_run table sheet headers s) as Hrun.
  rewrite Hes in Hrun. eexists. split; [exact Hrun|]. simpl.
  split; [done|]. split; [apply take_app_length|]. split; [done|].
  intros e. unfold self_errors. simpl.
  rewrite list_lookup_total_middle by done.
  apply (contents_errors_elem _ _ _ _ _ Hes).
Qed.

Lemma ValidateContents_rebinds table sheet headers s :
  let s' := (_ValidateContents table sheet headers s).2 in
  validation_errors s' = length (objects s)
  ∧ take (length (objects s)) (objects s') = objects s.
Proof.
  unfold _ValidateContents. rewrite run_bind. simpl. rewrite run_bind. simpl.
  match goal with
  | |- context [(?m ≫= ?f) ?s0] =>
      apply (preserves_bind
               (λ s', validation_errors s' = length (objects s)
                      ∧ take (length (objects s)) (objects s') = objects s)
               m f)
  end.
  - apply preserves_foldM. intros [] [row_number row].
    apply preserves_foldM. intros [] header. unfold check_cell.
    apply preserves_bind; [apply preserves_lift|]. intros value.
    destruct (not_str value); [|apply preserves_ret].
    intros s1 [Hattr Hold]. rewrite run_append. simpl. split; [done|].
    rewrite take_alter_ge by lia. done.
  - by intros _ s1.
  - simpl. split; [done|]. apply take_app_length.
Qed.

(** X11. [_ValidateContents]: when some row lacks one of the given headers,
    the validator raises [KeyError] for a header that a row lacks; by then
    [self.validation_errors] is already bound to the new list object, so the
    list it was bound to before is no longer reachable through the attribute,
    although its elements are untouched. *)
Theorem ValidateContents_missing_header table sheet headers s :
  (∃ row header, row ∈ sheet ∧ header ∈ headers ∧ row !! header = None) →
  ∃ row header,
    row ∈ sheet ∧ header ∈ headers ∧ row !! header = None
    ∧ (_ValidateContents table sheet headers s).1 = Raise (KeyError header)
    ∧ validation_errors (_ValidateContents table sheet headers s).2
      = length (objects s)
    ∧ take (length (objects s))
           (objects (_ValidateContents table sheet headers s).2)
      = objects s.
Proof.
  intros (row & header & Hrow & Hheader & Hnone).
  pose proof (ValidateContents_run table sheet headers s) as Hrun.
  pose proof (ValidateContents_rebinds table sheet headers s) as [Hattr Hold].
  destruct (contents_errors table sheet headers) as [es|e] eqn:Hes.
  - apply list_elem_of_lookup_1 in Hrow as [i Hi].
    assert ((_ROW_START_INDEX + i, row) ∈ enumerate sheet _ROW_START_INDEX)
      as Hitem by (apply enumerate_elem; by exists i).
    destruct (collect_Ok_inv _ _ _ _ Hes Hitem) as [es' Hcells].
    destruct (collect_Ok_inv _ _ _ _ Hcells Hheader) as [es'' Hcell].
    apply cell_errors_Ok in Hcell as (value & Hvalue & _). congruence.
  - apply collect_Raise_inv in Hes
      as ([n row'] & (i & -> & Hi)%enumerate_elem & Hcells).
    apply collect_Raise_inv in Hcells as (header' & Hin & Hcell).
    apply cell_errors_Raise in Hcell as [Hnone' ->].
    exists row', header'. split; [by eapply list_elem_of_lookup_2|]. done.
Qed.

(** X12. [_ValidateFieldsAcrossSheets]: the validator never raises; it
    returns a new list object, bound to [self.validation_errors], and the
    errors with row index [i + 2] in it are those of the EntityFields row at
    position [i]: one for its entity code and one for its reporting entity
    code, in this order, each only when the value (an absent cell counting as
    [None]) is not the entity code of any Entities row. *)
Theorem ValidateFieldsAcrossSheets_returns s :
  let fields := default [] (parsed_spreadsheet s !! ENTITY_FIELDS) in
  let codes := (λ entity : Row, entity !! ENTITY_CODE)
                 <$> default [] (parsed_spreadsheet s !! ENTITIES) in
  ∃ s',
    _ValidateFieldsAcrossSheets s = (Ok (length (objects s)), s')
    ∧ validation_errors s' = length (objects s)
    ∧ take (length (objects s)) (objects s') = objects s
    ∧ ∀ i (field : Row),
        fields !! i = Some field →
        filter (λ e, error_row e = Some (i + 2)) (self_errors s')
        = (if decide (field !! ENTITY_CODE ∈ codes) then []
           else [CrossSheetDependencyError ENTITY_FIELDS ENTITIES (i + 2)
                   ENTITY_CODE (field !! ENTITY_CODE)])
          ++ (if decide (field !! REPORTING_ENTITY_CODE ∈ codes) then []
              else [CrossSheetDependencyError ENTITY_FIELDS ENTITIES (i + 2)
                      REPORTING_ENTITY_CODE (field !! REPORTING_ENTITY_CODE)]).
Proof.
  intros fields codes.
  pose proof (ValidateFieldsAcrossSheets_run s) as Hrun.
  unfold fields_errors in Hrun. rewrite collect_total in Hrun.
  eexists. split; [exact Hrun|]. simpl.
  split; [done|]. split; [apply take_app_length|].
  intros i field Hi. unfold self_errors. simpl.
  rewrite list_lookup_total_middle by done.
  set (entities := default [] (parsed_spreadsheet s !! ENTITIES)).
  set (g := λ n (field : Row), field_errors entities (n, field)).
  rewrite (list_fmap_ext (field_errors entities) (λ '(n, field), g n field))
    by by intros ? [??].
  rewrite (Nat.add_comm i 2).
  etrans; [apply (filter_row_enumerate g fields 2 i field); [|exact Hi]|].
  - intros n y e. unfold g, field_errors.
    intros [He|He]%elem_of_app; case_bool_decide;
      try (by apply elem_of_nil in He);
      by apply list_elem_of_singleton in He as ->.
  - unfold g, field_errors. fold codes.
    f_equal; case_bool_decide as Hin; case_decide as Hin';
      rewrite elem_of_list_to_set in Hin; tauto.
Qed.

(** X13. [_LogErrors]: every error of the list is handed to the logger, in
    the order of the list; the call returns, and the list objects, the
    attribute and the spreadsheet are as before. *)
Theorem LogErrors_logs r s :
  _LogErrors r s
  = (Ok (), mkStore (objects s) (validation_errors s) (filepath s)
              (parsed_spreadsheet s) (logged s ++ objects s !!! r)).
Proof. unfold _LogErrors. rewrite run_bind. simpl. apply logger_run. Qed.

End list_facts.

(** ** The verdict of [Validate] and its log *)

Section verdict_facts.
Context `{!Constants}.

Ltac untouched := unfold preserves; intros; assumption.

Lemma keeps_log_iadd lg rhs :
  preserves (λ s, logged s = lg) rhs →
  preserves (λ s, logged s = lg) (iadd_validation_errors rhs).
Proof.
  intros Hrhs. unfold iadd_validation_errors.
  apply preserves_bind; [untouched|intros target].
  apply preserves_bind; [exact Hrhs|intros value].
  apply preserves_bind; untouched.
Qed.

Lemma keeps_log_returning lg r :
  preserves (λ s, logged s = lg) (returning r).
Proof. unfold returning. apply preserves_bind; untouched. Qed.

Lemma keeps_log_spreadsheet_item lg key :
  preserves (λ s, logged s = lg) (spreadsheet_item key).
Proof. unfold spreadsheet_item. apply preserves_bind; untouched. Qed.

Lemma keeps_log_ValidateContents lg table sheet hs :
  preserves (λ s, logged s = lg) (_ValidateContents table sheet hs).
Proof.
  unfold _ValidateContents.
  apply preserves_bind; [untouched|intros l].
  apply preserves_bind; [untouched|intros _].
  apply preserves_bind; [|untouched].
  apply preserves_foldM. intros [] [row_number row].
  apply preserves_foldM. intros [] header. unfold check_cell.
  apply preserves_bind; [untouched|intros value].
  destruct (not_str value); [|untouched].
  apply preserves_bind; untouched.
Qed.

Lemma keeps_log_ValidateFieldsAcrossSheets lg :
  preserves (λ s, logged s = lg) _ValidateFieldsAcrossSheets.
Proof.
  unfold _ValidateFieldsAcrossSheets.
  apply preserves_bind; [untouched|intros l].
  apply preserves_bind; [untouched|intros _].
  apply preserves_bind; [untouched|intros ps].
  apply preserves_bind; [|untouched].
  apply preserves_foldM. intros [] [row_num field]. unfold check_field.
  apply preserves_bind; [|intros _]; case_bool_decide;
    first [ untouched | apply preserves_bind; untouched ].
Qed.

Lemma keeps_log_structural_phase lg params :
  preserves (λ s, logged s = lg) (structural_phase params).
Proof.
  unfold structural_phase.
  apply preserves_bind; [apply keeps_log_spreadsheet_item|intros entities].
  apply preserves_bind; [apply keeps_log_iadd, keeps_log_returning|intros _].
  apply preserves_bind; [apply keeps_log_iadd, keeps_log_returning|intros _].
  apply preserves_foldM. intros [] [[[table sheet] required] headers].
  apply keeps_log_iadd, keeps_log_returning.
Qed.

Lemma keeps_log_content_phase lg params :
  preserves (λ s, logged s = lg) (content_phase params).
Proof.
  unfold content_phase.
  apply preserves_bind; [|intros _].
  { apply preserves_foldM. intros [] [[[table sheet] required] headers].
    apply keeps_log_iadd, keeps_log_ValidateContents. }
  apply preserves_bind;
    [apply keeps_log_iadd, keeps_log_ValidateFieldsAcrossSheets|intros _].
  apply preserves_bind; [|intros _]; apply keeps_log_iadd;
    (apply preserves_bind; [untouched|intros ?]);
    apply keeps_log_returning.
Qed.

Lemma raise_bind_keeps_log {A B : Type} (m : M A) (f : A → M B) e :
  (∀ lg, preserves (λ s, logged s = lg) m) →
  (∀ a s, (f a s).1 = Raise e → logged (f a s).2 = logged s) →
  ∀ s, ((m ≫= f) s).1 = Raise e → logged ((m ≫= f) s).2 = logged s.
Proof.
  intros Hm Hf s. rewrite run_bind. specialize (Hm (logged s) s eq_refl).
  destruct (m s) as [[a|e'] s1]; simpl in *; [|done].
  intros Hraise. by rewrite (Hf _ _ Hraise).
Qed.

(** Lines 118-121 of [Validate] return, on every store. *)
Lemma Validate_verdict_returns s :
  ∃ b,
    ((l ← load_validation_errors;
      errors ← contents l;
      if bool_decide (errors ≠ [])
      then _LogErrors l;; mret false
      else mret true) s).1 = Ok b.
Proof.
  rewrite run_bind. simpl. rewrite run_bind. simpl.
  case_bool_decide; [|by eexists].
  rewrite run_bind. unfold _LogErrors. rewrite run_bind. simpl.
  rewrite logger_run. simpl. by eexists.
Qed.

Lemma Validate_trace ps s sites entities fields states connections :
  bound s →
  ps !! SITES = Some sites →
  ps !! ENTITIES = Some entities →
  ps !! ENTITY_FIELDS = Some fields →
  ps !! STATES = Some states →
  ps !! CONNECTIONS = Some connections →
  let validation_parameters :=
    validation_parameters_of sites entities fields states connections in
  match structural_errors entities validation_parameters with
  | Raise e => (Validate ps s).1 = Raise e
  | Ok es1 =>
      if decide (self_errors s ++ es1 = []) then
        match content_errors ps validation_parameters with
        | Raise e => (Validate ps s).1 = Raise e
        | Ok es2 =>
            ∃ s', Validate ps s = (Ok (bool_decide (es2 = [])), s')
                  ∧ bound s' ∧ self_errors s' = es2
                  ∧ logged s' = logged s ++ es2
        end
      else
        ∃ s', Validate ps s = (Ok false, s')
              ∧ bound s' ∧ self_errors s' = self_errors s ++ es1
              ∧ logged s' = logged s ++ self_errors s ++ es1
  end.
Proof.
  intros Hb Hsites Hentities Hfields Hstates Hconnections params.
  unfold Validate. rewrite run_bind. simpl.
  set (s0 := mkStore _ _ _ ps _).
  assert (bound s0) as Hb0 by done.
  assert (self_errors s0 = self_errors s) as Hself0 by done.
  assert (logged s0 = logged s) as Hlog0 by done.
  rewrite (bind_returns _ _ s0 sites s0) by by apply spreadsheet_item_run.
  rewrite (bind_returns _ _ s0 entities s0) by by apply spreadsheet_item_run.
  rewrite (bind_returns _ _ s0 fields s0) by by apply spreadsheet_item_run.
  rewrite (bind_returns _ _ s0 states s0) by by apply spreadsheet_item_run.
  rewrite (bind_returns _ _ s0 connections s0)
    by by apply spreadsheet_item_run.
  fold params.
  pose proof (accumulates_structural ps entities params Hentities s0 Hb0
                eq_refl) as Hstruct.
  destruct (structural_errors entities params) as [es1|e];
    [|by apply bind_raises].
  destruct Hstruct as (s1 & Hrun1 & Hb1 & Hself1 & Hps1 & Hlog1).
  rewrite (bind_returns _ _ _ _ _ Hrun1).
  rewrite (bind_returns _ _ s1 (self_errors s1) s1) by done.
  rewrite Hself1, Hself0.
  destruct (decide (self_errors s ++ es1 = [])) as [Hnil|Hne].
  - rewrite bool_decide_eq_true_2 by done.
    pose proof (accumulates_content ps params s1 Hb1 Hps1) as Hcontent.
    destruct (content_errors ps params) as [es2|e];
      [|by apply bind_raises].
    destruct Hcontent as (s2 & Hrun2 & Hb2 & Hself2 & Hps2 & Hlog2).
    rewrite (bind_returns _ _ _ _ _ Hrun2).
    destruct (Validate_verdict s2 Hb2)
      as (s3 & -> & Hb3 & Hself3 & Hps3 & Hlog3).
    exists s3.
    rewrite Hlog3, Hself3, Hlog2, Hlog1, Hlog0, Hself2, Hself1, Hself0, Hnil.
    done.
  - rewrite bool_decide_eq_false_2 by done.
    rewrite (bind_returns _ _ s1 () s1) by done.
    destruct (Validate_verdict s1 Hb1)
      as (s3 & -> & Hb3 & Hself3 & Hps3 & Hlog3).
    exists s3. rewrite Hlog3, Hself3, Hlog1, Hlog0, Hself1, Hself0.
    by rewrite bool_decide_eq_false_2.
Qed.

Lemma Validate_returns_inv ps s b s' :
  bound s →
  Validate ps s = (Ok b, s') →
  bound s'
  ∧ b = bool_decide (self_errors s' = [])
  ∧ logged s' = logged s ++ self_errors s'.
Proof.
  intros Hb Hrun.
  destruct (table_keys_cases ps)
    as [(sites & entities & fields & states & connections
         & Hsites & Hentities & Hfields & Hstates & Hconnections)|Hmissing].
  - pose proof (Validate_trace ps s sites entities fields states connections
                  Hb Hsites Hentities Hfields Hstates Hconnections) as Hspec.
    simpl in Hspec. destruct (structural_errors _ _) as [es1|e];
      [|by rewrite Hrun in Hspec].
    destruct (decide (self_errors s ++ es1 = [])) as [Hnil|Hne].
    + destruct (content_errors _ _) as [es2|e]; [|by rewrite Hrun in Hspec].
      destruct Hspec as (s'' & Hrun' & Hb' & Hself & Hlog).
      rewrite Hrun in Hrun'. injection Hrun' as -> <-.
      by rewrite Hself, Hlog.
    + destruct Hspec as (s'' & Hrun' & Hb' & Hself & Hlog).
      rewrite Hrun in Hrun'. injection Hrun' as -> <-.
      rewrite Hself, Hlog, bool_decide_eq_false_2 by done. done.
  - destruct (Validate_missing_key ps s Hmissing) as (key & _ & _ & Hraise).
    congruence.
Qed.

(** X14. [Validate]: when the call returns, the result is true exactly when
    the error list of the instance is empty at the end of the call, and the
    log has gained exactly the elements of that list, in order: all of them
    when the result is false, none when it is true. *)
Theorem Validate_verdict_and_log ps s b s' :
  bound s →
  Validate ps s = (Ok b, s') →
  b = bool_decide (self_errors s' = [])
  ∧ logged s' = logged s ++ self_errors s'.
Proof. intros Hb Hrun. by apply (Validate_returns_inv ps s b s' Hb). Qed.

(** X15. [Validate]: when the call raises, nothing has been logged. *)
Theorem Validate_raise_logs_nothing ps s e :
  (Validate ps s).1 = Raise e → logged (Validate ps s).2 = logged s.
Proof.
  unfold Validate. revert s.
  apply raise_bind_keeps_log; [untouched|intros _].
  do 5 (apply raise_bind_keeps_log;
          [intros ?; apply keeps_log_spreadsheet_item|intros ?]).
  apply raise_bind_keeps_log;
    [intros ?; apply keeps_log_structural_phase|intros _].
  apply raise_bind_keeps_log;
    [intros ?; apply preserves_bind; untouched|intros errors].
  apply raise_bind_keeps_log.
  { intros lg. case_bool_decide; [apply keeps_log_content_phase|untouched]. }
  intros _ s Hraise.
  destruct (Validate_verdict_returns s) as [b Hb]. congruence.
Qed.

(** X16. [Validate]: when the instance holds errors from an earlier call, or
    the duplicate-code, facilities-guid and header checks produce errors, the
    content checks are skipped: the call returns false, the error list of the
    instance is the earlier errors followed by those of the three checks, and
    these are the errors logged. No content check can raise then. *)
Theorem Validate_skips_content_checks ps s
    sites entities fields states connections es :
  bound s →
  ps !! SITES = Some sites →
  ps !! ENTITIES = Some entities →
  ps !! ENTITY_FIELDS = Some fields →
  ps !! STATES = Some states →
  ps !! CONNECTIONS = Some connections →
  structural_errors entities
    (validation_parameters_of sites entities fields states connections)
  = Ok es →
  self_errors s ++ es ≠ [] →
  ∃ s', Validate ps s = (Ok false, s')
        ∧ self_errors s' = self_errors s ++ es
        ∧ logged s' = logged s ++ self_errors s ++ es.
Proof.
  intros Hb Hsites Hentities Hfields Hstates Hconnections Hstruct Hne.
  pose proof (Validate_trace ps s sites entities fields states connections
                Hb Hsites Hentities Hfields Hstates Hconnections) as Hspec.
  simpl in Hspec. rewrite Hstruct in Hspec.
  destruct (decide (self_errors s ++ es = [])) as [Hnil|_]; [done|].
  destruct Hspec as (s' & Hrun & _ & Hself & Hlog). by exists s'.
Qed.

(** X17. [Validate]: on a spreadsheet with the five tables, an Entities row
    without entity code column makes the call raise [KeyError] for that
    column. *)
Theorem Validate_missing_entity_code ps s
    sites entities fields states connections :
  bound s →
  ps !! SITES = Some sites →
  ps !! ENTITIES = Some entities →
  ps !! ENTITY_FIELDS = Some fields →
  ps !! STATES = Some states →
  ps !! CONNECTIONS = Some connections →
  (∃ row, row ∈ entities ∧ row !! ENTITY_CODE = None) →
  (Validate ps s).1 = Raise (KeyError ENTITY_CODE).
Proof.
  intros Hb Hsites Hentities Hfields Hstates Hconnections Hmissing.
  pose proof (Validate_trace ps s sites entities fields states connections
                Hb Hsites Hentities Hfields Hstates Hconnections) as Hspec.
  simpl in Hspec. unfold structural_errors in Hspec.
  unfold _ValidateEntityCodes in Hspec at 1.
  by rewrite (mapM_subscript_raises _ _ Hmissing) in Hspec.
Qed.

(** X18. [Validate]: on a spreadsheet with the five tables, the call returns
    true exactly when the instance holds no error at entry and neither the
    structural checks nor the content checks produce an error or raise. *)
Theorem Validate_true_iff ps s sites entities fields states connections :
  bound s →
  ps !! SITES = Some sites →
  ps !! ENTITIES = Some entities →
  ps !! ENTITY_FIELDS = Some fields →
  ps !! STATES = Some states →
  ps !! CONNECTIONS = Some connections →
  let validation_parameters :=
    validation_parameters_of sites entities fields states connections in
  (Validate ps s).1 = Ok true
  ↔ self_errors s = []
    ∧ structural_errors entities validation_parameters = Ok []
    ∧ content_errors ps validation_parameters = Ok [].
Proof.
  intros Hb Hsites Hentities Hfields Hstates Hconnections params.
  pose proof (Validate_trace ps s sites entities fields states connections
                Hb Hsites Hentities Hfields Hstates Hconnections) as Hspec.
  simpl in Hspec. fold params in Hspec.
  destruct (structural_errors entities params) as [es1|e].
  - destruct (decide (self_errors s ++ es1 = [])) as [Hnil|Hne].
    + apply app_eq_nil in Hnil as [Hself ->].
      destruct (content_errors ps params) as [es2|e].
      * destruct Hspec as (s' & -> & _). simpl. split.
        -- intros [= Hb2%bool_decide_eq_true]. by rewrite Hb2.
        -- intros (_ & _ & [= ->]). done.
      * rewrite Hspec. split; [done|]. by intros (_ & _ & ?).
    + destruct Hspec as (s' & -> & _). simpl. split; [done|].
      intros (Hself & [= ->] & _). by rewrite Hself in Hne.
  - rewrite Hspec. split; [done|]. by intros (_ & ? & _).
Qed.

End verdict_facts.

(** ** What a true verdict guarantees *)

Section acceptance.
Context `{!Constants}.

Lemma both_nil (r1 r2 : Result (list SpreadsheetError)) :
  both r1 r2 = Ok [] → r1 = Ok [] ∧ r2 = Ok [].
Proof.
  destruct r1 as [e1|], r2 as [e2|]; simpl; try done.
  by intros [= [-> ->]%app_eq_nil].
Qed.

Lemma collect_nil_inv {A : Type} (f : A → Result (list SpreadsheetError)) l :
  collect f l = Ok [] → Forall (λ x, f x = Ok []) l.
Proof.
  induction l as [|x l IH]; simpl; [by constructor|].
  destruct (f x) as [e1|] eqn:Hx; simpl; [|done].
  destruct (collect f l) as [e2|]; simpl; [|done].
  intros [= [-> ->]%app_eq_nil]. constructor; [done|]. by apply IH.
Qed.

Lemma count_le_NoDup (l : list string) :
  (∀ x, count_code x l ≤ 1) → NoDup l.
Proof.
  induction l as [|y l IH]; intros Hcount; [constructor|]. constructor.
  - intros Hin%count_code_pos. specialize (Hcount y). unfold count_code in *.
    rewrite filter_cons_True in Hcount by done. simpl in Hcount. lia.
  - apply IH. intros x. specialize (Hcount x). unfold count_code in *.
    rewrite filter_cons in Hcount. case_decide; simpl in Hcount; lia.
Qed.

Lemma ValidateEntityCodes_nil_inv sheet :
  _ValidateEntityCodes sheet = Ok [] →
  ∃ codes, (λ row : Row, row !! ENTITY_CODE) <$> sheet = Some <$> codes
           ∧ NoDup codes.
Proof.
  intros Hrun. pose proof (ValidateEntityCodes_exposes _ _ Hrun) as Hexposed.
  destruct (mapM_subscript_exposed _ _ Hexposed) as [codes Hcodes].
  apply mapM_subscript_inv in Hcodes. exists codes. split; [done|].
  rewrite (ValidateEntityCodes_codes _ _ Hcodes) in Hrun.
  injection Hrun as Hnil. apply fmap_nil_inv in Hnil.
  apply count_le_NoDup. intros x.
  destruct (duplicates_of_spec codes) as [_ Hspec].
  destruct (decide (1 < count_code x codes)) as [Hlt|]; [|lia].
  apply Hspec in Hlt. rewrite Hnil in Hlt. by apply elem_of_nil in Hlt.
Qed.

Lemma guid_errors_nil_inv n (row : Row) :
  guid_errors (n, row) = Ok [] →
  ∃ guid, row !! BC_GUID = Some guid
          ∧ (guid = "" → ∃ namespace, row !! NAMESPACE = Some namespace
                                      ∧ namespace ≠ FACILITIES_NAMESPACE).
Proof.
  unfold guid_errors.
  destruct (row !! BC_GUID) as [guid|] eqn:Hguid;
    [rewrite (subscript_Some _ _ _ Hguid)|by rewrite (subscript_None _ _ Hguid)].
  simpl. intros Hrun. exists guid. split; [done|]. intros ->.
  unfold not_str in Hrun. rewrite bool_decide_eq_true_2 in Hrun by done.
  destruct (row !! NAMESPACE) as [namespace|] eqn:Hnamespace;
    [rewrite (subscript_Some _ _ _ Hnamespace) in Hrun
    |by rewrite (subscript_None _ _ Hnamespace) in Hrun].
  simpl in Hrun. exists namespace. split; [done|]. intros ->.
  rewrite bool_decide_eq_true_2 in Hrun by done.
  destruct (row !! ENTITY_CODE) as [code|] eqn:Hcode;
    [rewrite (subscript_Some _ _ _ Hcode) in Hrun
    |rewrite (subscript_None _ _ Hcode) in Hrun]; done.
Qed.

Lemma ValidateFacilitiesGuids_nil_inv sheet (row : Row) :
  ValidateFacilitiesGuids sheet = Ok [] → row ∈ sheet →
  ∃ guid, row !! BC_GUID = Some guid
          ∧ (guid = "" → ∃ namespace, row !! NAMESPACE = Some namespace
                                      ∧ namespace ≠ FACILITIES_NAMESPACE).
Proof.
  rewrite ValidateFacilitiesGuids_collect. intros Hnil%collect_nil_inv.
  intros [i Hi]%list_elem_of_lookup_1. rewrite Forall_forall in Hnil.
  apply (guid_errors_nil_inv (0 + i)), Hnil, enumerate_elem. by exists i.
Qed.

Lemma ValidateHeaders_nil_inv table (row : Row) sheet column_headers :
  _ValidateHeaders table (row :: sheet) column_headers = [] →
  exposes column_headers row.
Proof.
  rewrite ValidateHeaders_cons. intros Hnil%fmap_nil_inv.
  apply Forall_forall. intros header Hin. apply elem_of_dom.
  destruct (decide (header ∈ dom row)) as [|Hout]; [done|]. exfalso.
  assert (header ∈ elements (list_to_set column_headers ∖ dom row
                               : gset string)) as Helem.
  { apply elem_of_elements, elem_of_difference.
    split; [by apply elem_of_list_to_set|done]. }
  rewrite Hnil in Helem. by apply elem_of_nil in Helem.
Qed.

Lemma contents_errors_nil_inv table (sheet : list Row) headers row header :
  contents_errors table sheet headers = Ok [] →
  row ∈ sheet → header ∈ headers →
  ∃ value, row !! header = Some value ∧ value ≠ "".
Proof.
  intros Hnil [i Hi]%list_elem_of_lookup_1 Hheader.
  assert ((_ROW_START_INDEX + i, row) ∈ enumerate sheet _ROW_START_INDEX)
    as Hitem by (apply enumerate_elem; by exists i).
  pose proof Hnil as Hrows. unfold contents_errors in Hrows.
  destruct (collect_Ok_inv _ _ _ _ Hrows Hitem) as [es' Hcells].
  destruct (collect_Ok_inv _ _ _ _ Hcells Hheader) as [es'' Hcell].
  apply cell_errors_Ok in Hcell as (value & Hvalue & _).
  exists value. split; [done|]. intros ->.
  assert (missing_value_error table (i + 2) header ∈ []) as Helem.
  { apply (contents_errors_elem _ _ _ _ _ Hnil). by exists i, row, header. }
  by apply elem_of_nil in Helem.
Qed.

Lemma fields_errors_nil_inv ps (field : Row) :
  fields_errors ps = Ok [] →
  field ∈ default [] (ps !! ENTITY_FIELDS) →
  let codes := (λ entity : Row, entity !! ENTITY_CODE)
                 <$> default [] (ps !! ENTITIES) in
  field !! ENTITY_CODE ∈ codes ∧ field !! REPORTING_ENTITY_CODE ∈ codes.
Proof.
  intros Hnil Hfield codes. unfold fields_errors in Hnil.
  apply collect_nil_inv in Hnil.
  apply list_elem_of_lookup_1 in Hfield as [i Hi].
  rewrite Forall_forall in Hnil.
  assert ((_ROW_START_INDEX + i, field)
            ∈ enumerate (default [] (ps !! ENTITY_FIELDS)) _ROW_START_INDEX)
    as Hitem by (apply enumerate_elem; by exists i).
  apply Hnil in Hitem. injection Hitem as Hitem. unfold field_errors in Hitem.
  fold codes in Hitem. apply app_eq_nil in Hitem as [Hcode Hreporting].
  split.
  - destruct (decide (field !! ENTITY_CODE ∈ codes)) as [|Hout]; [done|].
    rewrite bool_decide_eq_true_2 in Hcode; [done|].
    by rewrite elem_of_list_to_set.
  - destruct (decide (field !! REPORTING_ENTITY_CODE ∈ codes)) as [|Hout];
      [done|].
    rewrite bool_decide_eq_true_2 in Hreporting; [done|].
    by rewrite elem_of_list_to_set.
Qed.

Lemma ValidateStatesAcrossSheets_nil_inv ps (state : Row) :
  Forall (exposes field_columns) (default [] (ps !! ENTITY_FIELDS)) →
  _ValidateStatesAcrossSheets ps = Ok [] →
  state ∈ default [] (ps !! STATES) →
  dependency_count state (default [] (ps !! ENTITY_FIELDS)) = 1.
Proof.
  intros Hexposed. rewrite (ValidateStatesAcrossSheets_exposed _ Hexposed).
  intros [= Hnil] [i Hi]%list_elem_of_lookup_1.
  apply join_nil in Hnil. rewrite Forall_forall in Hnil.
  assert (state_errors (default [] (ps !! ENTITY_FIELDS))
            (_ROW_START_INDEX + i) state = []) as Hstate.
  { apply Hnil, list_elem_of_fmap.
    exists (_ROW_START_INDEX + i, state). split; [done|].
    apply enumerate_elem. by exists i. }
  unfold state_errors in Hstate. by case_decide.
Qed.

Lemma ValidateConnections_nil_inv ps sites entities connections
    (connection : Row) :
  ps !! SITES = Some sites →
  ps !! ENTITIES = Some entities →
  ps !! CONNECTIONS = Some connections →
  _ValidateConnections ps = Ok [] →
  connection ∈ connections →
  ∃ source target,
    connection !! SOURCE_ENTITY_CODE = Some source
    ∧ connection !! TARGET_ENTITY_CODE = Some target
    ∧ known_code entities sites source
    ∧ known_code entities sites target.
Proof.
  intros Hsites Hentities Hconnections Hrun [i Hi]%list_elem_of_lookup_1.
  unfold _ValidateConnections in Hrun.
  rewrite (subscript_Some _ _ _ Hsites), (subscript_Some _ _ _ Hentities),
    (subscript_Some _ _ _ Hconnections) in Hrun. simpl in Hrun.
  destruct (mapM _ entities) as [entity_codes|] eqn:Hecodes;
    simpl in Hrun; [|done].
  destruct (mapM _ sites) as [building_codes|] eqn:Hbcodes;
    simpl in Hrun; [|done].
  apply mapM_subscript_inv in Hecodes, Hbcodes.
  rewrite (foldM_collect (check_connection _ [])) in Hrun
    by apply check_connection_acc.
  destruct (collect _ _) as [es|] eqn:Hcollect; simpl in Hrun; [|done].
  injection Hrun as ->. apply collect_nil_inv in Hcollect.
  rewrite Forall_forall in Hcollect.
  assert ((_ROW_START_INDEX + i, connection)
            ∈ enumerate connections _ROW_START_INDEX)
    as Hitem by (apply enumerate_elem; by exists i).
  apply Hcollect in Hitem.
  destruct (connection !! SOURCE_ENTITY_CODE) as [source|] eqn:Hsource;
    [|unfold check_connection in Hitem;
      by rewrite (subscript_None _ _ Hsource) in Hitem].
  destruct (connection !! TARGET_ENTITY_CODE) as [target|] eqn:Htarget.
  - rewrite (check_connection_exposed _ _ _ _ _ _ Hsource Htarget) in Hitem.
    injection Hitem as Hitem. unfold connection_errors in Hitem.
    apply app_eq_nil in Hitem as [Hs Ht].
    exists source, target. split; [done|]. split; [done|].
    rewrite <- !(codes_known _ _ _ _ _ Hecodes Hbcodes).
    split;
      match goal with
      | |- ?x ∈ ?X => destruct (decide (x ∈ X)) as [|Hout]; [done|]
      end.
    + by rewrite bool_decide_eq_true_2 in Hs.
    + by rewrite bool_decide_eq_true_2 in Ht.
  - unfold check_connection in Hitem.
    rewrite (subscript_Some _ _ _ Hsource), (subscript_None _ _ Htarget)
      in Hitem.
    simpl in Hitem. by case_bool_decide.
Qed.

Lemma Validate_true_inv ps s :
  bound s →
  (Validate ps s).1 = Ok true →
  ∃ sites entities fields states connections,
    ps !! SITES = Some sites ∧ ps !! ENTITIES = Some entities
    ∧ ps !! ENTITY_FIELDS = Some fields ∧ ps !! STATES = Some states
    ∧ ps !! CONNECTIONS = Some connections
    ∧ self_errors s = []
    ∧ structural_errors entities
        (validation_parameters_of sites entities fields states connections)
      = Ok []
    ∧ content_errors ps
        (validation_parameters_of sites entities fields states connections)
      = Ok [].
Proof.
  intros Hb Hrun.
  destruct (table_keys_cases ps)
    as [(sites & entities & fields & states & connections
         & Hsites & Hentities & Hfields & Hstates & Hconnections)|Hmissing].
  - exists sites, entities, fields, states, connections.
    do 5 (split; [done|]).
    pose proof (Validate_trace ps s sites entities fields states connections
                  Hb Hsites Hentities Hfields Hstates Hconnections) as Hspec.
    simpl in Hspec. destruct (structural_errors _ _) as [es1|e];
      [|by rewrite Hrun in Hspec].
    destruct (decide (self_errors s ++ es1 = [])) as [Hnil|Hne].
    + apply app_eq_nil in Hnil as [Hself ->].
      destruct (content_errors _ _) as [es2|e]; [|by rewrite Hrun in Hspec].
      destruct Hspec as (s' & Hrun' & _). rewrite Hrun' in Hrun.
      simpl in Hrun. injection Hrun as Hb2%bool_decide_eq_true.
      by rewrite Hb2.
    + destruct Hspec as (s' & Hrun' & _). by rewrite Hrun' in Hrun.
  - destruct (Validate_missing_key ps s Hmissing) as (key & _ & _ & Hraise).
    by rewrite Hraise in Hrun.
Qed.

(** X19. [Validate]: a true result guarantees that the instance held no
    error at entry, that the five tables are present, that every Entities row
    has an entity code and these codes are pairwise distinct, that every
    Entities row has a guid cell, a row with an empty guid having a namespace
    other than the facilities namespace, and that the first row of every
    non-empty table exposes all recognised headers of the table. *)
Theorem Validate_true_structural ps s :
  bound s →
  (Validate ps s).1 = Ok true →
  self_errors s = []
  ∧ ∃ sites entities fields states connections,
      ps !! SITES = Some sites ∧ ps !! ENTITIES = Some entities
      ∧ ps !! ENTITY_FIELDS = Some fields ∧ ps !! STATES = Some states
      ∧ ps !! CONNECTIONS = Some connections
      ∧ (∃ codes,
           (λ row : Row, row !! ENTITY_CODE) <$> entities = Some <$> codes
           ∧ NoDup codes)
      ∧ (∀ row : Row, row ∈ entities →
           ∃ guid, row !! BC_GUID = Some guid
                   ∧ (guid = "" →
                      ∃ namespace, row !! NAMESPACE = Some namespace
                                   ∧ namespace ≠ FACILITIES_NAMESPACE))
      ∧ ∀ table (row : Row) sheet required column_headers,
          (table, row :: sheet, required, column_headers)
            ∈ validation_parameters_of sites entities fields states connections →
          exposes column_headers row.
Proof.
  intros Hb Hrun.
  destruct (Validate_true_inv ps s Hb Hrun)
    as (sites & entities & fields & states & connections
        & Hsites & Hentities & Hfields & Hstates & Hconnections
        & Hself & Hstruct & _).
  split; [done|]. exists sites, entities, fields, states, connections.
  do 5 (split; [done|]).
  apply both_nil in Hstruct as [Hcodes Hstruct].
  apply both_nil in Hstruct as [Hguids Hheaders].
  split; [by apply ValidateEntityCodes_nil_inv|].
  split; [intros row; by apply ValidateFacilitiesGuids_nil_inv|].
  intros table row sheet required column_headers Hin.
  apply collect_nil_inv in Hheaders. rewrite Forall_forall in Hheaders.
  apply Hheaders in Hin. injection Hin as Hin.
  by eapply ValidateHeaders_nil_inv.
Qed.

(** X20. [Validate]: a true result guarantees that every row of every table
    has a non-empty value for each required header of the table, that the
    entity code and the reporting entity code of every EntityFields row occur
    among the entity codes of the Entities rows, that every States row has
    exactly one dependency when the EntityFields rows expose the four indexed
    columns, and that both codes of every Connections row are present and are
    an entity code or a building code. *)
Theorem Validate_true_content ps s sites entities fields states connections :
  bound s →
  (Validate ps s).1 = Ok true →
  ps !! SITES = Some sites →
  ps !! ENTITIES = Some entities →
  ps !! ENTITY_FIELDS = Some fields →
  ps !! STATES = Some states →
  ps !! CONNECTIONS = Some connections →
  (∀ table sheet required column_headers (row : Row) header,
     (table, sheet, required, column_headers)
       ∈ validation_parameters_of sites entities fields states connections →
     row ∈ sheet → header ∈ required →
     ∃ value, row !! header = Some value ∧ value ≠ "")
  ∧ (∀ field : Row, field ∈ fields →
       field !! ENTITY_CODE ∈ (λ entity : Row, entity !! ENTITY_CODE) <$> entities
       ∧ field !! REPORTING_ENTITY_CODE
           ∈ (λ entity : Row, entity !! ENTITY_CODE) <$> entities)
  ∧ (Forall (exposes field_columns) fields →
     ∀ state : Row, state ∈ states → dependency_count state fields = 1)
  ∧ (∀ connection : Row, connection ∈ connections →
       ∃ source target,
         connection !! SOURCE_ENTITY_CODE = Some source
         ∧ connection !! TARGET_ENTITY_CODE = Some target
         ∧ known_code entities sites source
         ∧ known_code entities sites target).
Proof.
  intros Hb Hrun Hsites Hentities Hfields Hstates Hconnections.
  destruct (Validate_true_inv ps s Hb Hrun)
    as (sites' & entities' & fields' & states' & connections'
        & Hsites' & Hentities' & Hfields' & Hstates' & Hconnections'
        & _ & _ & Hcontent).
  simplify_eq.
  apply both_nil in Hcontent as [Hcontents Hcontent].
  apply both_nil in Hcontent as [Hfieldsok Hcontent].
  apply both_nil in Hcontent as [Hstatesok Hconnectionsok].
  split; [|split; [|split]].
  - intros table sheet required column_headers row header Hin Hrow Hheader.
    apply collect_nil_inv in Hcontents. rewrite Forall_forall in Hcontents.
    apply Hcontents in Hin. by eapply contents_errors_nil_inv.
  - intros field Hfield.
    pose proof (fields_errors_nil_inv ps field Hfieldsok) as Hspec.
    rewrite Hfields, Hentities in Hspec. by apply Hspec.
  - intros Hexposed state Hstate.
    pose proof (ValidateStatesAcrossSheets_nil_inv ps state) as Hspec.
    rewrite Hfields, Hstates in Hspec. by apply Hspec.
  - intros connection Hconnection.
    by eapply ValidateConnections_nil_inv.
Qed.

(** X21. [Validate]: a true result is repeatable: validating the same
    spreadsheet again on the same instance returns true again. *)
Theorem Validate_true_repeatable ps s s' :
  bound s →
  Validate ps s = (Ok true, s') →
  (Validate ps s').1 = Ok true.
Proof.
  intros Hb Hrun.
  destruct (Validate_returns_inv ps s true s' Hb Hrun) as (Hb' & Hnil & _).
  symmetry in Hnil. apply bool_decide_eq_true in Hnil.
  assert ((Validate ps s).1 = Ok true) as Hfirst by by rewrite Hrun.
  destruct (Validate_true_inv ps s Hb Hfirst)
    as (sites & entities & fields & states & connections
        & Hsites & Hentities & Hfields & Hstates & Hconnections
        & _ & Hstruct & Hcontent).
  pose proof (Validate_trace ps s' sites entities fields states connections
                Hb' Hsites Hentities Hfields Hstates Hconnections) as Hspec.
  simpl in Hspec. rewrite Hstruct, Hnil, Hcontent in Hspec. simpl in Hspec.
  by destruct Hspec as (s'' & -> & _).
Qed.


End acceptance.

Lemma run_pair {A : Type} (m : M A) s r : (m s).1 = r → m s = (r, (m s).2).
Proof. destruct (m s) as [r' s']. simpl. by intros ->. Qed.

(** ** Further instances on concrete spreadsheets *)

Lemma ValidateEntityCodes_missing_code_witness :
  _ValidateEntityCodes (H := abel_constants)
    [entity_row "E1" "guid-1" "HVAC"; ∅]
  = Raise (KeyError "Entity Code").
Proof.
  apply (ValidateEntityCodes_missing_code (H := abel_constants)).
  exists ∅. split; [concrete|reflexivity].
Defined.

Lemma ValidateEntityCodes_first_occurrence_order_witness :
  _ValidateEntityCodes (H := abel_constants)
    ((λ code, entity_row code "guid" "HVAC") <$> ["B"; "A"; "B"; "C"; "A"])
  = Ok ((λ code,
           DuplicateCodeError code
             ("Entity Code: " +:+ code +:+ " is defined more than once in "
                +:+ "Entities" +:+ " table."))
          <$> filter (λ code, 1 < count_code code ["B"; "A"; "B"; "C"; "A"])
                (first_occurrences ["B"; "A"; "B"; "C"; "A"])).
Proof.
  apply (ValidateEntityCodes_first_occurrence_order (H := abel_constants)).
  reflexivity.
Defined.

Lemma ValidateFacilitiesGuids_reports_witness :
  let e := MissingSpreadsheetValueError "Entities" 1 "Entity Guid"
             "E2 in FACILITIES namespace must have a guid obtained through DB API export building config operation." in
  let sheet := [entity_row "E1" "" "HVAC"; entity_row "E2" "" "FACILITIES"] in
  e ∈ [e]
  ↔ ∃ i (row : Row) code,
      sheet !! i = Some row
      ∧ row !! "Entity Guid" = Some ""
      ∧ row !! "Namespace" = Some "FACILITIES"
      ∧ row !! "Entity Code" = Some code
      ∧ e = MissingSpreadsheetValueError "Entities" i "Entity Guid"
              (code +:+ " in " +:+ "FACILITIES" +:+
                 " namespace must have a guid obtained through DB API export building config operation.").
Proof.
  apply (ValidateFacilitiesGuids_reports (H := abel_constants)
           [entity_row "E1" "" "HVAC"; entity_row "E2" "" "FACILITIES"]).
  concrete.
Defined.

Lemma ValidateFacilitiesGuids_guids_present_witness :
  ValidateFacilitiesGuids (H := abel_constants) sample_entities = Ok [].
Proof.
  apply (ValidateFacilitiesGuids_guids_present (H := abel_constants)).
  repeat first [ apply Forall_nil | apply Forall_cons; split ];
    eexists; (split; [reflexivity|done]).
Defined.

Lemma ValidateStatesAcrossSheets_missing_field_code_witness :
  _ValidateStatesAcrossSheets (H := abel_constants)
    (spreadsheet_of
       [("Entity Fields", [field_row "temp" "t_raw" "E1" "E2"; ∅]);
        ("States", [state_row "E1" "temp"])])
  = Raise (KeyError "Entity Code").
Proof.
  apply (ValidateStatesAcrossSheets_missing_field_code (H := abel_constants)
           _ (state_row "E1" "temp") []
           [field_row "temp" "t_raw" "E1" "E2"; ∅] 1 ∅);
    unfold exposes, field_columns; concrete.
Defined.

Lemma ValidateStatesAcrossSheets_no_fields_witness :
  let ps := spreadsheet_of
              [("States", [state_row "E1" "temp"; state_row "E2" "mode"])] in
  _ValidateStatesAcrossSheets (H := abel_constants) ps
  = Ok (imap (λ i (state : Row),
                CrossSheetDependencyError "States" "Entity Fields" (i + 2)
                  "Standard Field Name" (state !! "Standard Field Name"))
             (default [] (ps !! "States"))).
Proof.
  apply (ValidateStatesAcrossSheets_no_fields (H := abel_constants)).
  reflexivity.
Defined.

Lemma ValidateConnections_error_count_witness :
  let connections := [connection_row "B1" "E1"; connection_row "E9" "B7"] in
  let ps := spreadsheet_of
              [("Site", [site_row "B1" "Zurich"]);
               ("Entities", sample_entities);
               ("Connections", connections)] in
  ∃ errors,
    _ValidateConnections (H := abel_constants) ps = Ok errors
    ∧ ∀ i (connection : Row) source target,
        connections !! i = Some connection →
        connection !! "Source Entity Code" = Some source →
        connection !! "Target Entity Code" = Some target →
        length (filter (λ e, error_row e = Some (i + 2)) errors)
        = (if decide (known_code (H := abel_constants) sample_entities
                        [site_row "B1" "Zurich"] source) then 0 else 1)
          + (if decide (known_code (H := abel_constants) sample_entities
                          [site_row "B1" "Zurich"] target) then 0 else 1).
Proof.
  apply (ValidateConnections_error_count (H := abel_constants));
    unfold exposes; concrete.
Defined.

Lemma ValidateConnections_missing_entity_code_witness :
  _ValidateConnections (H := abel_constants)
    (spreadsheet_of [("Site", [site_row "B1" "Zurich"]);
                     ("Entities", [entity_row "E1" "guid-1" "HVAC"; ∅]);
                     ("Connections", [])])
  = Raise (KeyError "Entity Code").
Proof.
  apply (ValidateConnections_missing_entity_code (H := abel_constants)
           _ [site_row "B1" "Zurich"] [entity_row "E1" "guid-1" "HVAC"; ∅] []);
    try reflexivity.
  exists ∅. split; [concrete|reflexivity].
Defined.

Lemma ValidateContents_returns_witness :
  let sheet := [site_row "" "Zurich"; site_row "B1" "Zurich"] in
  let s := __init__ "abel.log" ∅ in
  ∃ s',
    _ValidateContents "Site" sheet ["Building Code"] s
    = (Ok (length (objects s)), s')
    ∧ validation_errors s' = length (objects s)
    ∧ take (length (objects s)) (objects s') = objects s
    ∧ logged s' = logged s
    ∧ ∀ e, e ∈ self_errors s'
           ↔ ∃ i (row : Row) header,
               sheet !! i = Some row ∧ header ∈ ["Building Code"]
               ∧ row !! header = Some ""
               ∧ e = MissingSpreadsheetValueError "Site" (i + 2) header
                       ("Site" +:+ " entry must have a " +:+ header).
Proof.
  apply (ValidateContents_returns "Site"
           [site_row "" "Zurich"; site_row "B1" "Zurich"] ["Building Code"]).
  unfold exposes. concrete.
Defined.

Lemma ValidateContents_missing_header_witness :
  let sheet := [site_row "" "Zurich"; ∅] in
  let s := __init__ "abel.log" ∅ in
  ∃ (row : Row) header,
    row ∈ sheet ∧ header ∈ ["Building Code"] ∧ row !! header = None
    ∧ (_ValidateContents "Site" sheet ["Building Code"] s).1
      = Raise (KeyError header)
    ∧ validation_errors (_ValidateContents "Site" sheet ["Building Code"] s).2
      = length (objects s)
    ∧ take (length (objects s))
           (objects (_ValidateContents "Site" sheet ["Building Code"] s).2)
      = objects s.
Proof.
  apply (ValidateContents_missing_header "Site" [site_row "" "Zurich"; ∅]
           ["Building Code"]).
  exists ∅, "Building Code". split; [concrete|]. split; [concrete|reflexivity].
Defined.

Lemma Validate_verdict_and_log_witness :
  let s := __init__ "abel.log" ∅ in
  let s' := (Validate (H := abel_constants) blank_code_spreadsheet s).2 in
  false = bool_decide (self_errors s' = [])
  ∧ logged s' = logged s ++ self_errors s'.
Proof.
  apply (Validate_verdict_and_log (H := abel_constants)
           blank_code_spreadsheet (__init__ "abel.log" ∅)).
  - apply init_bound.
  - apply run_pair. concrete.
Defined.

Lemma Validate_raise_logs_nothing_witness :
  logged (Validate (H := abel_constants) ragged_spreadsheet
            (__init__ "abel.log" ∅)).2
  = logged (__init__ "abel.log" ∅).
Proof.
  apply (Validate_raise_logs_nothing (H := abel_constants) ragged_spreadsheet
           (__init__ "abel.log" ∅) (KeyError "Building Code")).
  concrete.
Defined.

Lemma Validate_skips_content_checks_witness :
  let s := __init__ "abel.log" ∅ in
  ∃ s',
    Validate (H := abel_constants)
      (sample_spreadsheet [site_row "" "Zurich"; ∅]
         [entity_row "E1" "guid-1" "HVAC"; entity_row "E1" "guid-2" "HVAC"]) s
    = (Ok false, s')
    ∧ self_errors s'
      = self_errors s ++ [duplicate_code_error (H := abel_constants) "E1"]
    ∧ logged s'
      = logged s ++ self_errors s
          ++ [duplicate_code_error (H := abel_constants) "E1"].
Proof.
  apply (Validate_skips_content_checks (H := abel_constants) _ _
           [site_row "" "Zurich"; ∅]
           [entity_row "E1" "guid-1" "HVAC"; entity_row "E1" "guid-2" "HVAC"]
           [field_row "temp" "t_raw" "E1" "E2"] [state_row "E1" "temp"]
           [connection_row "B1" "E1"]);
    first [ apply init_bound | discriminate | concrete ].
Defined.

Lemma Validate_missing_entity_code_witness :
  (Validate (H := abel_constants)
     (sample_spreadsheet [site_row "B1" "Zurich"] [∅])
     (__init__ "abel.log" ∅)).1
  = Raise (KeyError "Entity Code").
Proof.
  apply (Validate_missing_entity_code (H := abel_constants) _ _
           [site_row "B1" "Zurich"] [∅]
           [field_row "temp" "t_raw" "E1" "E2"] [state_row "E1" "temp"]
           [connection_row "B1" "E1"]);
    first [ apply init_bound | reflexivity | idtac ].
  exists ∅. split; [concrete|reflexivity].
Defined.

Lemma Validate_true_iff_witness :
  let s := __init__ "abel.log" ∅ in
  let validation_parameters :=
    validation_parameters_of (H := abel_constants)
      [site_row "B1" "Zurich"] sample_entities
      [field_row "temp" "t_raw" "E1" "E2"] [state_row "E1" "temp"]
      [connection_row "B1" "E1"] in
  (Validate (H := abel_constants) consistent_spreadsheet s).1 = Ok true
  ↔ self_errors s = []
    ∧ structural_errors (H := abel_constants) sample_entities
        validation_parameters = Ok []
    ∧ content_errors (H := abel_constants) consistent_spreadsheet
        validation_parameters = Ok [].
Proof.
  apply (Validate_true_iff (H := abel_constants) consistent_spreadsheet
           (__init__ "abel.log" ∅));
    first [ apply init_bound | reflexivity ].
Defined.

Lemma Validate_true_repeatable_witness :
  let s := __init__ "abel.log" ∅ in
  (Validate (H := abel_constants) consistent_spreadsheet
     (Validate (H := abel_constants) consistent_spreadsheet s).2).1
  = Ok true.
Proof.
  apply (Validate_true_repeatable (H := abel_constants) consistent_spreadsheet
           (__init__ "abel.log" ∅)).
  - apply init_bound.
  - apply run_pair. concrete.
Defined.


Lemma Validate_true_structural_witness :
  let s := __init__ "abel.log" ∅ in
  self_errors s = []
  ∧ ∃ sites entities fields states connections,
      consistent_spreadsheet !! "Site" = Some sites
      ∧ consistent_spreadsheet !! "Entities" = Some entities
      ∧ consistent_spreadsheet !! "Entity Fields" = Some fields
      ∧ consistent_spreadsheet !! "States" = Some states
      ∧ consistent_spreadsheet !! "Connections" = Some connections
      ∧ (∃ codes,
           (λ row : Row, row !! "Entity Code") <$> entities = Some <$> codes
           ∧ NoDup codes)
      ∧ (∀ row : Row, row ∈ entities →
           ∃ guid, row !! "Entity Guid" = Some guid
                   ∧ (guid = "" →
                      ∃ namespace, row !! "Namespace" = Some namespace
                                   ∧ namespace ≠ "FACILITIES"))
      ∧ ∀ table (row : Row) sheet required column_headers,
          (table, row :: sheet, required, column_headers)
            ∈ validation_parameters_of (H := abel_constants)
                sites entities fields states connections →
          exposes column_headers row.
Proof.
  apply (Validate_true_structural (H := abel_constants) consistent_spreadsheet
           (__init__ "abel.log" ∅)).
  - apply init_bound.
  - concrete.
Defined.

Lemma Validate_true_content_witness :
  let sites := [site_row "B1" "Zurich"] in
  let fields := [field_row "temp" "t_raw" "E1" "E2"] in
  let states := [state_row "E1" "temp"] in
  let connections := [connection_row "B1" "E1"] in
  (∀ table sheet required column_headers (row : Row) header,
     (table, sheet, required, column_headers)
       ∈ validation_parameters_of (H := abel_constants)
           sites sample_entities fields states connections →
     row ∈ sheet → header ∈ required →
     ∃ value, row !! header = Some value ∧ value ≠ "")
  ∧ (∀ field : Row, field ∈ fields →
       field !! "Entity Code"
         ∈ (λ entity : Row, entity !! "Entity Code") <$> sample_entities
       ∧ field !! "Reporting Entity Code"
           ∈ (λ entity : Row, entity !! "Entity Code") <$> sample_entities)
  ∧ (Forall (exposes (field_columns (H := abel_constants))) fields →
     ∀ state : Row, state ∈ states →
       dependency_count (H := abel_constants) state fields = 1)
  ∧ (∀ connection : Row, connection ∈ connections →
       ∃ source target,
         connection !! "Source Entity Code" = Some source
         ∧ connection !! "Target Entity Code" = Some target
         ∧ known_code (H := abel_constants) sample_entities sites source
         ∧ known_code (H := abel_constants) sample_entities sites target).
Proof.
  apply (Validate_true_content (H := abel_constants) consistent_spreadsheet
           (__init__ "abel.log" ∅));
    first [ apply init_bound | concrete ].
Defined.

(** ** The spreadsheet as objects, on concrete memories *)

Lemma sample_tables_allocated key a :
  sample_tables !! key = Some a → a < 5.
Proof.
  intros Hkey%elem_of_list_to_map_2.
  repeat (apply elem_of_cons in Hkey as [Hkey|Hkey];
          [injection Hkey as -> ->; lia|]).
  by apply elem_of_nil in Hkey.
Qed.

(** Without the condition of C9 the spreadsheet can change: when
    [self.validation_errors] is bound to the list object of the States
    table, [Validate] returns false and leaves the error of the Connections
    row in that table. *)
Example Validate_extends_aliased_sheet :
  let m := aliased_memory in
  let m' := (Objects.Validate (H := abel_constants) m).2 in
  Objects.spreadsheet m !! "States" = Some 3
  ∧ Objects.lists m !! 3 = Some []
  ∧ (Objects.Validate (H := abel_constants) m).1 = Ok false
  ∧ Objects.lists m' !! 3
    = Some [Objects.Error (ConnectionDependencyError 2 "B1" "X")].
Proof. repeat split; by vm_compute. Qed.

(** On the memory of a new validator [Validate] runs as on the store: it
    returns false and the list bound to the attribute holds the error of the
    empty building code. *)
Example Validate_blank_code_memory :
  let m' := (Objects.Validate (H := abel_constants) blank_code_memory).2 in
  (Objects.Validate (H := abel_constants) blank_code_memory).1 = Ok false
  ∧ Objects.lists m' !! Objects.validation_errors m'
    = Some [Objects.Error (missing_value_error "Site" 2 "Building Code")].
Proof. split; by vm_compute. Qed.

Lemma Validate_leaves_spreadsheet_unchanged_witness :
  let m := blank_code_memory in
  let m' := (Objects.Validate (H := abel_constants) m).2 in
  Objects.spreadsheet m' = Objects.spreadsheet m
  ∧ (∀ key a, Objects.spreadsheet m !! key = Some a →
              Objects.lists m' !! a = Objects.lists m !! a)
  ∧ Objects.dicts m' = Objects.dicts m
  ∧ separate m'.
Proof.
  apply (Validate_leaves_spreadsheet_unchanged (H := abel_constants)
           blank_code_memory).
  apply init_separate, sample_tables_allocated.
Defined.

Lemma blank_code_memory_holds : holds blank_code_value blank_code_memory.
Proof.
  split.
  - intros key.
    destruct (decide (key ∈ ["Site"; "Entities"; "Entity Fields"; "States";
                             "Connections"])) as [Hin|Hout].
    + repeat (apply elem_of_cons in Hin as [->|Hin];
              [split; [vm_compute; lia|];
               split; [by vm_compute|];
               eexists; split; reflexivity|]).
      by apply elem_of_nil in Hin.
    + assert (Objects.spreadsheet blank_code_memory !! key = None) as ->.
      { apply not_elem_of_list_to_map_1. intros Hkey. apply Hout.
        exact Hkey. }
      apply not_elem_of_list_to_map_1. intros Hkey. apply Hout. exact Hkey.
  - intros a Ha.
    destruct a as [|[|[|[|[|[|a]]]]]];
      [exfalso; apply Ha; by exists "Site"
      |exfalso; apply Ha; by exists "Entities"
      |exfalso; apply Ha; by exists "Entity Fields"
      |exfalso; apply Ha; by exists "States"
      |exfalso; apply Ha; by exists "Connections"
      |vm_compute; constructor..].
Qed.

(** The memory of the new validator stands for a store of the value-level
    model, and [Validate] over that store gives what [Validate] over the
    objects gives. *)
Example Validate_abstraction_blank_code :
  let s := abstraction blank_code_value blank_code_memory in
  (Validate (H := abel_constants) blank_code_value s).1 = Ok false
  ∧ self_errors (Validate (H := abel_constants) blank_code_value s).2
    = [missing_value_error "Site" 2 "Building Code"].
Proof.
  intros s.
  destruct (Validate_abstraction (H := abel_constants) blank_code_value
              blank_code_memory blank_code_memory_holds)
    as (Hresult & Hstore & _).
  fold s in Hresult, Hstore. rewrite Hresult, Hstore.
  split; by vm_compute.
Qed.
